(** * Support-matrix extractor (docs/extractor.py)

    A shallow embedding of the probe engine, the record store and the publish
    workflow of [extractor.py], and the properties proved about them.

    Conventions of the embedding.
    - A Python [str] is a [string]; each character stands for the code point
      of the same number (0 to 255).
    - A field record (the innermost [dict]) is a [gmap string value].  Records
      are objects: they live in a store of objects ([heap]) and are named by
      their location, because [self.contdata] and
      [self.data[name][release]] may name the same record.
    - The two outer levels of [self.data] are only ever reached through
      [self.data]; they are kept by value, with record locations at the
      leaves.
    - A file is what it holds and the time it was written.  Files are
      written in place: a save that raises on the way leaves the file cut
      short.
    - A method is a function in the monad [M], which threads the [world]
      (objects, files, log, the remote repository) and carries the Python
      exception when one is raised.
    - The container runtime and the repository host are collaborators: a
      container is what it answers to [exec_run] and the attributes of its
      image; the repository is a small state machine of refs, commits and
      pull requests. *)

From stdpp Require Import gmap strings list fin_maps pretty.
From Stdlib Require Import ZArith Ascii.

Local Open Scope string_scope.
Local Open Scope list_scope.
Local Open Scope nat_scope.
Local Open Scope stdpp_scope.

(** ** Python [str] methods *)

Module Str.

(** [str.isspace] of one character: the code points below 256 that Python
    counts as white space. *)
Definition is_space (c : ascii) : bool :=
  let n := N_of_ascii c in
  ((9 <=? n) && (n <=? 13) || (28 <=? n) && (n <=? 32)
   || (n =? 133) || (n =? 160))%N.

Fixpoint all_space (s : string) : bool :=
  match s with
  | "" => true
  | String c s' => is_space c && all_space s'
  end.

(** [s.isspace()]: every character is white space and there is at least
    one character. *)
Definition isspace (s : string) : bool :=
  match s with
  | "" => false
  | String _ _ => all_space s
  end.

Fixpoint lstrip (s : string) : string :=
  match s with
  | "" => ""
  | String c s' => if is_space c then lstrip s' else s
  end.

Fixpoint rstrip (s : string) : string :=
  match s with
  | "" => ""
  | String c s' =>
      match rstrip s' with
      | "" => if is_space c then "" else String c ""
      | t => String c t
      end
  end.

(** [s.strip()] *)
Definition strip (s : string) : string := rstrip (lstrip s).

(** [s.replace(c, "")] for a one-character [c]. *)
Fixpoint remove (c : ascii) (s : string) : string :=
  match s with
  | "" => ""
  | String a s' =>
      if decide (a = c) then remove c s' else String a (remove c s')
  end.

Definition starts_word (s : string) : bool :=
  match s with
  | "" => false
  | String c _ => negb (is_space c)
  end.

(** [s.split()]: the maximal runs of characters that are not white
    space. *)
Fixpoint split (s : string) : list string :=
  match s with
  | "" => []
  | String c s' =>
      if is_space c then split s'
      else if starts_word s' then
        match split s' with
        | w :: ws => String c w :: ws
        | [] => [String c ""]
        end
      else String c "" :: split s'
  end.

(** [s.split(sep)] for a one-character [sep]. *)
Fixpoint split_on (sep : ascii) (s : string) : list string :=
  match s with
  | "" => [""]
  | String c s' =>
      if decide (c = sep) then "" :: split_on sep s'
      else
        match split_on sep s' with
        | l :: ls => String c l :: ls
        | [] => [String c ""]
        end
  end.

(** [s.startswith(p)] *)
Definition startswith (p s : string) : bool := String.prefix p s.

(** [sep.join(l)] *)
Definition join (sep : string) (l : list string) : string :=
  String.concat sep l.

End Str.

Definition newline : ascii := ascii_of_nat 10.
Definition dquote : ascii := ascii_of_nat 34.
Definition dot : ascii := ascii_of_nat 46.

(** ** Values, records, documents *)

(** The values a field can hold.  [VDate] is a [datetime.date], which is
    what [yaml.safe_load] makes of a scalar such as [2022-02-01]; it is kept
    as its ISO text. *)
Inductive value :=
| VNone
| VBool (b : bool)
| VInt (n : Z)
| VStr (s : string)
| VDate (iso : string).

Global Instance value_eq_dec : EqDecision value.
Proof. solve_decision. Defined.

(** One field record; the whole store as it stands in the JSON file:
    container name, then release, then the record. *)
Abbreviation record := (gmap string value).
Abbreviation store := (gmap string (gmap string (gmap string value))).

Abbreviation loc := nat.

(** Python truth value of a field value, as [assert] takes it. *)
Definition truthy (v : value) : bool :=
  match v with
  | VNone => false
  | VBool b => b
  | VInt n => negb (n =? 0)%Z
  | VStr s => negb (bool_decide (s = ""))
  | VDate _ => true
  end.

(** [str.format] of one value. *)
Definition str_of (v : value) : string :=
  match v with
  | VNone => "None"
  | VBool true => "True"
  | VBool false => "False"
  | VInt n => pretty n
  | VStr s => s
  | VDate iso => iso
  end.

(** Whether [json] can encode the value: it raises [TypeError] on a
    date. *)
Definition serialisable (v : value) : bool :=
  match v with
  | VDate _ => false
  | _ => true
  end.

(** Every value of the record, and of the document, can be encoded. *)
Definition encodable_record (r : record) : Prop :=
  map_Forall (λ _ v, serialisable v = true) r.

Definition encodable (doc : store) : Prop :=
  map_Forall (λ _, map_Forall (λ _, encodable_record)) doc.

(** ** The collaborators *)

(** What [exec_run] gives back: the exit status and the output.  The output
    is kept as what [bytes.decode] makes of it: the text, or [None] when the
    bytes are not valid UTF-8. *)
Record exec_result := { exit_code : Z; output : option string }.

(** A running container: the attributes of its image, what it answers to a
    command, and whether [stop] and [remove] return ([stops]) or raise. *)
Record container_handle := {
  attrs : gmap string value;
  exec_run : string → exec_result;
  stops : bool
}.

(** What a file holds.  [Json doc] is the JSON text of a store document
    (container name, then release, then record); in a file that [json]
    wrote, every value of [doc] can be encoded.  [Yaml m] is the YAML text
    of a flat mapping.  [Partial doc] is the beginning of the JSON text of
    [doc], as [json.dump] leaves it when it raises on the way; it is not a
    JSON text.  [Text s] is a text that is neither JSON nor a YAML mapping.
    A file with JSON of another shape is not among the files considered. *)
Inductive content :=
| Json (doc : store)
| Yaml (m : gmap string value)
| Partial (doc : store)
| Text (s : string).

Global Instance content_eq_dec : EqDecision content.
Proof. solve_decision. Defined.

Record file := { body : content; st_mtime : Z }.

(** The remote repository as the publish workflow sees it: the commit each
    ref points at, the tree of files of each commit (a commit is named by its
    position in [commits]), and the pull requests opened so far.
    [refuses_pulls] says whether the host turns down a request to open a pull
    request. *)
Record pull := { title : string; pr_body : string; head : string; base : string }.

Record repository := {
  refs : gmap string nat;
  commits : list (gmap string content);
  pulls : list pull;
  refuses_pulls : bool
}.

(** Lines written by [logger.info]. *)
Inductive event :=
| Info (msg : string)
| InfoRecord (r : gmap string value)
| InfoStore (d : gmap string (gmap string (gmap string value))).

(** ** The world and the monad *)

(** What a run can read or change: the objects, the files and the time of
    the file system, the log, the environment, the image that a reference
    starts (if any), the repositories of the host, the date, and for each
    path whether its directory exists ([has_parent]), which no step
    changes. *)
Record world := {
  heap : list (gmap string value);
  fs : gmap string file;
  clock : Z;
  log : list event;
  environ : gmap string string;
  images : string → option container_handle;
  hub : gmap string repository;
  today : string;
  has_parent : string → bool
}.

Definition set_heap (f : list record → list record) (w : world) : world :=
  {| heap := f (heap w); fs := fs w; clock := clock w; log := log w;
     environ := environ w; images := images w; hub := hub w;
     today := today w; has_parent := has_parent w |}.

Definition set_fs (f : gmap string file → gmap string file) (w : world) : world :=
  {| heap := heap w; fs := f (fs w); clock := clock w; log := log w;
     environ := environ w; images := images w; hub := hub w;
     today := today w; has_parent := has_parent w |}.

Definition set_clock (f : Z → Z) (w : world) : world :=
  {| heap := heap w; fs := fs w; clock := f (clock w); log := log w;
     environ := environ w; images := images w; hub := hub w;
     today := today w; has_parent := has_parent w |}.

Definition set_log (f : list event → list event) (w : world) : world :=
  {| heap := heap w; fs := fs w; clock := clock w; log := f (log w);
     environ := environ w; images := images w; hub := hub w;
     today := today w; has_parent := has_parent w |}.

Definition set_hub (f : gmap string repository → gmap string repository)
    (w : world) : world :=
  {| heap := heap w; fs := fs w; clock := clock w; log := log w;
     environ := environ w; images := images w; hub := f (hub w);
     today := today w; has_parent := has_parent w |}.

Inductive exn :=
| KeyError (k : string)
| TypeError
| IndexError
| UnicodeDecodeError
| AttributeError (a : string)
| AssertionError
| FileNotFoundError (p : string)
| JSONDecodeError
| GithubException
| RuntimeError
| UnboundLocalError (v : string)
| APIError
| OutOfFuel.

Global Instance exn_eq_dec : EqDecision exn.
Proof. solve_decision. Defined.

Inductive res (A : Type) :=
| Ok (a : A)
| Raise (e : exn).
Global Arguments Ok {A} a.
Global Arguments Raise {A} e.

(** A computation: from the world before to the outcome and the world
    after.  What was written before an exception stays written. *)
Definition M (A : Type) : Type := world → res A * world.

Global Instance M_ret : MRet M := λ A a w, (Ok a, w).

Global Instance M_bind : MBind M := λ A B k m w,
  match m w with
  | (Ok a, w') => k a w'
  | (Raise e, w') => (Raise e, w')
  end.

Definition raise {A} (e : exn) : M A := λ w, (Raise e, w).
Definition gets {A} (f : world → A) : M A := λ w, (Ok (f w), w).
Definition modify (f : world → world) : M unit := λ w, (Ok (), f w).

(** [try: ... except: ...] around [m]: [handler e] is the [except] clause
    that catches [e], or [None] when no clause does. *)
Definition try_except {A} (m : M A) (handler : exn → option (M A)) : M A :=
  λ w,
    match m w with
    | (Ok a, w') => (Ok a, w')
    | (Raise e, w') =>
        match handler e with
        | Some h => h w'
        | None => (Raise e, w')
        end
    end.

Definition info (msg : string) : M unit := modify (set_log (λ l, l ++ [Info msg])).

Definition from_opt {A} (e : exn) (o : option A) : M A :=
  match o with
  | Some a => mret a
  | None => raise e
  end.

(** ** Objects and files *)

(** [{...}]: a new record object. *)
Definition alloc (r : record) : M loc :=
  λ w, (Ok (length (heap w)), set_heap (λ h, h ++ [r]) w).

(** [obj[key] = v] on the record at [l]. *)
Definition setitem (l : loc) (key : string) (v : value) : M unit :=
  modify (set_heap (alter (insert key v) l)).

(** [obj[key]] on the record at [l]. *)
Definition getitem (l : loc) (key : string) : M value :=
  λ w, from_opt (KeyError key) ((heap w !!! l) !! key) w.

(** [json.load]: one new record object for each record of the document. *)
Fixpoint load_releases (kvs : list (string * record)) : M (gmap string loc) :=
  match kvs with
  | [] => mret ∅
  | (r, rec) :: kvs' =>
      l ← alloc rec;
      f ← load_releases kvs';
      mret (<[r := l]> f)
  end.

Fixpoint load_containers (kvs : list (string * gmap string record))
    : M (gmap string (gmap string loc)) :=
  match kvs with
  | [] => mret ∅
  | (c, m) :: kvs' =>
      f ← load_releases (map_to_list m);
      d ← load_containers kvs';
      mret (<[c := f]> d)
  end.

Definition json_load (doc : store) : M (gmap string (gmap string loc)) :=
  load_containers (map_to_list doc).

(** [json.dumps(data, sort_keys=True)]: the document that [data] stands for,
    each location replaced by the record it names. *)
Definition dump (h : list record) (d : gmap string (gmap string loc)) : store :=
  (λ f : gmap string loc, (λ l : loc, h !!! l) <$> f) <$> d.

(** [os.path.exists] *)
Definition path_exists (p : string) : M bool :=
  gets (λ w, bool_decide (is_Some (fs w !! p))).

(** [open(p).read()] *)
Definition read_file (p : string) : M content :=
  λ w, from_opt (FileNotFoundError p) (body <$> fs w !! p) w.

(** [Path(p).stat().st_mtime] *)
Definition stat_mtime (p : string) : M Z :=
  λ w, from_opt (FileNotFoundError p) (st_mtime <$> fs w !! p) w.

(** [open(p, "w")]: the file is made, or emptied when it is there.  It
    cannot be made in a directory that does not exist. *)
Definition can_create (w : world) (p : string) : bool :=
  bool_decide (is_Some (fs w !! p)) || has_parent w p.

Definition open_for_writing (p : string) : M unit :=
  λ w,
    if can_create w p then (Ok (), w) else (Raise (FileNotFoundError p), w).

(** What was written to the file opened at [p] when it is closed: the file
    is stamped with the current time, and time moves on. *)
Definition write_file (p : string) (c : content) : M unit :=
  modify (λ w,
    set_clock (λ t, t + 1)%Z
      (set_fs (insert p {| body := c; st_mtime := clock w |}) w)).

(** ** SupportMatrixExtractor *)

Record SupportMatrixExtractor := {
  container_name : string;
  release : string;
  contdata : loc;
  data : gmap string (gmap string loc);
  datafile : string;
  force : bool;
  container : option container_handle
}.

Definition ERROR : value := VStr "Not applicable".

Definition standard_snippets : list string :=
  ["dgx_system"; "nvidia_driver"; "gpu_model"].

(** [self.data] is a [defaultdict(dict)], so
    [self.data[name][release] = self.contdata] first makes [self.data[name]]
    and then stores the record under [release]. *)
Definition __init__ (name rel file : string) (force : bool)
    : M SupportMatrixExtractor :=
  l ← alloc ∅;
  mret {| container_name := name; release := rel; contdata := l;
          data := {[ name := {[ rel := l ]} ]};
          datafile := file; force := force; container := None |}.

Definition use_container (x : SupportMatrixExtractor) (c : container_handle)
    : SupportMatrixExtractor :=
  {| container_name := container_name x; release := release x;
     contdata := contdata x; data := data x; datafile := datafile x;
     force := force x; container := Some c |}.

(** [self.container] *)
Definition the_container (x : SupportMatrixExtractor) : M container_handle :=
  from_opt (AttributeError "container") (container x).

(** [output.decode("utf-8")] *)
Definition decode (r : exec_result) : M string :=
  from_opt UnicodeDecodeError (output r).

Definition get_from_envfile (x : SupportMatrixExtractor) (path lookup : string)
    (key : option string) : M unit :=
  let key := default lookup key in
  setitem (contdata x) key ERROR;;
  c ← the_container x;
  let r := exec_run c
    ("bash -c 'source " +:+ path +:+ "; echo ${" +:+ lookup +:+ "}'") in
  result ← decode r;
  if negb (exit_code r =? 1)%Z && negb (Str.isspace result) then
    setitem (contdata x) key (VStr (Str.strip (Str.remove dquote result)))
  else
    info ("Failed to get env var '" +:+ lookup +:+ "' from file '"
          +:+ path +:+ "'").

Definition get_from_env (x : SupportMatrixExtractor) (lookup : string)
    (key : option string) : M unit :=
  let key := default lookup key in
  setitem (contdata x) key ERROR;;
  c ← the_container x;
  let r := exec_run c ("bash -c 'echo ${" +:+ lookup +:+ "}'") in
  result ← decode r;
  if negb (exit_code r =? 1)%Z && negb (Str.isspace result) then
    setitem (contdata x) key (VStr (Str.strip (Str.remove dquote result)))
  else
    info ("Failed to get env var: '" +:+ lookup +:+ "'").

(** [[line.split()[-1] for line in text.split("\n")
      if line.startswith("Version:")]]; [None] when some [split()] is empty
    and [[-1]] raises. *)
Definition versions_of (text : string) : option (list string) :=
  mapM (λ line, last (Str.split line))
       (filter (λ line, Str.startswith "Version:" line = true)
               (Str.split_on newline text)).

Definition get_from_pip (x : SupportMatrixExtractor) (lookup : string)
    (key : option string) : M unit :=
  let key := default lookup key in
  setitem (contdata x) key ERROR;;
  c ← the_container x;
  let r := exec_run c ("python -m pip show '" +:+ lookup +:+ "'") in
  if negb (exit_code r =? 0)%Z then
    info ("Failed to get package version from pip: " +:+ lookup)
  else
    text ← decode r;
    versions ← from_opt IndexError (versions_of text);
    match versions with
    | [v] => setitem (contdata x) key (VStr (Str.strip v))
    | _ =>
        info ("Failed to extract version from pip output: " +:+ text)
    end.

(** [a / b] rounded to the nearest integer, ties to the even one
    ([0 <= a], [0 < b]). *)
Definition round_half_even (a b : Z) : Z :=
  let q := (a / b)%Z in
  let r := (a mod b)%Z in
  if (2 * r <? b)%Z then q
  else if (b <? 2 * r)%Z then (q + 1)%Z
  else if Z.even q then q else (q + 1)%Z.

(** How Python prints the float [k / 100]: at least one digit after the
    point, no trailing zero beyond it. *)
Definition two_decimals (k : Z) : string :=
  let f := (k mod 100)%Z in
  pretty (k / 100)%Z +:+ "." +:+
  (if (f mod 10 =? 0)%Z then pretty (f / 10)%Z
   else pretty (f / 10)%Z +:+ pretty (f mod 10)%Z).

(** ["{}".format(round(n / 1024 ** 3, 2))].  The quotient is exact in
    binary floating point for a byte count below [2 ^ 53], so [round] rounds
    the exact value and the result is computed here on integers. *)
Definition format_gb (n : Z) : string :=
  let digits := two_decimals (round_half_even (100 * Z.abs n) (2 ^ 30)) in
  if (n <? 0)%Z then "-" +:+ digits else digits.

(** The left operand of [/]: an [int] (a [bool] is one in Python). *)
Definition as_number (v : value) : M Z :=
  match v with
  | VInt n => mret n
  | VBool b => mret (if b then 1 else 0)%Z
  | _ => raise TypeError
  end.

Definition get_from_image (x : SupportMatrixExtractor) (lookup : string)
    (key : option string) : M unit :=
  let key := default lookup key in
  setitem (contdata x) key ERROR;;
  c ← the_container x;
  let attrs := attrs c in
  try_except
    (v ← from_opt (KeyError lookup) (attrs !! lookup);
     setitem (contdata x) key v)
    (λ e, match e with
          | KeyError _ =>
              Some (info ("Failed to get attr from image: '" +:+ lookup +:+ "'"))
          | _ => None
          end);;
  if decide (lookup = "Size") then
    v ← from_opt (KeyError lookup) (attrs !! lookup);
    n ← as_number v;
    setitem (contdata x) key (VStr (format_gb n +:+ " GB"))
  else mret ().

Definition get_from_cmd (x : SupportMatrixExtractor) (cmd key : string) : M unit :=
  setitem (contdata x) key ERROR;;
  c ← the_container x;
  let r := exec_run c ("bash -c '" +:+ cmd +:+ "'") in
  if negb (exit_code r =? 1)%Z then
    text ← decode r;
    setitem (contdata x) key (VStr (Str.strip text));;
    if decide (key = "sm") then
      text ← decode r;
      let smlist := Str.split text in
      setitem (contdata x) key (VStr (Str.join ", " smlist))
    else mret ()
  else
    text ← decode r;
    info ("Command '" +:+ cmd +:+ "' failed: " +:+ text).

Definition insert_snippet (x : SupportMatrixExtractor) (key : string) (snip : value)
    : M unit :=
  setitem (contdata x) key snip.

(** The document that [self.data] stands for. *)
Definition snapshot (x : SupportMatrixExtractor) : M store :=
  gets (λ w, dump (heap w) (data x)).

(** [json.dumps] raises [TypeError] when it meets a value that it cannot
    encode. *)
Definition to_json (x : SupportMatrixExtractor) : M store :=
  doc ← snapshot x;
  if decide (encodable doc) then mret doc else raise TypeError.

Definition set_data (x : SupportMatrixExtractor) (d : gmap string (gmap string loc))
    : SupportMatrixExtractor :=
  {| container_name := container_name x; release := release x;
     contdata := contdata x; data := d; datafile := datafile x;
     force := force x; container := container x |}.

Definition set_contdata (x : SupportMatrixExtractor) (l : loc) : SupportMatrixExtractor :=
  {| container_name := container_name x; release := release x;
     contdata := l; data := data x; datafile := datafile x;
     force := force x; container := container x |}.

(** [json.load(f)] on what the file holds. *)
Definition parse_store (c : content) : M store :=
  match c with
  | Json doc => mret doc
  | _ => raise JSONDecodeError
  end.

Definition from_json (x : SupportMatrixExtractor) : M SupportMatrixExtractor :=
  found ← path_exists (datafile x);
  if negb found then mret x
  else
    f ← read_file (datafile x);
    doc ← parse_store f;
    d ← json_load doc;
    let x := set_data x d in
    let x :=
      if decide (data x !! container_name x = None)
      then set_data x (<[container_name x := ∅]> (data x))
      else x in
    m ← from_opt (KeyError (container_name x)) (data x !! container_name x);
    x ← (if bool_decide (m !! release x = None) || force x then
           l ← alloc ∅;
           m ← from_opt (KeyError (container_name x))
                 (data x !! container_name x);
           mret (set_data x (<[container_name x := <[release x := l]> m]> (data x)))
         else mret x);
    m ← from_opt (KeyError (container_name x)) (data x !! container_name x);
    l ← from_opt (KeyError (release x)) (m !! release x);
    mret (set_contdata x l).

(** [json.dump] writes the text to the file piece by piece: when it meets
    a value that it cannot encode, the file is left with the pieces written
    so far. *)
Definition to_json_file (x : SupportMatrixExtractor) : M unit :=
  open_for_writing (datafile x);;
  doc ← snapshot x;
  if decide (encodable doc) then write_file (datafile x) (Json doc)
  else write_file (datafile x) (Partial doc);; raise TypeError.

Definition already_present (x : SupportMatrixExtractor) : M bool :=
  found ← path_exists (datafile x);
  if negb found then mret false
  else if decide (data x !! container_name x = None) then mret false
  else
    m ← from_opt (KeyError (container_name x)) (data x !! container_name x);
    if decide (m !! release x = None) then mret false
    else
      m ← from_opt (KeyError (container_name x)) (data x !! container_name x);
      l ← from_opt (KeyError (release x)) (m !! release x);
      n ← gets (λ w, size (heap w !!! l));
      if (n <? 1)%nat then mret false else mret true.

(** ** The remote repository *)

(** The outcome of [m] as a value, for [try: ... except: ... else: ...]. *)
Definition attempt {A} (m : M A) : M (res A) :=
  λ w, let '(r, w') := m w in (Ok r, w').

(** [g.get_repo(repo)] *)
Definition get_repo (repo : string) : M repository :=
  λ w, from_opt GithubException (hub w !! repo) w.

Definition put_repo (repo : string) (r : repository) : M unit :=
  modify (set_hub (insert repo r)).

Definition set_refs (f : gmap string nat → gmap string nat) (r : repository)
    : repository :=
  {| refs := f (refs r); commits := commits r; pulls := pulls r;
     refuses_pulls := refuses_pulls r |}.

(** [r.get_branch(name).commit.sha] *)
Definition get_branch_sha (repo name : string) : M nat :=
  r ← get_repo repo;
  from_opt GithubException (refs r !! ("refs/heads/" +:+ name)).

(** [r.create_git_ref(ref, sha)]: refused when the ref exists. *)
Definition create_git_ref (repo ref : string) (sha : nat) : M string :=
  r ← get_repo repo;
  if decide (is_Some (refs r !! ref)) then raise GithubException
  else put_repo repo (set_refs (insert ref sha) r);; mret ref.

(** The tree of files a ref points at. *)
Definition tree_at (repo ref : string) : M (gmap string content) :=
  r ← get_repo repo;
  sha ← from_opt GithubException (refs r !! ref);
  from_opt GithubException (commits r !! sha).

(** [r.get_contents(path, ref)]: the path and the blob found there. *)
Definition get_contents (repo path ref : string) : M (string * content) :=
  t ← tree_at repo ref;
  blob ← from_opt GithubException (t !! path);
  mret (path, blob).

(** [r.update_file(path, msg, content, branch, sha)]: a new commit on
    [branch] in which [path] holds [content]; refused when [sha] is not the
    blob now at [path].  The result is the new commit. *)
Definition update_file (repo path msg : string) (new : content)
    (branch : string) (sha : content) : M nat :=
  t ← tree_at repo branch;
  if decide (t !! path = Some sha) then
    r ← get_repo repo;
    let commit := length (commits r) in
    put_repo repo
      {| refs := <[branch := commit]> (refs r);
         commits := commits r ++ [<[path := new]> t];
         pulls := pulls r; refuses_pulls := refuses_pulls r |};;
    mret commit
  else raise GithubException.

(** [r.compare(base, head).files]: the paths whose blob differs. *)
Definition diff_files (t1 t2 : gmap string content) : list string :=
  filter (λ p, t1 !! p ≠ t2 !! p) (elements (dom t1 ∪ dom t2)).

Definition compare (repo : string) (base head : nat) : M (list string) :=
  r ← get_repo repo;
  t1 ← from_opt GithubException (commits r !! base);
  t2 ← from_opt GithubException (commits r !! head);
  mret (diff_files t1 t2).

(** [remote_ref.delete()] *)
Definition delete_ref (repo ref : string) : M unit :=
  r ← get_repo repo;
  if decide (is_Some (refs r !! ref)) then
    put_repo repo (set_refs (delete ref) r)
  else raise GithubException.

(** [r.create_pull(title, body, head, base)]; the result is the address of
    the pull request. *)
Definition create_pull (repo title body head base : string) : M string :=
  r ← get_repo repo;
  if refuses_pulls r then raise GithubException
  else
    put_repo repo
      {| refs := refs r; commits := commits r;
         pulls := pulls r ++ [{| title := title; pr_body := body;
                                 head := head; base := base |}];
         refuses_pulls := refuses_pulls r |};;
    mret (repo +:+ "/pull/" +:+ pretty (S (length (pulls r)))).

(** ** open_pr *)

(** The [while True] loop of [open_pr], entered with [counter].  Each turn
    either leaves the loop or adds one to [counter], and the loop is left
    once [counter] passes 25; [fuel] bounds the number of turns. *)
Fixpoint create_branch (fuel : nat) (repo pr_branch : string) (counter : nat)
    : M string :=
  match fuel with
  | 0 => raise OutOfFuel
  | S fuel =>
      let remote_branch :=
        "refs/heads/" +:+ pr_branch +:+ "-" +:+ pretty counter in
      r ← attempt (sha ← get_branch_sha repo "main";
                   create_git_ref repo remote_branch sha);
      match r with
      | Ok remote_ref =>
          info ("Remote ref created: '" +:+ remote_ref +:+ "'");;
          mret remote_ref
      | Raise GithubException =>
          info ("PR branch '" +:+ remote_branch
                +:+ "' already exists. Incrementing the counter.");;
          let counter := S counter in
          if (25 <? counter)%nat then
            info "Failed to create a unique branch name. Giving up.";;
            raise GithubException
          else create_branch fuel repo pr_branch counter
      | Raise e => raise e
      end
  end.

(** The text of the exception in the last log line is left out. *)
Definition open_pr (repo path release : string) : M unit :=
  token ← gets (λ w, environ w !! "GH_TOKEN");
  match token with
  | None => info "Env var GH_TOKEN is not found. Cannot open PR."
  | Some _ =>
      let msg := "Updates from containers" in
      let pr_branch := "docs-smx-" +:+ Str.remove dot release in
      content ← read_file path;
      _ ← get_repo repo;
      remote_ref ← create_branch 25 repo pr_branch 1;
      f ← get_contents repo path remote_ref;
      commit ← update_file repo (fst f) msg content remote_ref (snd f);
      main_sha ← get_branch_sha repo "main";
      files ← compare repo main_sha commit;
      if (length files =? 0)%nat then
        info "No changes to commit.";;
        delete_ref repo remote_ref
      else
        try_except
          (url ← create_pull repo ("Support matrix updates for " +:+ release)
                   msg remote_ref "main";
           info ("Opened PR: '" +:+ url +:+ "'"))
          (λ e, Some (info "Failed to open PR"))
  end.

(** ** main *)

Record arguments := {
  arg_version : option string;
  arg_file : option string;
  arg_snippets : option string;
  arg_container : option string;
  arg_force : bool
}.

(** [jsonfile] is a [Path] at first and a [str] once [--file] replaces it;
    only a [Path] has [stat]. *)
Inductive pathlike :=
| PosixPath (p : string)
| PlainStr (p : string).

Definition fspath (p : pathlike) : string :=
  match p with
  | PosixPath s => s
  | PlainStr s => s
  end.

(** [jsonfile.stat().st_mtime] *)
Definition stat (p : pathlike) : M Z :=
  match p with
  | PosixPath s => stat_mtime s
  | PlainStr _ => raise (AttributeError "stat")
  end.

(** [if s:] for an optional string. *)
Definition given (o : option string) : option string :=
  match o with
  | Some "" => None
  | _ => o
  end.

(** [with managed_container(img) as container: body].  The generator hands
    over the container, or the exception that starting it raised ([None]
    here).
    - With a container, when [body] returns the generator goes on to its
      [finally] clause, which stops and removes the container; what these
      calls raise leaves the [with] statement.  An exception raised by [body]
      is thrown into the generator, whose [except Exception] clause catches
      it and yields once more, which [contextlib] answers with a
      [RuntimeError]; the generator is left where it is (as [contextlib] does
      up to Python 3.11), so the [finally] clause is not run before the
      [RuntimeError] leaves the [with] statement.
    - Without one, the generator is inside an [except] clause: an exception
      raised by [body] passes through, and there is nothing to stop. *)
Definition managed_container {A} (img : string)
    (body : option container_handle → M A) : M A :=
  λ w,
    match images w img with
    | Some c =>
        match body (Some c) w with
        | (Ok a, w') =>
            if stops c then (Ok a, w') else (Raise APIError, w')
        | (Raise e, w') => (Raise RuntimeError, w')
        end
    | None => body None w
    end.

(** [yaml.safe_load(f)] of the snippets file; anything but a flat mapping
    ends the run. *)
Definition load_snippets (p : string) : M (gmap string value) :=
  c ← read_file p;
  match c with
  | Yaml m => mret m
  | _ => raise TypeError
  end.

(** [for k in ks: assert sniptext[k]] *)
Fixpoint check_snippets (sniptext : gmap string value) (ks : list string)
    : M unit :=
  match ks with
  | [] => mret ()
  | k :: ks =>
      v ← from_opt (KeyError k) (sniptext !! k);
      if truthy v then check_snippets sniptext ks else raise AssertionError
  end.

(** [for k in ks: xtr.insert_snippet(k, sniptext[k])] *)
Fixpoint insert_snippets (xtr : SupportMatrixExtractor) (sniptext : gmap string value)
    (ks : list string) : M unit :=
  match ks with
  | [] => mret ()
  | k :: ks =>
      v ← from_opt (KeyError k) (sniptext !! k);
      insert_snippet xtr k v;;
      insert_snippets xtr sniptext ks
  end.

(** The probes of one container, in the order [main] runs them. *)
Definition run_probes (xtr : SupportMatrixExtractor) : M unit :=
  get_from_image xtr "Size" (Some "size");;
  get_from_envfile xtr "/etc/os-release" "PRETTY_NAME" (Some "os");;
  get_from_env xtr "CUDA_VERSION" (Some "cuda");;
  get_from_pip xtr "rmm" None;;
  get_from_pip xtr "cudf" None;;
  get_from_env xtr "CUDNN_VERSION" (Some "cudnn");;
  get_from_pip xtr "nvtabular" None;;
  get_from_pip xtr "transformers4rec" None;;
  get_from_pip xtr "merlin.core" None;;
  get_from_pip xtr "merlin.systems" None;;
  get_from_pip xtr "merlin.models" None;;
  get_from_pip xtr "hugectr2onnx" None;;
  get_from_pip xtr "hugectr" None;;
  get_from_pip xtr "sparse_operation_kit" None;;
  get_from_pip xtr "tensorflow" (Some "tf");;
  get_from_pip xtr "torch" (Some "pytorch");;
  get_from_env xtr "CUBLAS_VERSION" (Some "cublas");;
  get_from_env xtr "CUFFT_VERSION" (Some "cufft");;
  get_from_env xtr "CURAND_VERSION" (Some "curand");;
  get_from_env xtr "CUSOLVER_VERSION" (Some "cusolver");;
  get_from_env xtr "CUSPARSE_VERSION" (Some "cusparse");;
  get_from_env xtr "CUTENSOR_VERSION" (Some "cutensor");;
  get_from_env xtr "NVIDIA_TENSORFLOW_VERSION" (Some "nvidia_tensorflow");;
  get_from_env xtr "NVIDIA_PYTORCH_VERSION" (Some "nvidia_pytorch");;
  get_from_env xtr "OPENMPI_VERSION" (Some "openmpi");;
  get_from_env xtr "TRT_VERSION" (Some "tensorrt");;
  get_from_env xtr "TRTOSS_VERSION" (Some "base_container");;
  get_from_cmd xtr
    "if [ ! -f /usr/local/hugectr/lib/libhuge_ctr_shared.so ]; then exit 1; fi; cuobjdump /usr/local/hugectr/lib/libhuge_ctr_shared.so | grep arch | sed -e 's/.*sm_//'"
    "sm";;
  get_from_cmd xtr "cat /opt/tritonserver/TRITON_VERSION" "triton";;
  get_from_cmd xtr
    ("python -c " +:+ String dquote "import sys;print(sys.version_info[0]);"
     +:+ String dquote "")
    "python_major".

(** The [base_container] field, by family of image. *)
Definition base_container_hack (xtr : SupportMatrixExtractor) (cont : string) : M unit :=
  if decide (cont = "merlin-training") then
    insert_snippet xtr "base_container" (VStr "Not applicable")
  else if decide (cont = "merlin-tensorflow-training") then
    tf2_img ← getitem (contdata xtr) "nvidia_tensorflow";
    py_maj ← getitem (contdata xtr) "python_major";
    insert_snippet xtr "base_container"
      (VStr ("nvcr.io/nvidia/tensorflow:" +:+ str_of tf2_img +:+ "-py"
             +:+ str_of py_maj))
  else if decide (cont = "merlin-pytorch-training") then
    pt_img ← getitem (contdata xtr) "nvidia_pytorch";
    py_maj ← getitem (contdata xtr) "python_major";
    insert_snippet xtr "base_container"
      (VStr ("nvcr.io/nvidia/pytorch:" +:+ str_of pt_img +:+ "-py"
             +:+ str_of py_maj))
  else
    trtoss ← getitem (contdata xtr) "base_container";
    insert_snippet xtr "base_container"
      (VStr ("Triton version " +:+ str_of trtoss)).

(** [date.today().strftime("%y.%m")] *)
Definition get_yymm : M string := gets today.

Definition ngc_base : string := "nvcr.io/nvidia/merlin/".

(** One turn of the loop over the images; the result is the extractor that
    [xtr] names afterwards. *)
Definition process (a : arguments) (sniptext : gmap string value)
    (jsonfile : pathlike) (version : string) (force : bool) (cont : string)
    : M SupportMatrixExtractor :=
  let img := ngc_base +:+ cont +:+ ":" +:+ version in
  info ("Extracting information from: " +:+ img);;
  xtr ← __init__ (ngc_base +:+ cont) version (fspath jsonfile) force;
  xtr ← from_json xtr;
  present ← already_present xtr;
  if present && negb force then
    info "...skipping because container is already in data.";;
    mret xtr
  else
    managed_container img (λ container,
      match container with
      | None => info "...image is not found.";; mret xtr
      | Some container =>
          info "...container is running.";;
          let xtr := use_container xtr container in
          insert_snippets xtr sniptext standard_snippets;;
          insert_snippet xtr "release"
            (from_option VStr VNone (arg_version a));;
          run_probes xtr;;
          base_container_hack xtr cont;;
          to_json_file xtr;;
          r ← gets (λ w, heap w !!! contdata xtr);
          modify (set_log (λ l, l ++ [InfoRecord r]));;
          mret xtr
      end).

(** [for cont in containers: ...]; [xtr] is what the name is bound to when
    the loop is entered, if anything. *)
Fixpoint process_all (a : arguments) (sniptext : gmap string value)
    (jsonfile : pathlike) (version : string) (force : bool)
    (containers : list string) (xtr : option SupportMatrixExtractor)
    : M (option SupportMatrixExtractor) :=
  match containers with
  | [] => mret xtr
  | cont :: rest =>
      xtr ← process a sniptext jsonfile version force cont;
      process_all a sniptext jsonfile version force rest (Some xtr)
  end.

Definition all_containers : list string :=
  ["merlin-training"; "merlin-tensorflow-training"; "merlin-pytorch-training";
   "merlin-inference"; "merlin-tensorflow-inference";
   "merlin-pytorch-inference"].

(** [main(args)], for a script that lies in directory [scriptdir].
    [os.path.abspath] is taken to leave its argument as it is. *)
Definition main (scriptdir : string) (a : arguments) : M unit :=
  let containers := all_containers in
  let jsonfile := PosixPath (scriptdir +:+ "/data.json") in
  let snippetsfile := scriptdir +:+ "/snippets.yaml" in
  let version := arg_version a in
  let force := false in
  jsonfile_start_mtime ← stat jsonfile;
  let jsonfile := from_option PlainStr jsonfile (given (arg_file a)) in
  let snippetsfile := default snippetsfile (given (arg_snippets a)) in
  let containers :=
    from_option (λ c, [c]) containers (given (arg_container a)) in
  let force := if arg_force a then true else force in
  version ← (match given version with
             | Some v => mret v
             | None => get_yymm
             end);
  sniptext ← load_snippets snippetsfile;
  check_snippets sniptext standard_snippets;;
  xtr ← process_all a sniptext jsonfile version force containers None;
  xtr ← from_opt (UnboundLocalError "xtr") xtr;
  doc ← snapshot xtr;
  modify (set_log (λ l, l ++ [InfoStore doc]));;
  mtime ← stat jsonfile;
  skip_pr ← gets (λ w, environ w !! "SKIP_PR");
  if negb (mtime =? jsonfile_start_mtime)%Z && bool_decide (skip_pr = None)
  then
    repo ← gets (λ w, default "NVIDIA-Merlin/Merlin" (environ w !! "REPO"));
    open_pr repo (fspath jsonfile) version
  else mret ().

(** ** Vocabulary of the statements *)

(** The entry of a two-level mapping under container [c] and release [r]. *)
Definition entry {A} (d : gmap string (gmap string A)) (c r : string)
    : option A :=
  m ← d !! c; m !! r.

(** Every location in [d] names an object of [h], and no object is named
    twice. *)
Definition tree_shaped (h : list record) (d : gmap string (gmap string loc))
    : Prop :=
  (∀ c r l, entry d c r = Some l → l < length h) ∧
  (∀ c1 r1 c2 r2 l,
     entry d c1 r1 = Some l → entry d c2 r2 = Some l → c1 = c2 ∧ r1 = r2).

(** [self.contdata is self.data[self.container_name][self.release]], and the
    object exists. *)
Definition linked (h : list record) (x : SupportMatrixExtractor) : Prop :=
  entry (data x) (container_name x) (release x) = Some (contdata x) ∧
  contdata x < length h.

(** [w'] differs from [w] at most in the record at [l] and in the log. *)
Definition touches_only (l : loc) (w w' : world) : Prop :=
  length (heap w') = length (heap w) ∧
  (∀ l', l' ≠ l → heap w' !! l' = heap w !! l') ∧
  fs w' = fs w ∧ clock w' = clock w ∧ environ w' = environ w ∧
  hub w' = hub w.

(** [m] changes at most the record at [l] and the log, whatever its
    outcome. *)
Definition frames {A} (l : loc) (m : M A) : Prop :=
  ∀ w, touches_only l w (m w).2.

(** The calls that write to the working record: the five probes and
    [insert_snippet]. *)
Inductive mutation :=
| EnvFile (path lookup : string) (key : option string)
| Env (lookup : string) (key : option string)
| Pip (lookup : string) (key : option string)
| Image (lookup : string) (key : option string)
| Cmd (cmd key : string)
| Snippet (key : string) (snip : value).

Definition apply_mutation (x : SupportMatrixExtractor) (m : mutation) : M unit :=
  match m with
  | EnvFile path lookup key => get_from_envfile x path lookup key
  | Env lookup key => get_from_env x lookup key
  | Pip lookup key => get_from_pip x lookup key
  | Image lookup key => get_from_image x lookup key
  | Cmd cmd key => get_from_cmd x cmd key
  | Snippet key snip => insert_snippet x key snip
  end.

(** The calls of [ms] one after the other; an exception ends the
    sequence. *)
Fixpoint apply_mutations (x : SupportMatrixExtractor) (ms : list mutation) : M unit :=
  match ms with
  | [] => mret ()
  | m :: ms => apply_mutation x m;; apply_mutations x ms
  end.

(** No character of [s] is white space. *)
Fixpoint no_space (s : string) : bool :=
  match s with
  | "" => true
  | String c s' => negb (Str.is_space c) && no_space s'
  end.

(** [s] is empty or ends with a white space character. *)
Definition ends_with_space (s : string) : Prop :=
  s = "" ∨ ∃ p c, s = p +:+ String c "" ∧ Str.is_space c = true.

(** [t] is the last white-space-separated token of [line]: a run of
    characters that are not white space, with only white space after it and
    white space (or nothing) just before it. *)
Definition is_last_token (line t : string) : Prop :=
  ∃ pre post,
    line = pre +:+ t +:+ post ∧
    t ≠ "" ∧ no_space t = true ∧ Str.all_space post = true ∧
    ends_with_space pre.

(** The lines of [text] that begin with ["Version:"]. *)
Definition version_lines (text : string) : list string :=
  filter (λ line, Str.startswith "Version:" line = true)
         (Str.split_on newline text).

(** The probe took its failure branch between [w] and [w']: it logged [msg]
    and the field [key] of the record at [l] holds the sentinel. *)
Definition fails_with (l : loc) (key msg : string) (w w' : world) : Prop :=
  log w' = log w ++ [Info msg] ∧ (heap w' !!! l) !! key = Some ERROR.

(** The claim that a probe treats the execution as failed only when the
    status is 1, for a probe [probe] that runs [cmdline], writes [key] and
    logs [msg] when the execution failed. *)
Definition only_status_1_fails (probe : SupportMatrixExtractor → M unit)
    (cmdline key msg : string) : Prop :=
  ∀ x c w st text,
    container x = Some c → contdata x < length (heap w) →
    exec_run c cmdline = {| exit_code := st; output := Some text |} →
    fails_with (contdata x) key msg w (probe x w).2 → st = 1%Z.

(** [w'] has the record at [l] as in [w] but for its field [key]. *)
Definition keeps_other_keys (l : loc) (key : string) (w w' : world) : Prop :=
  ∀ k, k ≠ key → (heap w' !!! l) !! k = (heap w !!! l) !! k.

Definition writes_only {A} (l : loc) (key : string) (m : M A) : Prop :=
  ∀ w, keeps_other_keys l key w (m w).2.

(** The command lines the probes run. *)
Definition envfile_cmd (path lookup : string) : string :=
  "bash -c 'source " +:+ path +:+ "; echo ${" +:+ lookup +:+ "}'".

Definition env_cmd (lookup : string) : string :=
  "bash -c 'echo ${" +:+ lookup +:+ "}'".

Definition pip_cmd (lookup : string) : string :=
  "python -m pip show '" +:+ lookup +:+ "'".

Definition shell_cmd (cmd : string) : string := "bash -c '" +:+ cmd +:+ "'".

(** The field a call writes. *)
Definition mutation_key (m : mutation) : string :=
  match m with
  | EnvFile _ lookup key | Env lookup key | Pip lookup key
  | Image lookup key => default lookup key
  | Cmd _ key | Snippet key _ => key
  end.

(** The name of the scratch branch for a release, before the counter, and
    the ref tried at a given count. *)
Definition scratch_prefix (release : string) : string :=
  "docs-smx-" +:+ Str.remove dot release.

Definition branch_ref (pr_branch : string) (counter : nat) : string :=
  "refs/heads/" +:+ pr_branch +:+ "-" +:+ pretty counter.

(** [w'] has the repository, the environment, the images and the date of
    [w], and every file of [w] but perhaps the one at [p]. *)
Definition outside_store (p : string) (w w' : world) : Prop :=
  hub w' = hub w ∧ environ w' = environ w ∧ images w' = images w ∧
  today w' = today w ∧ ∀ q, q ≠ p → fs w' !! q = fs w !! q.

(** [w'] differs from [w] at most in the objects and the log. *)
Definition only_objects (w w' : world) : Prop :=
  fs w' = fs w ∧ clock w' = clock w ∧ hub w' = hub w ∧
  environ w' = environ w ∧ images w' = images w ∧ today w' = today w.

(** [w'] has the files, the environment, the images and the date of [w]. *)
Definition same_files (w w' : world) : Prop :=
  fs w' = fs w ∧ environ w' = environ w ∧ images w' = images w ∧
  today w' = today w.

(** A relation between the world before and the world after that holds
    across every change to the objects and to the log, and across steps
    taken one after the other. *)
Class Tolerant (R : world → world → Prop) : Prop := {
  tolerant_refl w : R w w;
  tolerant_trans w1 w2 w3 : R w1 w2 → R w2 w3 → R w1 w3;
  tolerant_heap f w : R w (set_heap f w);
  tolerant_log f w : R w (set_log f w)
}.

(** A relation that also holds across every change to the repositories. *)
Class Remote (R : world → world → Prop) : Prop :=
  remote_hub f w : R w (set_hub f w).

(** Whatever its outcome, [m] takes a world to one that [R] relates to
    it. *)
Definition within {A} (R : world → world → Prop) (m : M A) : Prop :=
  ∀ w, R w (m w).2.

(** [c in s] *)
Fixpoint contains (c : ascii) (s : string) : bool :=
  match s with
  | "" => false
  | String a s' => bool_decide (a = c) || contains c s'
  end.

(** Whatever its outcome, [m] takes no field away from the record at
    [l]. *)
Definition keeps_fields {A} (l : loc) (m : M A) : Prop :=
  ∀ w k, is_Some ((heap w !!! l) !! k) → is_Some ((heap (m w).2 !!! l) !! k).

(** Whatever its outcome, [m] leaves the record at [l] with values that can
    all be encoded, when it found it so. *)
Definition keeps_encodable {A} (l : loc) (m : M A) : Prop :=
  ∀ w, encodable_record (heap w !!! l) →
       encodable_record (heap (m w).2 !!! l).

(** The calls that write nothing but strings, or a value that can be
    encoded, on an image whose [Size] is a number: the probes other than the
    one of an image attribute that is not [Size], and the insertion of a
    snippet that can be encoded. *)
Definition encodes (m : mutation) : Prop :=
  match m with
  | Image lookup _ => lookup = "Size"
  | Snippet _ snip => serialisable snip = true
  | _ => True
  end.

(** The probes of [run_probes], as a list of calls. *)
Definition probes : list mutation :=
  [Image "Size" (Some "size");
   EnvFile "/etc/os-release" "PRETTY_NAME" (Some "os");
   Env "CUDA_VERSION" (Some "cuda");
   Pip "rmm" None;
   Pip "cudf" None;
   Env "CUDNN_VERSION" (Some "cudnn");
   Pip "nvtabular" None;
   Pip "transformers4rec" None;
   Pip "merlin.core" None;
   Pip "merlin.systems" None;
   Pip "merlin.models" None;
   Pip "hugectr2onnx" None;
   Pip "hugectr" None;
   Pip "sparse_operation_kit" None;
   Pip "tensorflow" (Some "tf");
   Pip "torch" (Some "pytorch");
   Env "CUBLAS_VERSION" (Some "cublas");
   Env "CUFFT_VERSION" (Some "cufft");
   Env "CURAND_VERSION" (Some "curand");
   Env "CUSOLVER_VERSION" (Some "cusolver");
   Env "CUSPARSE_VERSION" (Some "cusparse");
   Env "CUTENSOR_VERSION" (Some "cutensor");
   Env "NVIDIA_TENSORFLOW_VERSION" (Some "nvidia_tensorflow");
   Env "NVIDIA_PYTORCH_VERSION" (Some "nvidia_pytorch");
   Env "OPENMPI_VERSION" (Some "openmpi");
   Env "TRT_VERSION" (Some "tensorrt");
   Env "TRTOSS_VERSION" (Some "base_container");
   Cmd "if [ ! -f /usr/local/hugectr/lib/libhuge_ctr_shared.so ]; then exit 1; fi; cuobjdump /usr/local/hugectr/lib/libhuge_ctr_shared.so | grep arch | sed -e 's/.*sm_//'"
     "sm";
   Cmd "cat /opt/tritonserver/TRITON_VERSION" "triton";
   Cmd ("python -c " +:+ String dquote "import sys;print(sys.version_info[0]);"
        +:+ String dquote "")
     "python_major"].

(** The path of the store file that [main] uses. *)
Definition store_path (scriptdir : string) (a : arguments) : string :=
  fspath (from_option PlainStr (PosixPath (scriptdir +:+ "/data.json"))
            (given (arg_file a))).

(** ** Sample inputs *)

(** A container that answers every command with status [st] and output
    [out], on an image with attributes [a]. *)
Definition answering (st : Z) (out : option string) (a : gmap string value)
    : container_handle :=
  {| attrs := a; exec_run := λ _, {| exit_code := st; output := out |};
     stops := true |}.

(** A world with the objects [h] and the files [files], and nothing else. *)
Definition sample_world (h : list record) (files : gmap string file) : world :=
  {| heap := h; fs := files; clock := 0; log := []; environ := ∅;
     images := λ _, None; hub := ∅; today := "22.02";
     has_parent := λ _, true |}.

(** An extractor for [merlin-training] 22.02 whose working record is the
    object 0. *)
Definition sample_extractor (frc : bool) (c : option container_handle)
    : SupportMatrixExtractor :=
  {| container_name := "merlin-training"; release := "22.02"; contdata := 0;
     data := {[ "merlin-training" := {[ "22.02" := 0 ]} ]};
     datafile := "data.json"; force := frc; container := c |}.

(** A store with a record for two releases of [merlin-training] and one of
    [merlin-inference], and the file that holds it. *)
Definition sample_doc : store :=
  {[ "merlin-training" :=
       {[ "22.01" := {[ "cuda" := VStr "11.5" ]};
          "22.02" := {[ "cuda" := VStr "11.6" ]} ]};
     "merlin-inference" := {[ "22.02" := {[ "cuda" := VStr "11.6" ]} ]} ]}.

Definition sample_files : gmap string file :=
  {[ "data.json" := {| body := Json sample_doc; st_mtime := 0 |} ]}.

(** A repository whose [main] holds the sample store, and a world ready to
    publish [data.json] to it. *)
Definition sample_repository : repository :=
  {| refs := {[ "refs/heads/main" := 0 ]};
     commits := [ {[ "data.json" := Json sample_doc ]} ];
     pulls := []; refuses_pulls := false |}.

Definition publishing_world (files : gmap string file) : world :=
  {| heap := []; fs := files; clock := 1; log := [];
     environ := {[ "GH_TOKEN" := "token" ]}; images := λ _, None;
     hub := {[ "NVIDIA-Merlin/Merlin" := sample_repository ]};
     today := "22.02"; has_parent := λ _, true |}.

(** The output of [pip show] for a package at version 1.2.3. *)
Definition sample_pip_output : string :=
  "Name: rmm" +:+ String newline
    ("Version: 1.2.3" +:+ String newline "Summary: memory manager").

(** The arguments of a run for release 22.02 with nothing else given, and
    of one for the container [merlin-training] alone. *)
Definition sample_args : arguments :=
  {| arg_version := Some "22.02"; arg_file := None; arg_snippets := None;
     arg_container := None; arg_force := false |}.

Definition training_args : arguments :=
  {| arg_version := Some "22.02"; arg_file := None; arg_snippets := None;
     arg_container := Some "merlin-training"; arg_force := false |}.

Definition sample_snippets : gmap string value :=
  {[ "dgx_system" := VStr "DGX"; "nvidia_driver" := VStr "510";
     "gpu_model" := VStr "A100" ]}.

(** Snippets in which [dgx_system] was written as a date. *)
Definition dated_snippets : gmap string value :=
  {[ "dgx_system" := VDate "2022-02-01"; "nvidia_driver" := VStr "510";
     "gpu_model" := VStr "A100" ]}.

(** A store with one field for [merlin-training] 22.02, under the name that
    [main] gives the container. *)
Definition stored_doc : store :=
  {[ "nvcr.io/nvidia/merlin/merlin-training" :=
       {[ "22.02" := {[ "cuda" := VStr "11.6" ]} ]} ]}.

(** The directory of the script: the store file with the content [c] and
    the snippets file with [sn]. *)
Definition docs_files (c : content) (sn : gmap string value)
    : gmap string file :=
  {[ "/docs/data.json" := {| body := c; st_mtime := 0 |};
     "/docs/snippets.yaml" := {| body := Yaml sn; st_mtime := 0 |} ]}.

(** An image of 3 GiB whose container answers every command with status 0
    and the output [11.6]. *)
Definition sample_container : container_handle :=
  answering 0 (Some "11.6") {[ "Size" := VInt 3221225472 ]}.

(** A repository whose [main] has the tree [t]. *)
Definition repository_with (t : gmap string content) (refuses : bool)
    : repository :=
  {| refs := {[ "refs/heads/main" := 0 ]}; commits := [t]; pulls := [];
     refuses_pulls := refuses |}.

(** A world one tick after the files were written, with the image [img] for
    [merlin-training] 22.02 and no other, the environment [env] and the
    repository [r]. *)
Definition running_world (files : gmap string file)
    (img : option container_handle) (env : gmap string string)
    (r : repository) : world :=
  {| heap := []; fs := files; clock := 1; log := []; environ := env;
     images := λ i,
       if decide (i = "nvcr.io/nvidia/merlin/merlin-training:22.02")
       then img else None;
     hub := {[ "NVIDIA-Merlin/Merlin" := r ]}; today := "22.02";
     has_parent := λ _, true |}.

(** The world in which the store of the script directory is published to
    the repository [r]. *)
Definition publishing_docs (r : repository) : world :=
  running_world (docs_files (Json stored_doc) sample_snippets) None
    {[ "GH_TOKEN" := "token" ]} r.

(** * Properties *)

(** ** Running computations *)

Lemma run_bind {A B} (m : M A) (k : A → M B) w :
  (m ≫= k) w =
  match m w with
  | (Ok a, w') => k a w'
  | (Raise e, w') => (Raise e, w')
  end.
Proof. reflexivity. Qed.

Lemma run_bind_ok {A B} (m : M A) (k : A → M B) w a w' :
  m w = (Ok a, w') → (m ≫= k) w = k a w'.
Proof. intros H. by rewrite run_bind, H. Qed.

Lemma run_bind_raise {A B} (m : M A) (k : A → M B) w e w' :
  m w = (Raise e, w') → (m ≫= k) w = (Raise e, w').
Proof. intros H. by rewrite run_bind, H. Qed.

Lemma run_mret {A} (a : A) w : (mret a : M A) w = (Ok a, w).
Proof. reflexivity. Qed.

Ltac run_monad := repeat (progress (rewrite ?run_bind, ?run_mret; simpl)).

Lemma run_setitem l key v w :
  setitem l key v w = (Ok (), set_heap (alter (insert key v) l) w).
Proof. reflexivity. Qed.

(** ** Loading a document *)

Lemma set_heap_app l1 l2 w :
  set_heap (λ h, h ++ l2) (set_heap (λ h, h ++ l1) w)
  = set_heap (λ h, h ++ (l1 ++ l2)) w.
Proof. destruct w; unfold set_heap; simpl. by rewrite <-(assoc_L (++)). Qed.

Lemma set_heap_app_nil w : set_heap (λ h, h ++ []) w = w.
Proof. destruct w; unfold set_heap; simpl. by rewrite app_nil_r. Qed.

(** The records of one container are placed one after the other at the end
    of the object store, in the order of the list. *)
Lemma load_releases_spec kvs w :
  NoDup kvs.*1 →
  ∃ f, load_releases kvs w = (Ok f, set_heap (λ h, h ++ kvs.*2) w) ∧
       ∀ r l, f !! r = Some l ↔
              ∃ i rec, kvs !! i = Some (r, rec) ∧ l = length (heap w) + i.
Proof.
  revert w. induction kvs as [|[r0 rec0] kvs IH]; intros w Hnd.
  - exists ∅. split.
    + simpl. by rewrite set_heap_app_nil.
    + intros r l. rewrite lookup_empty. split; [done|].
      by intros (i & rec & Hi & _).
  - apply NoDup_cons in Hnd as [Hr0 Hnd].
    destruct (IH (set_heap (λ h, h ++ [rec0]) w) Hnd) as (f & Hrun & Hf).
    exists (<[r0 := length (heap w)]> f). split.
    + simpl. unfold mbind, M_bind, alloc at 1. simpl.
      rewrite Hrun. simpl. by rewrite set_heap_app.
    + intros r l. destruct (decide (r = r0)) as [->|Hne].
      * rewrite lookup_insert_eq. split.
        -- intros [= <-]. exists 0, rec0. split; [done|lia].
        -- intros ([|i] & rec & Hi & ->); [f_equal; lia|].
           simpl in Hi. exfalso. apply Hr0.
           apply list_elem_of_fmap. exists (r0, rec). split; [done|].
           by eapply list_elem_of_lookup_2.
      * rewrite lookup_insert_ne by done. rewrite Hf. simpl.
        rewrite length_app. simpl. split.
        -- intros (i & rec & Hi & ->). exists (S i), rec. split; [done|lia].
        -- intros ([|i] & rec & Hi & ->); simpl in Hi.
           ++ by simplify_eq.
           ++ exists i, rec. split; [done|lia].
Qed.

Section placed.
Context (m : gmap string record) (h : list record) (f : gmap string loc).
Hypothesis Hf : ∀ r l, f !! r = Some l ↔
  ∃ i rec, map_to_list m !! i = Some (r, rec) ∧ l = length h + i.

Lemma placed_range r l :
  f !! r = Some l → length h ≤ l < length h + length (map_to_list m).*2.
Proof.
  intros (i & rec & Hi & ->)%Hf. apply lookup_lt_Some in Hi.
  rewrite length_fmap. lia.
Qed.

Lemma placed_inj r1 r2 l : f !! r1 = Some l → f !! r2 = Some l → r1 = r2.
Proof.
  intros (i & rec1 & Hi & ->)%Hf (j & rec2 & Hj & Heq)%Hf.
  assert (i = j) as -> by lia. congruence.
Qed.

Lemma placed_view ext :
  (λ l : loc, (h ++ (map_to_list m).*2 ++ ext) !!! l) <$> f = m.
Proof.
  apply map_eq. intros r. rewrite lookup_fmap.
  destruct (f !! r) as [l|] eqn:Hl; simpl.
  - apply Hf in Hl as (i & rec & Hi & ->).
    assert (m !! r = Some rec) as ->.
    { apply elem_of_map_to_list. by eapply list_elem_of_lookup_2. }
    f_equal. apply list_lookup_total_correct.
    rewrite lookup_app_r by lia.
    replace (length h + i - length h) with i by lia.
    apply lookup_app_l_Some. by rewrite list_lookup_fmap, Hi.
  - destruct (m !! r) as [rec|] eqn:Hm; [|done].
    apply elem_of_map_to_list, list_elem_of_lookup_1 in Hm as [i Hi].
    assert (f !! r = Some (length h + i)) as Hl'.
    { apply Hf. eauto. }
    congruence.
Qed.
End placed.

Lemma load_containers_spec kvs w :
  NoDup kvs.*1 →
  ∃ d ext,
    load_containers kvs w = (Ok d, set_heap (λ h, h ++ ext) w) ∧
    (∀ c, d !! c = None ↔ c ∉ kvs.*1) ∧
    (∀ c f, d !! c = Some f →
       ∃ m, (c, m) ∈ kvs ∧ (λ l : loc, (heap w ++ ext) !!! l) <$> f = m) ∧
    (∀ c f r l, d !! c = Some f → f !! r = Some l →
       length (heap w) ≤ l < length (heap w) + length ext) ∧
    (∀ c1 f1 r1 c2 f2 r2 l,
       d !! c1 = Some f1 → f1 !! r1 = Some l →
       d !! c2 = Some f2 → f2 !! r2 = Some l → c1 = c2 ∧ r1 = r2).
Proof.
  revert w. induction kvs as [|[c0 m0] kvs IH]; intros w Hnd.
  - exists ∅, []. split_and!.
    + simpl. by rewrite set_heap_app_nil.
    + intros c. rewrite lookup_empty. split; [|done]. intros _. apply not_elem_of_nil.
    + intros c f. by rewrite lookup_empty.
    + intros c f r l. by rewrite lookup_empty.
    + intros c1 f1 r1 c2 f2 r2 l. by rewrite lookup_empty.
  - apply NoDup_cons in Hnd as [Hc0 Hnd].
    destruct (load_releases_spec (map_to_list m0) w) as (f0 & Hrun0 & Hf0).
    { apply NoDup_fst_map_to_list. }
    set (ext0 := (map_to_list m0).*2) in *.
    destruct (IH (set_heap (λ h, h ++ ext0) w) Hnd)
      as (d & ext & Hrun & Hdom & Hview & Hrange & Hinj).
    simpl in Hview, Hrange.
    exists (<[c0 := f0]> d), (ext0 ++ ext). split_and!.
    + simpl. unfold mbind, M_bind. rewrite Hrun0. simpl.
      rewrite Hrun. simpl. by rewrite set_heap_app.
    + intros c. simpl. rewrite not_elem_of_cons.
      destruct (decide (c = c0)) as [->|Hne].
      * rewrite lookup_insert_eq. split; [done|]. by intros [? _].
      * rewrite lookup_insert_ne by done. rewrite Hdom. tauto.
    + intros c f. destruct (decide (c = c0)) as [->|Hne].
      * rewrite lookup_insert_eq. intros [= <-]. exists m0. split; [left|].
        subst ext0. by apply placed_view.
      * rewrite lookup_insert_ne by done. intros Hc.
        destruct (Hview c f Hc) as (m & Hin & Hm).
        exists m. split; [by right|].
        by rewrite (assoc_L (++)).
    + intros c f r l. rewrite length_app.
      destruct (decide (c = c0)) as [->|Hne].
      * rewrite lookup_insert_eq. intros [= <-] Hl.
        pose proof (placed_range _ _ _ Hf0 _ _ Hl). subst ext0. lia.
      * rewrite lookup_insert_ne by done. intros Hc Hl.
        specialize (Hrange c f r l Hc Hl). rewrite length_app in Hrange. lia.
    + intros c1 f1 r1 c2 f2 r2 l.
      destruct (decide (c1 = c0)) as [->|Hne1];
        destruct (decide (c2 = c0)) as [->|Hne2];
        rewrite ?lookup_insert_eq, ?lookup_insert_ne by done.
      * intros [= <-] H1 [= <-] H2. split; [done|].
        by eapply placed_inj.
      * intros [= <-] H1 Hc2 H2. exfalso.
        pose proof (placed_range _ _ _ Hf0 _ _ H1).
        specialize (Hrange c2 f2 r2 l Hc2 H2). rewrite length_app in Hrange.
        subst ext0. lia.
      * intros Hc1 H1 [= <-] H2. exfalso.
        pose proof (placed_range _ _ _ Hf0 _ _ H2).
        specialize (Hrange c1 f1 r1 l Hc1 H1). rewrite length_app in Hrange.
        subst ext0. lia.
      * intros. by eapply Hinj.
Qed.

Lemma entry_Some {A} (d : gmap string (gmap string A)) c r a :
  entry d c r = Some a ↔ ∃ m, d !! c = Some m ∧ m !! r = Some a.
Proof.
  unfold entry. destruct (d !! c) as [m|]; simpl.
  - split; [eauto|]. by intros (? & [= <-] & ?).
  - split; [done|]. by intros (? & ? & _).
Qed.

Lemma entry_dump h d c r :
  entry (dump h d) c r = (λ l : loc, h !!! l) <$> entry d c r.
Proof.
  unfold entry, dump. rewrite lookup_fmap.
  destruct (d !! c) as [f|]; simpl; [|done]. by rewrite lookup_fmap.
Qed.

Lemma entry_insert_eq {A} (d : gmap string (gmap string A)) c r m a :
  entry (<[c := <[r := a]> m]> d) c r = Some a.
Proof. unfold entry. rewrite lookup_insert_eq. simpl. by rewrite lookup_insert_eq. Qed.

Lemma entry_insert_ne {A} (d : gmap string (gmap string A)) c r c' r' m a :
  d !! c = Some m → (c', r') ≠ (c, r) →
  entry (<[c := <[r := a]> m]> d) c' r' = entry d c' r'.
Proof.
  intros Hm Hne. unfold entry. destruct (decide (c' = c)) as [->|Hc].
  - rewrite lookup_insert_eq, Hm. simpl. rewrite lookup_insert_ne; [done|].
    congruence.
  - by rewrite lookup_insert_ne.
Qed.

Lemma json_load_spec doc w :
  ∃ d ext,
    json_load doc w = (Ok d, set_heap (λ h, h ++ ext) w) ∧
    dump (heap w ++ ext) d = doc ∧
    (∀ c, d !! c = None ↔ doc !! c = None) ∧
    (∀ c r l, entry d c r = Some l →
       length (heap w) ≤ l < length (heap w) + length ext) ∧
    (∀ c1 r1 c2 r2 l,
       entry d c1 r1 = Some l → entry d c2 r2 = Some l → c1 = c2 ∧ r1 = r2).
Proof.
  destruct (load_containers_spec (map_to_list doc) w)
    as (d & ext & Hrun & Hdom & Hview & Hrange & Hinj).
  { apply NoDup_fst_map_to_list. }
  assert (∀ c, d !! c = None ↔ doc !! c = None) as Hdom'.
  { intros c. rewrite Hdom. split.
    - intros Hnot. destruct (doc !! c) as [m|] eqn:Hm; [|done].
      exfalso. apply Hnot, list_elem_of_fmap. exists (c, m).
      split; [done|]. by apply elem_of_map_to_list.
    - intros Hnone ([c' m] & -> & Hin%elem_of_map_to_list)%list_elem_of_fmap.
      simpl in Hnone. congruence. }
  exists d, ext. split_and!; [done| |done| |].
  - apply map_eq. intros c. unfold dump. rewrite lookup_fmap.
    destruct (d !! c) as [f|] eqn:Hc; simpl.
    + destruct (Hview c f Hc) as (m & Hin & Hm).
      apply elem_of_map_to_list in Hin. by rewrite Hin, Hm.
    + symmetry. by apply Hdom'.
  - intros c r l (f & Hc & Hl)%entry_Some. by eapply Hrange.
  - intros c1 r1 c2 r2 l (f1 & Hc1 & Hl1)%entry_Some (f2 & Hc2 & Hl2)%entry_Some.
    by eapply Hinj.
Qed.

(** ** from_json *)

Lemma from_json_absent x w :
  fs w !! datafile x = None → from_json x w = (Ok x, w).
Proof.
  intros Hfile. unfold from_json. rewrite run_bind. unfold path_exists, gets.
  rewrite bool_decide_false; [done|]. rewrite Hfile. by intros [? ?].
Qed.

Lemma tree_shaped_app h ext d : tree_shaped h d → tree_shaped (h ++ ext) d.
Proof.
  intros [Hlt Hinj]. split; [|done]. intros c r l Hl.
  rewrite length_app. specialize (Hlt c r l Hl). lia.
Qed.

Lemma entry_dump_app h ext d c r :
  tree_shaped h d →
  entry (dump (h ++ ext) d) c r = entry (dump h d) c r.
Proof.
  intros [Hlt _]. rewrite !entry_dump.
  destruct (entry d c r) as [l|] eqn:Hl; simpl; [|done].
  f_equal. apply lookup_total_app_l. by eapply Hlt.
Qed.

Lemma entry_insert_empty {A} (d : gmap string (gmap string A)) c c' r' :
  d !! c = None → entry (<[c := ∅]> d) c' r' = entry d c' r'.
Proof.
  intros Hc. unfold entry. destruct (decide (c' = c)) as [->|Hne].
  - by rewrite lookup_insert_eq, Hc.
  - by rewrite lookup_insert_ne.
Qed.

(** [data[c][r] = {}]: the new record is a new object, so the mapping stays
    tree shaped and every other entry is as before. *)
Lemma tree_shaped_fresh h d c r m :
  tree_shaped h d → d !! c = Some m →
  tree_shaped (h ++ [∅]) (<[c := <[r := length h]> m]> d).
Proof.
  intros [Hlt Hinj] Hm. split.
  - intros c' r' l. rewrite length_app. simpl.
    destruct (decide ((c', r') = (c, r))) as [[= -> ->]|Hne].
    + rewrite entry_insert_eq. intros [= <-]. lia.
    + rewrite entry_insert_ne by done. intros Hl%Hlt. lia.
  - intros c1 r1 c2 r2 l.
    destruct (decide ((c1, r1) = (c, r))) as [[= -> ->]|Hne1];
      destruct (decide ((c2, r2) = (c, r))) as [[= -> ->]|Hne2];
      rewrite ?entry_insert_eq, ?entry_insert_ne by done.
    + done.
    + intros [= <-] Hl%Hlt. lia.
    + intros Hl%Hlt [= <-]. lia.
    + apply Hinj.
Qed.

Lemma from_json_present x w doc t :
  fs w !! datafile x = Some {| body := Json doc; st_mtime := t |} →
  ∃ x' ext,
    from_json x w = (Ok x', set_heap (λ h, h ++ ext) w) ∧
    container_name x' = container_name x ∧ release x' = release x ∧
    datafile x' = datafile x ∧ force x' = force x ∧
    container x' = container x ∧
    tree_shaped (heap w ++ ext) (data x') ∧
    linked (heap w ++ ext) x' ∧
    length (heap w) ≤ contdata x' ∧
    (∀ c r, (c, r) ≠ (container_name x, release x) →
       entry (dump (heap w ++ ext) (data x')) c r = entry doc c r) ∧
    (heap w ++ ext) !!! contdata x' =
      (if force x then ∅
       else default ∅ (entry doc (container_name x) (release x))).
Proof.
  intros Hfile.
  destruct (json_load_spec doc w) as (d & ext & Hrun & Hdump & Hdom & Hrange & Hinj).
  unfold from_json. rewrite run_bind. unfold path_exists, gets.
  rewrite bool_decide_true by (rewrite Hfile; eauto). simpl.
  rewrite run_bind. unfold read_file. rewrite Hfile. simpl.
  rewrite run_bind. simpl. rewrite run_bind, Hrun. simpl.
  assert (tree_shaped (heap w ++ ext) d) as Hts.
  { split; [|done]. intros c r l Hl%Hrange. rewrite length_app. lia. }
  assert (∀ c r, entry (dump (heap w ++ ext) d) c r = entry doc c r) as Hdoc.
  { intros c r. by rewrite Hdump. }
  destruct (decide (d !! container_name x = None)) as [Hn|Hn].
  - simpl. rewrite lookup_insert_eq. simpl.
    eexists _, (ext ++ [∅]). split.
    { unfold mbind, M_bind, mret, M_ret, alloc. simpl.
      rewrite lookup_empty, bool_decide_true by done. simpl.
      rewrite !lookup_insert_eq. simpl. rewrite lookup_insert_eq. simpl.
      rewrite set_heap_app. reflexivity. }
    simpl.
    assert (tree_shaped (heap w ++ ext) (<[container_name x := ∅]> d)) as Hts0.
    { destruct Hts as [Hlt Hinj']. split.
      - intros c r l. rewrite entry_insert_empty by done. apply Hlt.
      - intros c1 r1 c2 r2 l. rewrite !entry_insert_empty by done. apply Hinj'. }
    rewrite !(assoc_L (++)).
    pose proof (tree_shaped_fresh _ _ (container_name x) (release x) ∅ Hts0
                  (lookup_insert_eq _ _ _)) as Hts1.
    split_and!; try done.
    + split; simpl; [apply entry_insert_eq|]. rewrite !length_app. simpl. lia.
    + rewrite !length_app. lia.
    + intros c r Hne.
      rewrite entry_dump, entry_insert_ne by (done || apply lookup_insert_eq).
      rewrite entry_insert_empty by done.
      rewrite <-entry_dump, <-Hdoc. by apply entry_dump_app.
    + rewrite list_lookup_total_middle by done.
      destruct (force x); [done|].
      unfold entry. apply Hdom in Hn. by rewrite Hn.
  - simpl. destruct (d !! container_name x) as [m|] eqn:Hm; [|done].
    destruct (bool_decide (m !! release x = None) || force x) eqn:Hnew.
    + eexists _, (ext ++ [∅]). split.
      { unfold mbind, M_bind, mret, M_ret, alloc. simpl. rewrite Hnew. simpl.
        rewrite lookup_insert_eq. simpl.
        rewrite lookup_insert_eq. simpl. rewrite set_heap_app. reflexivity. }
      simpl. rewrite !(assoc_L (++)).
      pose proof (tree_shaped_fresh _ _ (container_name x) (release x) m Hts Hm)
        as Hts1.
      split_and!; try done.
      * split; simpl; [apply entry_insert_eq|]. rewrite !length_app. simpl. lia.
      * rewrite !length_app. lia.
      * intros c r Hne. rewrite entry_dump, entry_insert_ne by done.
        rewrite <-entry_dump, <-Hdoc. by apply entry_dump_app.
      * rewrite list_lookup_total_middle by done.
        destruct (force x); [done|]. rewrite orb_false_r in Hnew.
        apply bool_decide_eq_true in Hnew.
        rewrite <-Hdoc, entry_dump. unfold entry. by rewrite Hm; simpl; rewrite Hnew.
    + apply orb_false_iff in Hnew as [Hr Hforce].
      apply bool_decide_eq_false in Hr.
      destruct (m !! release x) as [l|] eqn:Hl; [|done].
      assert (entry d (container_name x) (release x) = Some l) as He.
      { unfold entry. by rewrite Hm. }
      exists (set_contdata (set_data x d) l), ext. split.
      { unfold mbind, M_bind, mret, M_ret. simpl.
        rewrite Hl, bool_decide_false, Hforce by done. simpl.
        rewrite Hm. simpl. by rewrite Hl. }
      simpl. split_and!; try done.
      * split; simpl; [done|]. destruct Hts as [Hlt _]. by eapply Hlt.
      * apply Hrange in He. lia.
      * rewrite Hforce, <-Hdoc, entry_dump, He. done.
Qed.

(** ** What a probe can change *)

Lemma touches_only_refl l w : touches_only l w w.
Proof. by repeat split. Qed.

Lemma touches_only_trans l w1 w2 w3 :
  touches_only l w1 w2 → touches_only l w2 w3 → touches_only l w1 w3.
Proof.
  intros (H1 & H2 & H3 & H4 & H5 & H6) (K1 & K2 & K3 & K4 & K5 & K6).
  repeat split; try congruence.
  intros l' Hne. by rewrite K2, H2.
Qed.

Lemma frames_mret {A} l (a : A) : frames l (mret a : M A).
Proof. intros w. apply touches_only_refl. Qed.

Lemma frames_raise {A} l e : frames l (raise e : M A).
Proof. intros w. apply touches_only_refl. Qed.

Lemma frames_from_opt {A} l e (o : option A) : frames l (from_opt e o).
Proof. destruct o; [apply frames_mret|apply frames_raise]. Qed.

Lemma frames_info l msg : frames l (info msg).
Proof. intros w. by repeat split. Qed.

Lemma frames_setitem l key v : frames l (setitem l key v).
Proof.
  intros w. repeat split; simpl.
  - apply length_alter.
  - intros l' Hne. by apply list_lookup_alter_ne.
Qed.

Lemma frames_bind {A B} l (m : M A) (k : A → M B) :
  frames l m → (∀ a, frames l (k a)) → frames l (m ≫= k).
Proof.
  intros Hm Hk w. rewrite run_bind. specialize (Hm w).
  destruct (m w) as [[a|e] w']; simpl in *; [|done].
  eapply touches_only_trans; [done|]. apply Hk.
Qed.

Lemma frames_try_except {A} l (m : M A) handler :
  frames l m → (∀ e h, handler e = Some h → frames l h) →
  frames l (try_except m handler).
Proof.
  intros Hm Hh w. unfold try_except. specialize (Hm w).
  destruct (m w) as [[a|e] w']; simpl in *; [done|].
  destruct (handler e) as [h|] eqn:He; [|done].
  eapply touches_only_trans; [done|]. by eapply Hh.
Qed.

Ltac frames_step :=
  first
    [ apply frames_mret | apply frames_raise | apply frames_from_opt
    | apply frames_info | apply frames_setitem
    | apply frames_bind; [|intros ?]
    | apply frames_try_except; [|intros ? ? ?] ].

Lemma frames_apply_mutation x m : frames (contdata x) (apply_mutation x m).
Proof.
  destruct m; simpl;
    unfold get_from_envfile, get_from_env, get_from_pip, get_from_image,
      get_from_cmd, insert_snippet, the_container, decode, as_number;
    repeat (first [ frames_step | case_match; simplify_eq ]).
Qed.

Lemma frames_apply_mutations x ms : frames (contdata x) (apply_mutations x ms).
Proof.
  induction ms as [|m ms IH]; simpl; [apply frames_mret|].
  apply frames_bind; [apply frames_apply_mutation|done].
Qed.

(** ** The merge property *)

Lemma dump_untouched h h' d l c r :
  tree_shaped h d → (∀ l', l' ≠ l → h' !! l' = h !! l') →
  ∀ c0 r0, entry d c0 r0 = Some l → (c, r) ≠ (c0, r0) →
  entry (dump h' d) c r = entry (dump h d) c r.
Proof.
  intros [_ Hinj] Hsame c0 r0 Hl Hne. rewrite !entry_dump.
  destruct (entry d c r) as [l'|] eqn:Hl'; simpl; [|done].
  f_equal. rewrite !list_lookup_total_alt, Hsame; [done|].
  intros ->. destruct (Hinj _ _ _ _ _ Hl' Hl). congruence.
Qed.

Lemma run_to_json x w :
  to_json x w =
  (if decide (encodable (dump (heap w) (data x)))
   then Ok (dump (heap w) (data x)) else Raise TypeError, w).
Proof.
  unfold to_json, snapshot. rewrite run_bind. unfold gets.
  by destruct (decide _).
Qed.

Lemma run_to_json_file x w :
  can_create w (datafile x) = true →
  to_json_file x w =
  (if decide (encodable (dump (heap w) (data x)))
   then Ok () else Raise TypeError,
   set_clock (λ t, t + 1)%Z
     (set_fs (insert (datafile x)
                {| body := if decide (encodable (dump (heap w) (data x)))
                           then Json (dump (heap w) (data x))
                           else Partial (dump (heap w) (data x));
                   st_mtime := clock w |}) w)).
Proof.
  intros Hopen. unfold to_json_file, open_for_writing, snapshot.
  rewrite run_bind, Hopen. rewrite run_bind. unfold gets.
  by destruct (decide _).
Qed.

Lemma run_to_json_file_closed x w :
  can_create w (datafile x) = false →
  to_json_file x w = (Raise (FileNotFoundError (datafile x)), w).
Proof.
  intros Hopen. unfold to_json_file, open_for_writing.
  by rewrite run_bind, Hopen.
Qed.

Lemma can_create_present w p f : fs w !! p = Some f → can_create w p = true.
Proof.
  intros Hf. unfold can_create. rewrite bool_decide_true; [done|].
  by rewrite Hf.
Qed.

Lemma from_json_not_json x w f :
  fs w !! datafile x = Some f → (∀ doc, body f ≠ Json doc) →
  from_json x w = (Raise JSONDecodeError, w).
Proof.
  intros Hfile Hbody. unfold from_json. rewrite run_bind.
  unfold path_exists, gets.
  rewrite bool_decide_true by (rewrite Hfile; eauto). simpl.
  rewrite run_bind. unfold read_file. rewrite Hfile. simpl.
  rewrite run_bind. destruct (body f) eqn:Hb; simpl; try done.
  by destruct (Hbody doc).
Qed.

Lemma encodable_entry doc c r rec k v :
  encodable doc → entry doc c r = Some rec → rec !! k = Some v →
  serialisable v = true.
Proof.
  intros Hdoc Hrec Hv. unfold entry in Hrec.
  destruct (doc !! c) as [m|] eqn:Hm; [|done]. simpl in Hrec.
  exact (Hdoc c m Hm r rec Hrec k v Hv).
Qed.

Lemma encodable_intro doc :
  (∀ c r rec k v,
     entry doc c r = Some rec → rec !! k = Some v → serialisable v = true) →
  encodable doc.
Proof.
  intros H c m Hm r rec Hrec k v Hv. apply (H c r rec k v); [|done].
  unfold entry. by rewrite Hm.
Qed.

(** Load the store from a file that holds the document [doc], and write to
    the working record through any sequence of probes and snippet insertions
    (whether or not one of them raises).  The document that a save then has
    to write has every entry of [doc] other than the one of the extractor's
    own container and release, with the record it had.  The save writes it in
    full when all its values can be encoded, and otherwise leaves the
    beginning of its text and raises [TypeError]. *)
Lemma merge_keeps_other_entries x w doc t hc ms :
  fs w !! datafile x = Some {| body := Json doc; st_mtime := t |} →
  ∃ x1 w1,
    from_json x w = (Ok x1, w1) ∧
    let x2 := from_option (use_container x1) x1 hc in
    let w2 := (apply_mutations x2 ms w1).2 in
    ∃ w3 doc',
      to_json_file x2 w2 =
        (if decide (encodable doc') then Ok () else Raise TypeError, w3) ∧
      body <$> fs w3 !! datafile x =
        Some (if decide (encodable doc') then Json doc' else Partial doc') ∧
      ∀ c r rec,
        (c, r) ≠ (container_name x, release x) →
        entry doc c r = Some rec → entry doc' c r = Some rec.
Proof.
  intros Hfile.
  destruct (from_json_present x w doc t Hfile)
    as (x1 & ext & Hrun & Hc & Hr & Hdf & _ & _ & Hts & [Hlink Hlt] & _ & Hother & _).
  exists x1, (set_heap (λ h, h ++ ext) w). split; [done|].
  intros x2 w2.
  assert (contdata x2 = contdata x1 ∧ data x2 = data x1
          ∧ datafile x2 = datafile x) as (Hcd & Hd & Hdf2).
  { subst x2. by destruct hc. }
  pose proof (frames_apply_mutations x2 ms (set_heap (λ h, h ++ ext) w))
    as (Hlen & Hsame & Hfs & _).
  fold w2 in Hlen, Hsame, Hfs. simpl in Hlen, Hsame, Hfs.
  eexists _, _. split; [apply run_to_json_file|]. 
  { apply (can_create_present _ _ {| body := Json doc; st_mtime := t |}).
    by rewrite Hdf2, Hfs. }
  split.
  { simpl. rewrite Hdf2, lookup_insert_eq. done. }
  intros c r rec Hne Hrec. rewrite Hd.
  rewrite (dump_untouched (heap w ++ ext) (heap w2) (data x1) (contdata x1) c r
             Hts) with (c0 := container_name x) (r0 := release x).
  - by rewrite Hother.
  - by rewrite <-Hcd.
  - by rewrite <-Hc, <-Hr.
  - done.
Qed.

(** Load the store from a file that holds the document [doc] and write a
    date to the working record with [insert_snippet]: the save raises
    [TypeError] after it has emptied the file, which is left with the
    beginning of a JSON text. *)
Lemma save_with_date_fails x w doc t key d :
  fs w !! datafile x = Some {| body := Json doc; st_mtime := t |} →
  ∃ x1 w1 w2 f,
    from_json x w = (Ok x1, w1) ∧
    (insert_snippet x1 key (VDate d);; to_json_file x1) w1
      = (Raise TypeError, w2) ∧
    fs w2 !! datafile x = Some f ∧
    (∀ doc', body f ≠ Json doc') ∧
    from_json x w2 = (Raise JSONDecodeError, w2).
Proof.
  intros Hfile.
  destruct (from_json_present x w doc t Hfile)
    as (x1 & ext & Hrun & Hc & Hr & Hdf & _ & _ & Hts & [Hlink Hlt] & _).
  set (w1 := set_heap (λ h, h ++ ext) w) in *.
  set (w1' := set_heap (alter (insert key (VDate d)) (contdata x1)) w1).
  assert (¬ encodable (dump (heap w1') (data x1))) as Hno.
  { intros Hdoc.
    assert (serialisable (VDate d) = true) as Hd; [|done].
    apply (encodable_entry _ (container_name x1) (release x1)
             (heap w1' !!! contdata x1) key _ Hdoc).
    - by rewrite entry_dump, Hlink.
    - apply lookup_lt_is_Some in Hlt as [rec Hrec].
      erewrite list_lookup_total_correct.
      2:{ simpl. rewrite list_lookup_alter_eq, Hrec. reflexivity. }
      apply lookup_insert_eq. }
  assert (can_create w1' (datafile x1) = true) as Hopen.
  { apply (can_create_present _ _ {| body := Json doc; st_mtime := t |}).
    by rewrite Hdf. }
  pose proof (run_to_json_file x1 w1' Hopen) as Hsave.
  destruct (decide (encodable (dump (heap w1') (data x1)))) as [|_]; [done|].
  eexists x1, w1, _, _. split; [done|]. split.
  { unfold insert_snippet, setitem. rewrite run_bind. exact Hsave. }
  assert (fs (set_clock (λ t, t + 1)%Z
            (set_fs (insert (datafile x1)
               {| body := Partial (dump (heap w1') (data x1));
                  st_mtime := clock w1' |}) w1')) !! datafile x
          = Some {| body := Partial (dump (heap w1') (data x1));
                    st_mtime := clock w1' |}) as Hf.
  { simpl. rewrite Hdf. apply lookup_insert_eq. }
  split; [exact Hf|]. split; [done|].
  by apply (from_json_not_json x _ _ Hf).
Qed.

(** ** The working record is the stored record *)

Lemma linked_from_json x w x' w' :
  linked (heap w) x → from_json x w = (Ok x', w') → linked (heap w') x'.
Proof.
  intros Hlink Hrun. destruct (fs w !! datafile x) as [[b t]|] eqn:Hfile.
  - destruct b as [doc| | |].
    + destruct (from_json_present x w doc t Hfile)
        as (x1 & ext & Hrun' & _ & _ & _ & _ & _ & _ & Hl & _).
      rewrite Hrun' in Hrun. by simplify_eq.
    + rewrite (from_json_not_json x w _ Hfile) in Hrun; done.
    + rewrite (from_json_not_json x w _ Hfile) in Hrun; done.
    + rewrite (from_json_not_json x w _ Hfile) in Hrun; done.
  - rewrite from_json_absent in Hrun by done. by simplify_eq.
Qed.

Lemma linked_touches_only x w w' :
  linked (heap w) x → touches_only (contdata x) w w' → linked (heap w') x.
Proof. intros [Hl Hlt] (Hlen & _). split; [done|]. by rewrite Hlen. Qed.

Lemma linked_entry_dump x w :
  linked (heap w) x →
  entry (dump (heap w) (data x)) (container_name x) (release x)
  = Some (heap w !!! contdata x).
Proof. intros [Hl _]. by rewrite entry_dump, Hl. Qed.

(** C10.  [__init__] makes [contdata] the record stored under
    [data[container_name][release]]; [from_json] keeps it so; the probes and
    [insert_snippet] keep it so.  Hence, with no copy back, the document that
    [to_json] gives and that [to_json_file] writes has the working record, as
    it now is, under that container and release, and a value written by
    [insert_snippet] is found there.  Both return that document whenever all
    its values can be encoded; otherwise they raise [TypeError]. *)
Theorem contdata_is_stored_record :
  (∀ name rel file frc w,
     ∃ x w', __init__ name rel file frc w = (Ok x, w') ∧ linked (heap w') x) ∧
  (∀ x w x' w',
     linked (heap w) x → from_json x w = (Ok x', w') → linked (heap w') x') ∧
  (∀ x w ms,
     linked (heap w) x →
     let w' := (apply_mutations x ms w).2 in
     let doc := dump (heap w') (data x) in
     linked (heap w') x ∧
     entry doc (container_name x) (release x)
       = Some (heap w' !!! contdata x) ∧
     to_json x w'
       = (if decide (encodable doc) then Ok doc else Raise TypeError, w') ∧
     (can_create w' (datafile x) = true →
      ∃ w'',
        to_json_file x w'
          = (if decide (encodable doc) then Ok () else Raise TypeError, w'') ∧
        body <$> fs w'' !! datafile x
          = Some (if decide (encodable doc) then Json doc else Partial doc))) ∧
  (∀ x w key v,
     linked (heap w) x →
     ∃ w' rec,
       insert_snippet x key v w = (Ok (), w') ∧
       let doc := dump (heap w') (data x) in
       entry doc (container_name x) (release x) = Some rec ∧
       rec !! key = Some v ∧
       to_json x w'
         = (if decide (encodable doc) then Ok doc else Raise TypeError, w')).
Proof.
  split_and!.
  - intros name rel file frc w. eexists _, _. split; [reflexivity|].
    split; simpl.
    + unfold entry. rewrite lookup_singleton_eq. simpl.
      by rewrite lookup_singleton_eq.
    + rewrite length_app. simpl. lia.
  - apply linked_from_json.
  - intros x w ms Hlink w'.
    assert (linked (heap w') x) as Hlink'.
    { eapply linked_touches_only; [done|]. apply frames_apply_mutations. }
    split; [done|]. split; [by apply linked_entry_dump|].
    split; [apply run_to_json|].
    intros Hopen. eexists. split; [by apply run_to_json_file|].
    simpl. by rewrite lookup_insert_eq.
  - intros x w key v [Hl Hlt]. eexists _, _. split; [reflexivity|].
    split_and!.
    + simpl. rewrite entry_dump, Hl. reflexivity.
    + simpl. apply lookup_lt_is_Some in Hlt as [rec Hrec].
      erewrite list_lookup_total_correct.
      2:{ rewrite list_lookup_alter_eq, Hrec. reflexivity. }
      apply lookup_insert_eq.
    + apply run_to_json.
Qed.

(** ** already_present *)

(** C4.  [already_present] never raises and changes nothing.  It is true
    exactly when the store file exists and the store in memory, as [to_json]
    prints it, has the container, under it the release, and there a record
    that is not empty.  This holds in every state; after a load with [force]
    set the record of the release is the new empty one, so the answer is
    false. *)
Theorem already_present_iff :
  (∀ x w,
     ∃ b, already_present x w = (Ok b, w) ∧
          (b = true ↔
           is_Some (fs w !! datafile x) ∧
           ∃ m rec,
             dump (heap w) (data x) !! container_name x = Some m ∧
             m !! release x = Some rec ∧ rec ≠ ∅)) ∧
  (∀ x w doc t,
     force x = true →
     fs w !! datafile x = Some {| body := Json doc; st_mtime := t |} →
     ∃ x' w', from_json x w = (Ok x', w') ∧
              already_present x' w' = (Ok false, w')).
Proof.
  assert (∀ x w,
     ∃ b, already_present x w = (Ok b, w) ∧
          (b = true ↔
           is_Some (fs w !! datafile x) ∧
           ∃ m rec,
             dump (heap w) (data x) !! container_name x = Some m ∧
             m !! release x = Some rec ∧ rec ≠ ∅)) as Hiff.
  { intros x w. unfold already_present. rewrite run_bind.
    unfold path_exists, gets. case_bool_decide as Hfile; simpl.
    2:{ exists false. split; [done|]. split; [done|]. by intros [? _]. }
    unfold dump. rewrite lookup_fmap.
    destruct (data x !! container_name x) as [f|] eqn:Hc; simpl.
    2:{ exists false. split; [done|]. split; [done|].
        by intros (_ & m & rec & ? & _). }
    rewrite run_bind. simpl.
    destruct (f !! release x) as [l|] eqn:Hr; simpl.
    2:{ exists false. split; [done|]. split; [done|].
        intros (_ & m & rec & [= <-] & Hm & _).
        by rewrite lookup_fmap, Hr in Hm. }
    unfold mbind, M_bind, mret, M_ret. simpl. rewrite Hr. simpl.
    destruct (size (heap w !!! l) <? 1) eqn:Hsz.
    - exists false. split; [done|]. split; [done|].
      intros (_ & m & rec & [= <-] & Hm & Hne).
      rewrite lookup_fmap, Hr in Hm. simpl in Hm. simplify_eq.
      apply Nat.ltb_lt in Hsz. exfalso. apply Hne, map_size_empty_iff. lia.
    - exists true. split; [done|]. split; [|done]. intros _.
      split; [done|]. eexists _, _. split; [done|].
      rewrite lookup_fmap, Hr. split; [done|].
      apply Nat.ltb_ge in Hsz. intros Hempty. rewrite Hempty in Hsz.
      rewrite map_size_empty in Hsz. lia. }
  split; [done|].
  intros x w doc t Hforce Hfile.
  destruct (from_json_present x w doc t Hfile)
    as (x' & ext & Hrun & _ & _ & Hdf & _ & _ & _ & Hlink & _ & _ & Hrec).
  exists x', (set_heap (λ h, h ++ ext) w). split; [done|].
  destruct (Hiff x' (set_heap (λ h, h ++ ext) w)) as (b & Hb & Hb').
  rewrite Hb. destruct b; [|done]. exfalso.
  destruct Hb' as [Hb' _]. destruct (Hb' eq_refl) as (_ & m & rec & Hm & Hr & Hne).
  apply Hne.
  pose proof (linked_entry_dump x' (set_heap (λ h, h ++ ext) w) Hlink) as He.
  simpl in He, Hm. unfold entry in He. rewrite Hm in He. simpl in He.
  rewrite Hr in He. simplify_eq. simpl in Hrec. by rewrite Hforce in Hrec.
Qed.

(** ** Strings *)

Lemma app_String c s t : String c s +:+ t = String c (s +:+ t).
Proof. reflexivity. Qed.

Lemma app_empty_r s : s +:+ "" = s.
Proof. induction s as [|c s IH]; [done|]. by rewrite app_String, IH. Qed.

Lemma app_assoc_str s t u : (s +:+ t) +:+ u = s +:+ (t +:+ u).
Proof. induction s as [|c s IH]; [done|]. by rewrite !app_String, IH. Qed.

Lemma length_app_str s t :
  String.length (s +:+ t) = String.length s + String.length t.
Proof. induction s as [|c s IH]; [done|]. rewrite app_String. simpl. by rewrite IH. Qed.

Lemma split_nil_all_space s : Str.split s = [] → Str.all_space s = true.
Proof.
  induction s as [|c s IH]; [done|]. simpl.
  destruct (Str.is_space c); simpl; [done|].
  destruct (Str.starts_word s); [by destruct (Str.split s)|done].
Qed.

(** A string that begins a word splits into that word and the split of the
    rest. *)
Lemma split_word s :
  Str.starts_word s = true →
  ∃ w rest, s = w +:+ rest ∧ w ≠ "" ∧ no_space w = true ∧
            Str.starts_word rest = false ∧
            Str.split s = w :: Str.split rest.
Proof.
  induction s as [|c s IH]; [done|]. simpl. intros Hc.
  apply negb_true_iff in Hc. rewrite Hc.
  destruct (Str.starts_word s) eqn:Hs.
  - destruct (IH eq_refl) as (w & rest & -> & Hw & Hns & Hrest & Hsplit).
    exists (String c w), rest. rewrite Hsplit. split_and!; try done.
    simpl. by rewrite Hc.
  - exists (String c ""), s. split_and!; try done. simpl. by rewrite Hc.
Qed.

Lemma ends_with_space_cons c s :
  Str.is_space c = true → ends_with_space s → ends_with_space (String c s).
Proof.
  intros Hc [->|(p & c' & -> & Hc')]; right.
  - by exists "", c.
  - by exists (String c p), c'.
Qed.

Lemma ends_with_space_app w s :
  s ≠ "" → ends_with_space s → ends_with_space (w +:+ s).
Proof.
  intros Hne [->|(p & c & -> & Hc)]; [done|]. right.
  exists (w +:+ p), c. by rewrite app_assoc_str.
Qed.

Lemma last_cons_ne {A} (a : A) l : l ≠ [] → last (a :: l) = last l.
Proof. by destruct l. Qed.

Lemma last_split_is_last_token line t :
  last (Str.split line) = Some t → is_last_token line t.
Proof.
  remember (String.length line) as n eqn:Hn. revert line Hn t.
  induction n as [n IH] using lt_wf_ind. intros line -> t Hlast.
  destruct line as [|c s]; [done|].
  destruct (Str.is_space c) eqn:Hc.
  - simpl in Hlast. rewrite Hc in Hlast.
    destruct (IH (String.length s) ltac:(simpl; lia) s eq_refl t Hlast)
      as (pre & post & -> & ? & ? & ? & ?).
    exists (String c pre), post. split_and!; try done.
    by apply ends_with_space_cons.
  - destruct (split_word (String c s)) as (w & rest & Heq & Hw & Hns & Hrest & Hsplit).
    { simpl. by rewrite Hc. }
    rewrite Hsplit in Hlast.
    destruct (Str.split rest) as [|w' ws] eqn:Hsr.
    + simpl in Hlast. simplify_eq. exists "", rest. rewrite Heq.
      split_and!; try done; [by apply split_nil_all_space|by left].
    + rewrite last_cons_ne in Hlast by done. rewrite <-Hsr in Hlast.
      assert (String.length rest < String.length (String c s)) as Hlt.
      { rewrite Heq, length_app_str. destruct w; [done|]. simpl. lia. }
      destruct (IH _ Hlt rest eq_refl t Hlast)
        as (pre & post & -> & Ht & Hnt & Hpost & Hpre).
      exists (w +:+ pre), post. rewrite Heq, app_assoc_str.
      split_and!; try done. apply ends_with_space_app; [|done].
      intros ->. destruct t as [|c' t]; [done|]. simpl in Hrest, Hnt.
      apply andb_true_iff in Hnt as [Hc' _]. by rewrite Hc' in Hrest.
Qed.

Lemma lstrip_no_space t : no_space t = true → Str.lstrip t = t.
Proof.
  destruct t as [|c t]; [done|]. simpl. intros [Hc _]%andb_true_iff.
  apply negb_true_iff in Hc. by rewrite Hc.
Qed.

Lemma rstrip_no_space t : no_space t = true → Str.rstrip t = t.
Proof.
  induction t as [|c t IH]; [done|]. simpl. intros [Hc Ht]%andb_true_iff.
  apply negb_true_iff in Hc. rewrite (IH Ht), Hc. by destruct t.
Qed.

Lemma strip_no_space t : no_space t = true → Str.strip t = t.
Proof.
  intros Ht. unfold Str.strip. by rewrite lstrip_no_space, rstrip_no_space.
Qed.

Lemma startswith_version_starts_word line :
  Str.startswith "Version:" line = true → Str.starts_word line = true.
Proof.
  destruct line as [|c s]; [done|]. unfold Str.startswith. simpl.
  case_match; [|done]. by subst.
Qed.

Lemma last_split_is_Some line :
  Str.starts_word line = true → is_Some (last (Str.split line)).
Proof.
  intros (w & rest & _ & _ & _ & _ & ->)%split_word.
  destruct (Str.split rest) as [|w' ws] eqn:Hr; [by eexists|].
  rewrite last_cons_ne by done. induction ws as [|w'' ws IH] in w' |- *.
  - by eexists.
  - rewrite last_cons_ne by done. apply IH.
Qed.

Lemma versions_of_spec text :
  ∃ vs, versions_of text = Some vs ∧
        Forall2 (λ line v, last (Str.split line) = Some v)
                (version_lines text) vs.
Proof.
  unfold versions_of. fold (version_lines text).
  assert (is_Some (mapM (λ line, last (Str.split line)) (version_lines text)))
    as [vs Hvs].
  { apply mapM_is_Some, Forall_forall. intros line Hin.
    apply list_elem_of_filter in Hin as [Hv _].
    by apply last_split_is_Some, startswith_version_starts_word. }
  exists vs. split; [done|]. by apply mapM_Some.
Qed.

(** ** The pip probe *)

(** C7.  When [pip show] ends with status 0 and its output decodes to
    [text], the probe returns normally and then: if exactly one line of
    [text] begins with ["Version:"], the field holds the last
    white-space-separated token of that line; with no such line or more than
    one, the field holds the sentinel. *)
Theorem pip_version_parsing x c lookup key text w :
  container x = Some c →
  contdata x < length (heap w) →
  exec_run c ("python -m pip show '" +:+ lookup +:+ "'")
    = {| exit_code := 0; output := Some text |} →
  ∃ w' v,
    get_from_pip x lookup key w = (Ok (), w') ∧
    (heap w' !!! contdata x) !! default lookup key = Some v ∧
    match version_lines text with
    | [line] => ∃ t, is_last_token line t ∧ v = VStr t
    | _ => v = ERROR
    end.
Proof.
  intros Hc Hlt Hexec.
  destruct (versions_of_spec text) as (vs & Hvs & Hall).
  unfold get_from_pip. rewrite run_bind, run_setitem.
  rewrite run_bind. unfold the_container. rewrite Hc. simpl.
  rewrite Hexec. simpl. unfold decode. simpl.
  rewrite !run_bind. simpl. rewrite Hvs. simpl.
  destruct Hall as [|line v ls vs' Hv Hrest].
  - eexists _, _. split; [reflexivity|]. split; [|done]. simpl.
    rewrite list_lookup_total_alter_eq by done. apply lookup_insert_eq.
  - destruct Hrest as [|line' v' ls' vs'' Hv' Hrest'].
    + eexists _, _. split; [reflexivity|]. split.
      * simpl. rewrite list_lookup_total_alter_eq by (by rewrite length_alter).
        apply lookup_insert_eq.
      * apply last_split_is_last_token in Hv.
        exists v. split; [done|].
        destruct Hv as (_ & _ & _ & _ & Hns & _). by rewrite strip_no_space.
    + eexists _, _. split; [reflexivity|]. split; [|done]. simpl.
      rewrite list_lookup_total_alter_eq by done. apply lookup_insert_eq.
Qed.

(** ** The probes that run a command *)

Lemma run_get_from_envfile x c path lookup key st text w :
  container x = Some c →
  exec_run c (envfile_cmd path lookup)
    = {| exit_code := st; output := Some text |} →
  get_from_envfile x path lookup key w =
  (Ok (),
   let w1 := set_heap (alter (insert (default lookup key) ERROR) (contdata x)) w in
   if negb (st =? 1)%Z && negb (Str.isspace text) then
     set_heap (alter (insert (default lookup key)
                        (VStr (Str.strip (Str.remove dquote text))))
                     (contdata x)) w1
   else
     set_log (λ l, l ++ [Info ("Failed to get env var '" +:+ lookup
                               +:+ "' from file '" +:+ path +:+ "'")]) w1).
Proof.
  intros Hc Hexec. unfold get_from_envfile, envfile_cmd in *.
  rewrite run_bind, run_setitem. rewrite run_bind. unfold the_container.
  rewrite Hc. simpl. rewrite Hexec. simpl. rewrite run_bind. simpl.
  by destruct (negb (st =? 1)%Z && negb (Str.isspace text)).
Qed.

Lemma run_get_from_env x c lookup key st text w :
  container x = Some c →
  exec_run c (env_cmd lookup) = {| exit_code := st; output := Some text |} →
  get_from_env x lookup key w =
  (Ok (),
   let w1 := set_heap (alter (insert (default lookup key) ERROR) (contdata x)) w in
   if negb (st =? 1)%Z && negb (Str.isspace text) then
     set_heap (alter (insert (default lookup key)
                        (VStr (Str.strip (Str.remove dquote text))))
                     (contdata x)) w1
   else
     set_log (λ l, l ++ [Info ("Failed to get env var: '" +:+ lookup +:+ "'")])
       w1).
Proof.
  intros Hc Hexec. unfold get_from_env, env_cmd in *.
  rewrite run_bind, run_setitem. rewrite run_bind. unfold the_container.
  rewrite Hc. simpl. rewrite Hexec. simpl. rewrite run_bind. simpl.
  by destruct (negb (st =? 1)%Z && negb (Str.isspace text)).
Qed.

Lemma run_get_from_cmd x c cmd key st text w :
  container x = Some c →
  exec_run c (shell_cmd cmd) = {| exit_code := st; output := Some text |} →
  get_from_cmd x cmd key w =
  (Ok (),
   let w1 := set_heap (alter (insert key ERROR) (contdata x)) w in
   if negb (st =? 1)%Z then
     let w2 := set_heap (alter (insert key (VStr (Str.strip text)))
                               (contdata x)) w1 in
     if decide (key = "sm") then
       set_heap (alter (insert key (VStr (Str.join ", " (Str.split text))))
                       (contdata x)) w2
     else w2
   else
     set_log (λ l, l ++ [Info ("Command '" +:+ cmd +:+ "' failed: " +:+ text)])
       w1).
Proof.
  intros Hc Hexec. unfold get_from_cmd, shell_cmd in *.
  rewrite run_bind, run_setitem. rewrite run_bind. unfold the_container.
  rewrite Hc. simpl. rewrite Hexec. simpl.
  destruct (negb (st =? 1)%Z); [|by rewrite run_bind].
  rewrite run_bind. simpl. rewrite run_bind, run_setitem.
  destruct (decide (key = "sm")); [|done]. by rewrite run_bind.
Qed.

Lemma run_get_from_pip_failed x c lookup key r w :
  container x = Some c →
  exec_run c (pip_cmd lookup) = r → exit_code r ≠ 0%Z →
  get_from_pip x lookup key w =
  (Ok (),
   set_log (λ l, l ++ [Info ("Failed to get package version from pip: "
                             +:+ lookup)])
     (set_heap (alter (insert (default lookup key) ERROR) (contdata x)) w)).
Proof.
  intros Hc Hexec Hst. unfold get_from_pip, pip_cmd in *.
  rewrite run_bind, run_setitem. rewrite run_bind. unfold the_container.
  rewrite Hc. simpl. rewrite Hexec.
  by apply Z.eqb_neq in Hst as ->.
Qed.

(** ** Each probe writes one field *)

Lemma keeps_other_keys_refl l key w : keeps_other_keys l key w w.
Proof. by intros k Hk. Qed.

Lemma keeps_other_keys_trans l key w1 w2 w3 :
  keeps_other_keys l key w1 w2 → keeps_other_keys l key w2 w3 →
  keeps_other_keys l key w1 w3.
Proof. intros H1 H2 k Hk. by rewrite H2, H1. Qed.

Lemma writes_only_mret {A} l key (a : A) : writes_only l key (mret a : M A).
Proof. intros w. apply keeps_other_keys_refl. Qed.

Lemma writes_only_raise {A} l key e : writes_only l key (raise e : M A).
Proof. intros w. apply keeps_other_keys_refl. Qed.

Lemma writes_only_from_opt {A} l key e (o : option A) :
  writes_only l key (from_opt e o).
Proof. destruct o; [apply writes_only_mret|apply writes_only_raise]. Qed.

Lemma writes_only_info l key msg : writes_only l key (info msg).
Proof. by intros w k Hk. Qed.

Lemma writes_only_setitem l key v : writes_only l key (setitem l key v).
Proof.
  intros w k Hk. simpl. destruct (decide (l < length (heap w))) as [Hlt|Hge].
  - rewrite list_lookup_total_alter_eq by done. by rewrite lookup_insert_ne.
  - rewrite !list_lookup_total_alt, list_lookup_alter_eq.
    by rewrite (lookup_ge_None_2 (heap w) l) by lia.
Qed.

Lemma writes_only_bind {A B} l key (m : M A) (k : A → M B) :
  writes_only l key m → (∀ a, writes_only l key (k a)) →
  writes_only l key (m ≫= k).
Proof.
  intros Hm Hk w. rewrite run_bind. specialize (Hm w).
  destruct (m w) as [[a|e] w']; simpl in *; [|done].
  eapply keeps_other_keys_trans; [done|]. apply Hk.
Qed.

Lemma writes_only_try_except {A} l key (m : M A) handler :
  writes_only l key m → (∀ e h, handler e = Some h → writes_only l key h) →
  writes_only l key (try_except m handler).
Proof.
  intros Hm Hh w. unfold try_except. specialize (Hm w).
  destruct (m w) as [[a|e] w']; simpl in *; [done|].
  destruct (handler e) as [h|] eqn:He; [|done].
  eapply keeps_other_keys_trans; [done|]. by eapply Hh.
Qed.

Ltac writes_only_step :=
  first
    [ apply writes_only_mret | apply writes_only_raise
    | apply writes_only_from_opt | apply writes_only_info
    | apply writes_only_setitem
    | apply writes_only_bind; [|intros ?]
    | apply writes_only_try_except; [|intros ? ? ?] ].

(** Whatever its outcome, a probe or [insert_snippet] leaves every field of
    the working record but its own as it was. *)
Lemma writes_only_apply_mutation x m :
  writes_only (contdata x) (mutation_key m) (apply_mutation x m).
Proof.
  destruct m; simpl;
    unfold get_from_envfile, get_from_env, get_from_pip, get_from_image,
      get_from_cmd, insert_snippet, the_container, decode, as_number;
    repeat (first [ writes_only_step | case_match; simplify_eq ]).
Qed.

(** ** Fault isolation *)

(** The probes that run a command, when the command fails by their own
    test: the sentinel is in the field and the probe returns normally. *)
Lemma command_failure_isolated x c w :
  container x = Some c → contdata x < length (heap w) →
  (∀ path lookup key text,
     exec_run c (envfile_cmd path lookup)
       = {| exit_code := 1; output := Some text |} →
     ∃ w', get_from_envfile x path lookup key w = (Ok (), w') ∧
           (heap w' !!! contdata x) !! default lookup key = Some ERROR) ∧
  (∀ lookup key text,
     exec_run c (env_cmd lookup) = {| exit_code := 1; output := Some text |} →
     ∃ w', get_from_env x lookup key w = (Ok (), w') ∧
           (heap w' !!! contdata x) !! default lookup key = Some ERROR) ∧
  (∀ lookup key r,
     exec_run c (pip_cmd lookup) = r → exit_code r ≠ 0%Z →
     ∃ w', get_from_pip x lookup key w = (Ok (), w') ∧
           (heap w' !!! contdata x) !! default lookup key = Some ERROR) ∧
  (∀ cmd key text,
     exec_run c (shell_cmd cmd) = {| exit_code := 1; output := Some text |} →
     ∃ w', get_from_cmd x cmd key w = (Ok (), w') ∧
           (heap w' !!! contdata x) !! key = Some ERROR).
Proof.
  intros Hc Hlt. split_and!.
  - intros path lookup key text Hexec. eexists. split.
    + by apply (run_get_from_envfile x c).
    + simpl. rewrite list_lookup_total_alter_eq by done. apply lookup_insert_eq.
  - intros lookup key text Hexec. eexists. split.
    + by apply (run_get_from_env x c).
    + simpl. rewrite list_lookup_total_alter_eq by done. apply lookup_insert_eq.
  - intros lookup key r Hexec Hst. eexists. split.
    + by apply (run_get_from_pip_failed x c _ _ r).
    + simpl. rewrite list_lookup_total_alter_eq by done. apply lookup_insert_eq.
  - intros cmd key text Hexec. eexists. split.
    + by apply (run_get_from_cmd x c).
    + simpl. rewrite list_lookup_total_alter_eq by done. apply lookup_insert_eq.
Qed.

(** The image probe for an attribute other than ["Size"] that the image
    lacks: the sentinel is in the field and the probe returns normally. *)
Lemma image_failure_isolated x c lookup key w :
  container x = Some c → contdata x < length (heap w) →
  attrs c !! lookup = None → lookup ≠ "Size" →
  ∃ w', get_from_image x lookup key w = (Ok (), w') ∧
        (heap w' !!! contdata x) !! default lookup key = Some ERROR.
Proof.
  intros Hc Hlt Hattr Hne. unfold get_from_image.
  rewrite run_bind, run_setitem. rewrite run_bind. unfold the_container.
  rewrite Hc. simpl. rewrite Hattr. rewrite run_bind. unfold try_except. simpl.
  rewrite decide_False by done. eexists. split; [reflexivity|]. simpl.
  rewrite list_lookup_total_alter_eq by done. apply lookup_insert_eq.
Qed.

(** C2, at the input where it fails.  [get_from_image] asked for ["Size"]
    on an image without that attribute: the [KeyError] of the first read is
    caught and logged, and the read is then done again outside the [try],
    where the [KeyError] leaves the probe.  The sentinel has been written,
    but the probe does not return normally. *)
Theorem size_probe_raises_without_size x c key w :
  container x = Some c →
  attrs c !! "Size" = None →
  get_from_image x "Size" key w =
  (Raise (KeyError "Size"),
   set_log (λ l, l ++ [Info "Failed to get attr from image: 'Size'"])
     (set_heap (alter (insert (default "Size" key) ERROR) (contdata x)) w)).
Proof.
  intros Hc Hattr. unfold get_from_image.
  rewrite run_bind, run_setitem. rewrite run_bind. unfold the_container.
  rewrite Hc. simpl. rewrite Hattr. rewrite run_bind. unfold try_except. simpl.
  reflexivity.
Qed.

(** ** Output of the environment probes *)

Lemma twice_written (h : list record) l (key : string) v1 v2 :
  l < length h →
  (alter (insert key v2) l (alter (insert key v1) l h) !!! l) !! key = Some v2.
Proof.
  intros Hlt. rewrite list_lookup_total_alter_eq by (by rewrite length_alter).
  apply lookup_insert_eq.
Qed.

(** What the two environment probes leave in the field, for every status
    and every output that decodes. *)
Lemma env_probes_outcome x c st text w :
  container x = Some c → contdata x < length (heap w) →
  let v := if negb (st =? 1)%Z && negb (Str.isspace text)
           then VStr (Str.strip (Str.remove dquote text)) else ERROR in
  (∀ path lookup key,
     exec_run c (envfile_cmd path lookup)
       = {| exit_code := st; output := Some text |} →
     ∃ w', get_from_envfile x path lookup key w = (Ok (), w') ∧
           (heap w' !!! contdata x) !! default lookup key = Some v) ∧
  (∀ lookup key,
     exec_run c (env_cmd lookup) = {| exit_code := st; output := Some text |} →
     ∃ w', get_from_env x lookup key w = (Ok (), w') ∧
           (heap w' !!! contdata x) !! default lookup key = Some v).
Proof.
  intros Hc Hlt v. subst v. split.
  - intros path lookup key Hexec. eexists.
    split; [by apply (run_get_from_envfile x c)|]. simpl.
    destruct (negb (st =? 1)%Z && negb (Str.isspace text)); simpl.
    + by apply twice_written.
    + rewrite list_lookup_total_alter_eq by done. apply lookup_insert_eq.
  - intros lookup key Hexec. eexists.
    split; [by apply (run_get_from_env x c)|]. simpl.
    destruct (negb (st =? 1)%Z && negb (Str.isspace text)); simpl.
    + by apply twice_written.
    + rewrite list_lookup_total_alter_eq by done. apply lookup_insert_eq.
Qed.

(** C8, at the input where it fails.  When the output is empty and the
    status is not 1, both environment probes take the success branch
    (["".isspace()] is false): the field holds the empty string, not the
    sentinel, and no failure is logged. *)
Theorem empty_output_is_stored x c st w :
  container x = Some c → contdata x < length (heap w) → st ≠ 1%Z →
  (∀ path lookup key,
     exec_run c (envfile_cmd path lookup)
       = {| exit_code := st; output := Some "" |} →
     ∃ w', get_from_envfile x path lookup key w = (Ok (), w') ∧
           (heap w' !!! contdata x) !! default lookup key = Some (VStr "") ∧
           log w' = log w) ∧
  (∀ lookup key,
     exec_run c (env_cmd lookup) = {| exit_code := st; output := Some "" |} →
     ∃ w', get_from_env x lookup key w = (Ok (), w') ∧
           (heap w' !!! contdata x) !! default lookup key = Some (VStr "") ∧
           log w' = log w).
Proof.
  intros Hc Hlt Hst. apply Z.eqb_neq in Hst. split.
  - intros path lookup key Hexec. eexists.
    split; [by apply (run_get_from_envfile x c)|]. simpl. rewrite Hst. simpl.
    split; [by apply twice_written|done].
  - intros lookup key Hexec. eexists.
    split; [by apply (run_get_from_env x c)|]. simpl. rewrite Hst. simpl.
    split; [by apply twice_written|done].
Qed.

(** ** Status codes *)

Lemma run_get_from_pip_ok x c lookup key text w :
  container x = Some c →
  exec_run c (pip_cmd lookup) = {| exit_code := 0; output := Some text |} →
  ∃ vs,
    versions_of text = Some vs ∧
    get_from_pip x lookup key w =
    (Ok (),
     let w1 := set_heap (alter (insert (default lookup key) ERROR) (contdata x)) w in
     match vs with
     | [v] => set_heap (alter (insert (default lookup key) (VStr (Str.strip v)))
                              (contdata x)) w1
     | _ => set_log (λ l, l ++ [Info ("Failed to extract version from pip output: "
                                      +:+ text)]) w1
     end).
Proof.
  intros Hc Hexec. destruct (versions_of_spec text) as (vs & Hvs & _).
  exists vs. split; [done|]. unfold get_from_pip, pip_cmd in *.
  rewrite run_bind, run_setitem. rewrite run_bind. unfold the_container.
  rewrite Hc. simpl. rewrite Hexec. simpl. unfold decode. simpl.
  rewrite !run_bind. simpl. rewrite Hvs. simpl.
  by destruct vs as [|v [|v' vs]].
Qed.

Lemma pip_messages_differ text lookup :
  "Failed to extract version from pip output: " +:+ text
  ≠ "Failed to get package version from pip: " +:+ lookup.
Proof. intros H. vm_compute in H. discriminate H. Qed.

Lemma Info_singleton_inj a b : [Info a] = [Info b] → a = b.
Proof. congruence. Qed.

Lemma not_logged (l : list event) e : l ≠ l ++ [e].
Proof.
  intros H. apply (f_equal length) in H. rewrite length_app in H.
  simpl in H. lia.
Qed.

(** C3, as amended.  For output that decodes: the two environment probes
    take their failure branch exactly when the status is 1 or the output is
    white space only, and [get_from_cmd] exactly when the status is 1, so
    for these three every status but 1 passes the status test.
    [get_from_pip] takes the failure branch of its status test exactly when
    the status is not 0. *)
Theorem status_conventions x c w :
  container x = Some c → contdata x < length (heap w) →
  (∀ path lookup key st text,
     exec_run c (envfile_cmd path lookup)
       = {| exit_code := st; output := Some text |} →
     fails_with (contdata x) (default lookup key)
       ("Failed to get env var '" +:+ lookup +:+ "' from file '" +:+ path +:+ "'")
       w (get_from_envfile x path lookup key w).2
     ↔ st = 1%Z ∨ Str.isspace text = true) ∧
  (∀ lookup key st text,
     exec_run c (env_cmd lookup)
       = {| exit_code := st; output := Some text |} →
     fails_with (contdata x) (default lookup key)
       ("Failed to get env var: '" +:+ lookup +:+ "'")
       w (get_from_env x lookup key w).2
     ↔ st = 1%Z ∨ Str.isspace text = true) ∧
  (∀ cmd key st text,
     exec_run c (shell_cmd cmd)
       = {| exit_code := st; output := Some text |} →
     fails_with (contdata x) key
       ("Command '" +:+ cmd +:+ "' failed: " +:+ text)
       w (get_from_cmd x cmd key w).2
     ↔ st = 1%Z) ∧
  (∀ lookup key st text,
     exec_run c (pip_cmd lookup)
       = {| exit_code := st; output := Some text |} →
     fails_with (contdata x) (default lookup key)
       ("Failed to get package version from pip: " +:+ lookup)
       w (get_from_pip x lookup key w).2
     ↔ st ≠ 0%Z).
Proof.
  intros Hc Hlt. split_and!.
  - intros path lookup key st text Hexec.
    rewrite (run_get_from_envfile x c _ _ _ st text) by done. simpl.
    destruct (Z.eqb_spec st 1) as [->|Hst]; simpl.
    { split; [by left|]. intros _. split; [done|]. simpl.
      rewrite list_lookup_total_alter_eq by done. apply lookup_insert_eq. }
    destruct (Str.isspace text); simpl.
    { split; [by right|]. intros _. split; [done|]. simpl.
      rewrite list_lookup_total_alter_eq by done. apply lookup_insert_eq. }
    split; [|by intros [|]]. intros [Hlog _]. simpl in Hlog.
    by apply not_logged in Hlog.
  - intros lookup key st text Hexec.
    rewrite (run_get_from_env x c _ _ st text) by done. simpl.
    destruct (Z.eqb_spec st 1) as [->|Hst]; simpl.
    { split; [by left|]. intros _. split; [done|]. simpl.
      rewrite list_lookup_total_alter_eq by done. apply lookup_insert_eq. }
    destruct (Str.isspace text); simpl.
    { split; [by right|]. intros _. split; [done|]. simpl.
      rewrite list_lookup_total_alter_eq by done. apply lookup_insert_eq. }
    split; [|by intros [|]]. intros [Hlog _]. simpl in Hlog.
    by apply not_logged in Hlog.
  - intros cmd key st text Hexec.
    rewrite (run_get_from_cmd x c _ _ st text) by done. simpl.
    destruct (Z.eqb_spec st 1) as [->|Hst]; simpl.
    { split; [done|]. intros _. split; [done|]. simpl.
      rewrite list_lookup_total_alter_eq by done. apply lookup_insert_eq. }
    split; [|done]. intros [Hlog _].
    destruct (decide (key = "sm")); simpl in Hlog; by apply not_logged in Hlog.
  - intros lookup key st text Hexec.
    destruct (decide (st = 0%Z)) as [->|Hst].
    + destruct (run_get_from_pip_ok x c lookup key text w Hc Hexec)
        as (vs & _ & ->).
      split; [|done]. intros [Hlog _]. simpl in Hlog.
      destruct vs as [|v [|v' vs]]; simpl in Hlog.
      * apply app_inv_head, Info_singleton_inj in Hlog.
        by apply pip_messages_differ in Hlog.
      * by apply not_logged in Hlog.
      * apply app_inv_head, Info_singleton_inj in Hlog.
        by apply pip_messages_differ in Hlog.
    + rewrite (run_get_from_pip_failed x c lookup key _ w Hc Hexec) by done.
      split; [done|]. intros _. split; [done|]. simpl.
      rewrite list_lookup_total_alter_eq by done. apply lookup_insert_eq.
Qed.

(** The claim of C3 fails for [get_from_pip]: status 2 is treated as a
    failure although it is not 1. *)
Lemma pip_fails_on_status_2 :
  ¬ only_status_1_fails (λ x, get_from_pip x "rmm" None) (pip_cmd "rmm") "rmm"
      "Failed to get package version from pip: rmm".
Proof.
  intros H.
  specialize (H (sample_extractor false
                   (Some (answering 2 (Some "Version: 1.2.3") ∅)))
                (answering 2 (Some "Version: 1.2.3") ∅)
                (sample_world [∅] ∅) 2%Z "Version: 1.2.3" eq_refl).
  assert (2 = 1)%Z as Hst; [|done].
  apply H; [simpl; lia|reflexivity|]. split; vm_compute; reflexivity.
Qed.

(** ** The run as a whole *)

(** C9, at the input where it fails.  When [data.json] is not there beside
    the script, [main] raises [FileNotFoundError] at its first statement on
    the file, before any image is looked at. *)
Theorem main_fails_without_store_file scriptdir a w :
  fs w !! (scriptdir +:+ "/data.json") = None →
  main scriptdir a w
  = (Raise (FileNotFoundError (scriptdir +:+ "/data.json")), w).
Proof.
  intros Hfile. unfold main. rewrite run_bind. unfold stat, stat_mtime.
  by rewrite Hfile.
Qed.

(** ** The scratch branch *)

Section create_branch.
Context (repo pr : string) (r : repository) (sha : nat).
Hypothesis Hmain : refs r !! "refs/heads/main" = Some sha.

Lemma run_attempt_taken counter w :
  hub w !! repo = Some r →
  is_Some (refs r !! branch_ref pr counter) →
  attempt (sha ← get_branch_sha repo "main";
           create_git_ref repo (branch_ref pr counter) sha) w
  = (Ok (Raise GithubException), w).
Proof.
  intros Hrepo Htaken. unfold attempt, get_branch_sha, create_git_ref, get_repo.
  rewrite !run_bind, Hrepo. simpl.
  change ("refs/heads/" +:+ "main") with "refs/heads/main".
  rewrite Hmain. simpl. rewrite run_bind, Hrepo. simpl.
  by rewrite decide_True.
Qed.

Lemma run_attempt_free counter w :
  hub w !! repo = Some r →
  refs r !! branch_ref pr counter = None →
  attempt (sha ← get_branch_sha repo "main";
           create_git_ref repo (branch_ref pr counter) sha) w
  = (Ok (Ok (branch_ref pr counter)),
     set_hub (insert repo (set_refs (insert (branch_ref pr counter) sha) r)) w).
Proof.
  intros Hrepo Hfree. unfold attempt, get_branch_sha, create_git_ref, get_repo.
  rewrite !run_bind, Hrepo. simpl.
  change ("refs/heads/" +:+ "main") with "refs/heads/main".
  rewrite Hmain. simpl. rewrite run_bind, Hrepo. simpl.
  rewrite decide_False; [done|]. rewrite Hfree. by intros [? ?].
Qed.

(** From [counter], with the next [n] refs taken and the one after them
    free, the loop makes the free one. *)
Lemma create_branch_skips n : ∀ counter fuel w,
  hub w !! repo = Some r →
  (∀ i, counter ≤ i < counter + n → is_Some (refs r !! branch_ref pr i)) →
  refs r !! branch_ref pr (counter + n) = None →
  counter + n ≤ 25 → n < fuel →
  ∃ w',
    create_branch fuel repo pr counter w
    = (Ok (branch_ref pr (counter + n)), w') ∧
    hub w' = <[repo := set_refs (insert (branch_ref pr (counter + n)) sha) r]>
               (hub w) ∧
    fs w' = fs w ∧ environ w' = environ w ∧ heap w' = heap w.
Proof.
  induction n as [|n IH]; intros counter fuel w Hrepo Htaken Hfree Hle Hfuel.
  - destruct fuel as [|fuel]; [lia|]. rewrite Nat.add_0_r in *.
    simpl. fold (branch_ref pr counter).
    rewrite run_bind, run_attempt_free by done. simpl.
    eexists. split; [reflexivity|]. done.
  - destruct fuel as [|fuel]; [lia|].
    simpl. fold (branch_ref pr counter).
    rewrite run_bind, run_attempt_taken by (done || apply Htaken; lia). simpl.
    rewrite run_bind. simpl.
    destruct (Nat.ltb_spec 25 (S counter)) as [?|_]; [lia|].
    destruct (IH (S counter) fuel
                (set_log (λ l, l ++ [Info ("PR branch '" +:+ branch_ref pr counter
                   +:+ "' already exists. Incrementing the counter.")]) w))
      as (w' & Hrun & Hhub & Hfs & Henv & Hheap).
    + done.
    + intros i Hi. apply Htaken. lia.
    + by replace (S counter + n) with (counter + S n) by lia.
    + lia.
    + lia.
    + exists w'. replace (counter + S n) with (S counter + n) by lia. done.
Qed.

(** From [counter], with every ref up to the 25th taken, the loop gives
    up and the exception leaves it. *)
Lemma create_branch_exhausted n : ∀ counter fuel w,
  hub w !! repo = Some r →
  (∀ i, counter ≤ i ≤ 25 → is_Some (refs r !! branch_ref pr i)) →
  counter + n = 25 → n < fuel →
  ∃ w',
    create_branch fuel repo pr counter w = (Raise GithubException, w') ∧
    hub w' = hub w ∧ fs w' = fs w ∧ environ w' = environ w ∧
    heap w' = heap w.
Proof.
  induction n as [|n IH]; intros counter fuel w Hrepo Htaken Hle Hfuel.
  - destruct fuel as [|fuel]; [lia|]. rewrite Nat.add_0_r in Hle. subst.
    simpl. fold (branch_ref pr 25).
    rewrite run_bind, run_attempt_taken by (done || apply Htaken; lia). simpl.
    rewrite run_bind. simpl. eexists. split; [reflexivity|]. done.
  - destruct fuel as [|fuel]; [lia|].
    simpl. fold (branch_ref pr counter).
    rewrite run_bind, run_attempt_taken by (done || apply Htaken; lia). simpl.
    rewrite run_bind. simpl.
    destruct (Nat.ltb_spec 25 (S counter)) as [?|_]; [lia|].
    destruct (IH (S counter) fuel
                (set_log (λ l, l ++ [Info ("PR branch '" +:+ branch_ref pr counter
                   +:+ "' already exists. Incrementing the counter.")]) w))
      as (w' & Hrun & Hhub & Hfs & Henv & Hheap); try done; try lia.
    + intros i Hi. apply Htaken. lia.
    + by exists w'.
Qed.
End create_branch.

(** ** open_pr *)

Lemma app_length_lookup {A} (l : list A) a : (l ++ [a]) !! length l = Some a.
Proof. by rewrite lookup_app_r, Nat.sub_diag by lia. Qed.

Lemma run_get_branch_sha repo name w r sha :
  hub w !! repo = Some r → refs r !! ("refs/heads/" +:+ name) = Some sha →
  get_branch_sha repo name w = (Ok sha, w).
Proof.
  intros Hrepo Hsha. unfold get_branch_sha, get_repo.
  rewrite run_bind, Hrepo. simpl. by rewrite Hsha.
Qed.

Lemma run_get_contents repo path ref w r sha t blob :
  hub w !! repo = Some r → refs r !! ref = Some sha →
  commits r !! sha = Some t → t !! path = Some blob →
  get_contents repo path ref w = (Ok (path, blob), w).
Proof.
  intros Hrepo Hsha Ht Hblob. unfold get_contents, tree_at, get_repo.
  run_monad. rewrite Hrepo. run_monad. rewrite Hsha. run_monad.
  rewrite Ht. run_monad. by rewrite Hblob.
Qed.

Lemma run_update_file repo path msg new ref w r sha t blob :
  hub w !! repo = Some r → refs r !! ref = Some sha →
  commits r !! sha = Some t → t !! path = Some blob →
  update_file repo path msg new ref blob w
  = (Ok (length (commits r)),
     set_hub (insert repo
       {| refs := <[ref := length (commits r)]> (refs r);
          commits := commits r ++ [<[path := new]> t];
          pulls := pulls r; refuses_pulls := refuses_pulls r |}) w).
Proof.
  intros Hrepo Hsha Ht Hblob. unfold update_file, tree_at, get_repo.
  run_monad. rewrite Hrepo. run_monad. rewrite Hsha. run_monad.
  rewrite Ht. run_monad. rewrite decide_True by done. run_monad.
  rewrite Hrepo. by run_monad.
Qed.

Lemma run_compare repo base head w r t1 t2 :
  hub w !! repo = Some r →
  commits r !! base = Some t1 → commits r !! head = Some t2 →
  compare repo base head w = (Ok (diff_files t1 t2), w).
Proof.
  intros Hrepo H1 H2. unfold compare, get_repo.
  run_monad. rewrite Hrepo. run_monad. rewrite H1. run_monad.
  by rewrite H2.
Qed.

Lemma run_delete_ref repo ref w r :
  hub w !! repo = Some r → is_Some (refs r !! ref) →
  delete_ref repo ref w
  = (Ok (), set_hub (insert repo (set_refs (delete ref) r)) w).
Proof.
  intros Hrepo Href. unfold delete_ref, get_repo.
  rewrite run_bind, Hrepo. simpl. by rewrite decide_True.
Qed.

Lemma run_create_pull repo title body head base w r :
  hub w !! repo = Some r →
  create_pull repo title body head base w =
  if refuses_pulls r then (Raise GithubException, w)
  else
    (Ok (repo +:+ "/pull/" +:+ pretty (S (length (pulls r)))),
     set_hub (insert repo
       {| refs := refs r; commits := commits r;
          pulls := pulls r ++ [{| title := title; pr_body := body;
                                  head := head; base := base |}];
          refuses_pulls := refuses_pulls r |}) w).
Proof.
  intros Hrepo. unfold create_pull, get_repo. rewrite run_bind, Hrepo. simpl.
  by destruct (refuses_pulls r).
Qed.

Local Opaque create_branch.

Lemma run_open_pr repo path release w r sha tok f t blob N :
  environ w !! "GH_TOKEN" = Some tok →
  fs w !! path = Some f →
  hub w !! repo = Some r →
  refs r !! "refs/heads/main" = Some sha →
  commits r !! sha = Some t →
  t !! path = Some blob →
  (∀ i, 1 ≤ i ≤ N → is_Some (refs r !! branch_ref (scratch_prefix release) i)) →
  refs r !! branch_ref (scratch_prefix release) (S N) = None →
  N < 25 →
  let ref := branch_ref (scratch_prefix release) (S N) in
  let t' := <[path := body f]> t in
  ∃ w',
    open_pr repo path release w = (Ok (), w') ∧
    fs w' = fs w ∧ heap w' = heap w ∧
    hub w' =
      <[repo :=
          if decide (diff_files t t' = []) then
            {| refs := refs r; commits := commits r ++ [t'];
               pulls := pulls r; refuses_pulls := refuses_pulls r |}
          else
            {| refs := <[ref := length (commits r)]> (refs r);
               commits := commits r ++ [t'];
               pulls :=
                 if refuses_pulls r then pulls r
                 else pulls r ++
                      [{| title := "Support matrix updates for " +:+ release;
                          pr_body := "Updates from containers";
                          head := ref; base := "main" |}];
               refuses_pulls := refuses_pulls r |}]> (hub w).
Proof.
  intros Htok Hf Hrepo Hmain Ht Hblob Htaken Hfree HN ref t'.
  destruct (create_branch_skips repo (scratch_prefix release) r sha Hmain
              N 1 25 w) as (w1 & Hrun & Hhub1 & Hfs1 & Henv1 & Hheap1);
    [done|intros i Hi; apply Htaken; lia|done|lia|lia|].
  change (1 + N) with (S N) in Hrun, Hhub1. fold ref in Hrun, Hhub1.
  unfold open_pr. rewrite run_bind. unfold gets at 1. rewrite Htok.
  rewrite run_bind. unfold read_file. rewrite Hf. simpl.
  rewrite run_bind. unfold get_repo at 1. rewrite Hrepo. simpl.
  fold (scratch_prefix release). rewrite run_bind, Hrun.
  assert (hub w1 !! repo
          = Some (set_refs (insert ref sha) r)) as Hrepo1.
  { by rewrite Hhub1, lookup_insert_eq. }
  assert (ref ≠ "refs/heads/main") as Hne.
  { unfold ref. intros Heq. rewrite Heq in Hfree. congruence. }
  erewrite run_bind_ok.
  2:{ eapply run_get_contents; [done| |done..]. simpl. apply lookup_insert_eq. }
  simpl. erewrite run_bind_ok.
  2:{ eapply run_update_file; [done| |done..]. simpl. apply lookup_insert_eq. }
  simpl. rewrite insert_insert_eq.
  set (r2 := {| refs := <[ref := length (commits r)]> (refs r);
                commits := commits r ++ [t'];
                pulls := pulls r; refuses_pulls := refuses_pulls r |}).
  set (w2 := set_hub (insert repo r2) w1).
  assert (hub w2 !! repo = Some r2) as Hrepo2 by apply lookup_insert_eq.
  assert (hub w2 = <[repo := r2]> (hub w)) as Hhub2.
  { simpl. by rewrite Hhub1, insert_insert_eq. }
  erewrite run_bind_ok.
  2:{ eapply run_get_branch_sha; [done|]. simpl.
      rewrite lookup_insert_ne by done. exact Hmain. }
  erewrite run_bind_ok.
  2:{ eapply run_compare; [done| |]; simpl.
      - by apply lookup_app_l_Some.
      - apply app_length_lookup. }
  destruct (decide (diff_files t t' = [])) as [Hdiff|Hdiff].
  - rewrite Hdiff. simpl. run_monad.
    erewrite run_delete_ref; [|done|]. 2:{ simpl. rewrite lookup_insert_eq. eauto. }
    eexists. split; [reflexivity|]. simpl. split_and!; [done..|].
    rewrite Hhub1, !insert_insert_eq. f_equal. unfold set_refs, r2. simpl.
    f_equal. rewrite delete_insert_eq. by apply delete_id.
  - destruct (diff_files t t') as [|p ps] eqn:Hd; [done|]. simpl.
    unfold try_except. rewrite run_bind.
    rewrite (run_create_pull _ _ _ _ _ _ r2) by done.
    destruct (refuses_pulls r2) eqn:Hrefuse; simpl in Hrefuse; simpl.
    + eexists. split; [reflexivity|]. simpl. split_and!; [done..|].
      rewrite Hhub1, insert_insert_eq. f_equal. unfold r2. by rewrite Hrefuse.
    + eexists. split; [reflexivity|]. simpl. split_and!; [done..|].
      rewrite Hhub1, !insert_insert_eq. f_equal. unfold r2. by rewrite Hrefuse.
Qed.

Local Transparent create_branch.

Lemma diff_files_empty_iff t path new :
  diff_files t (<[path := new]> t) = [] ↔ t !! path = Some new.
Proof.
  unfold diff_files. split.
  - intros Hnil. destruct (decide (t !! path = Some new)) as [|Hne]; [done|].
    assert (path ∈ filter (λ p, t !! p ≠ <[path := new]> t !! p)
                     (elements (dom t ∪ dom (<[path := new]> t)))) as Hin.
    { apply list_elem_of_filter. split.
      - by rewrite lookup_insert_eq.
      - apply elem_of_elements, elem_of_union. right.
        apply elem_of_dom. rewrite lookup_insert_eq. eauto. }
    rewrite Hnil in Hin. by apply not_elem_of_nil in Hin.
  - intros Hsame. rewrite insert_id by done.
    induction (elements (dom t ∪ dom t)) as [|p ps IH]; [done|].
    rewrite filter_cons_False by (intros H; by apply H). done.
Qed.

(** C5.  With a credential, the store file and a free scratch branch name
    within the bound: when the diff between the tree of the base branch and
    the tree of the new commit names no file, [open_pr] returns normally, the
    repository has the refs it had before (the scratch branch is gone) and
    the pull requests it had before.  The diff names no file exactly when the
    base branch already holds the file with the committed content. *)
Theorem unchanged_content_opens_no_pull
    repo path release w r sha tok f t blob N :
  environ w !! "GH_TOKEN" = Some tok →
  fs w !! path = Some f →
  hub w !! repo = Some r →
  refs r !! "refs/heads/main" = Some sha →
  commits r !! sha = Some t →
  t !! path = Some blob →
  (∀ i, 1 ≤ i ≤ N → is_Some (refs r !! branch_ref (scratch_prefix release) i)) →
  refs r !! branch_ref (scratch_prefix release) (S N) = None →
  N < 25 →
  diff_files t (<[path := body f]> t) = [] →
  blob = body f ∧
  ∃ w' r',
    open_pr repo path release w = (Ok (), w') ∧
    hub w' !! repo = Some r' ∧
    refs r' = refs r ∧ pulls r' = pulls r.
Proof.
  intros Htok Hf Hrepo Hmain Ht Hblob Htaken Hfree HN Hdiff.
  split. { apply diff_files_empty_iff in Hdiff. congruence. }
  destruct (run_open_pr repo path release w r sha tok f t blob N)
    as (w' & Hrun & _ & _ & Hhub); try done.
  rewrite decide_True in Hhub by done.
  eexists w', _. split; [done|]. rewrite Hhub, lookup_insert_eq. done.
Qed.

Lemma attempt_outcome repo ref w :
  (∃ w', attempt (sha ← get_branch_sha repo "main";
                  create_git_ref repo ref sha) w = (Ok (Ok ref), w')) ∨
  attempt (sha ← get_branch_sha repo "main";
           create_git_ref repo ref sha) w = (Ok (Raise GithubException), w).
Proof.
  unfold attempt, get_branch_sha, create_git_ref, get_repo. run_monad.
  destruct (hub w !! repo) as [r|] eqn:Hrepo; run_monad; [|by right].
  destruct (refs r !! _) as [sha|]; run_monad; [|by right].
  rewrite Hrepo. run_monad.
  destruct (decide (is_Some (refs r !! ref))); run_monad; [by right|].
  left. by eexists.
Qed.

(** The loop of [open_pr] ends: entered with [counter] and with fuel for the
    turns that remain up to the bound, it never runs out of fuel. *)
Lemma create_branch_terminates repo pr fuel : ∀ counter w,
  1 ≤ fuel → 26 ≤ fuel + counter →
  (create_branch fuel repo pr counter w).1 ≠ Raise OutOfFuel.
Proof.
  induction fuel as [|fuel IH]; intros counter w Hfuel Hsum; [lia|].
  simpl. rewrite run_bind.
  destruct (attempt_outcome repo
              ("refs/heads/" +:+ pr +:+ "-" +:+ pretty counter) w)
    as [[w' ->]| ->]; simpl.
  - by run_monad.
  - run_monad.
    destruct (Nat.ltb_spec 25 (S counter)) as [?|?].
    + by run_monad.
    + apply IH; lia.
Qed.

Lemma remove_not_in c s : ∀ p q, Str.remove c s ≠ p +:+ String c q.
Proof.
  induction s as [|a s IH]; intros p q; simpl.
  - by destruct p.
  - destruct (decide (a = c)) as [->|Hne]; [apply IH|].
    destruct p as [|b p]; [by intros [= ? _]|].
    rewrite app_String. intros [= _ H]. by apply IH in H.
Qed.

(** C6.  The scratch branch is ["docs-smx-"], the release without its dots,
    ["-"] and a counter that starts at 1.  With the refs numbered 1 to [N]
    taken and [N + 1] free, for [N] below 25, the loop makes the ref numbered
    [N + 1], and a pull request that [open_pr] then opens has that ref as its
    head.  With all of 1 to 25 taken, [open_pr] raises the exception of the
    last refusal and leaves the repository as it was.  The loop always
    ends. *)
Theorem scratch_branch_counter repo path release w r sha tok f t blob :
  environ w !! "GH_TOKEN" = Some tok →
  fs w !! path = Some f →
  hub w !! repo = Some r →
  refs r !! "refs/heads/main" = Some sha →
  commits r !! sha = Some t →
  t !! path = Some blob →
  let pr := "docs-smx-" +:+ Str.remove dot release in
  let ref n := "refs/heads/" +:+ pr +:+ "-" +:+ pretty n in
  (∀ p q, Str.remove dot release ≠ p +:+ String dot q) ∧
  (∀ N,
     N < 25 →
     (∀ i, 1 ≤ i ≤ N → is_Some (refs r !! ref i)) →
     refs r !! ref (S N) = None →
     (∃ w',
        create_branch 25 repo pr 1 w = (Ok (ref (S N)), w') ∧
        hub w' = <[repo := set_refs (insert (ref (S N)) sha) r]> (hub w)) ∧
     (diff_files t (<[path := body f]> t) ≠ [] → refuses_pulls r = false →
      ∃ w' r',
        open_pr repo path release w = (Ok (), w') ∧
        hub w' !! repo = Some r' ∧
        is_Some (refs r' !! ref (S N)) ∧
        pulls r' = pulls r ++
          [{| title := "Support matrix updates for " +:+ release;
              pr_body := "Updates from containers";
              head := ref (S N); base := "main" |}])) ∧
  ((∀ i, 1 ≤ i ≤ 25 → is_Some (refs r !! ref i)) →
   ∃ w', open_pr repo path release w = (Raise GithubException, w') ∧
         hub w' = hub w) ∧
  (create_branch 25 repo pr 1 w).1 ≠ Raise OutOfFuel.
Proof.
  intros Htok Hf Hrepo Hmain Ht Hblob pr ref. split_and!.
  - apply remove_not_in.
  - intros N HN Htaken Hfree. split.
    + destruct (create_branch_skips repo pr r sha Hmain N 1 25 w)
        as (w' & Hrun & Hhub & _); [done| |done|lia|lia|].
      { intros i Hi. apply Htaken. lia. }
      by exists w'.
    + intros Hdiff Hrefuse.
      destruct (run_open_pr repo path release w r sha tok f t blob N)
        as (w' & Hrun & _ & _ & Hhub); try done.
      rewrite decide_False, Hrefuse in Hhub by done.
      eexists w', _. split; [done|]. rewrite Hhub, lookup_insert_eq.
      split; [done|]. simpl. split; [|done].
      rewrite lookup_insert_eq. eauto.
  - intros Htaken.
    destruct (create_branch_exhausted repo pr r sha Hmain 24 1 25 w)
      as (w' & Hrun & Hhub & _); [done|done|lia|lia|].
    exists w'. split; [|done].
    unfold open_pr. rewrite run_bind. unfold gets at 1. rewrite Htok.
    rewrite run_bind. unfold read_file. rewrite Hf.
    change (from_opt (FileNotFoundError path) (body <$> Some f) w)
      with (Ok (body f), w).
    cbv beta iota. rewrite run_bind. unfold get_repo at 1. rewrite Hrepo.
    change (from_opt GithubException (Some r) w) with (Ok r, w).
    cbv beta iota. fold pr. rewrite run_bind, Hrun. done.
  - apply create_branch_terminates; lia.
Qed.

(** * The theorems at sample inputs *)

Example format_gb_3 : format_gb 3221225472 = "3.0".
Proof. vm_compute. reflexivity. Qed.

Example scratch_prefix_2202 : scratch_prefix "22.02" = "docs-smx-2202".
Proof. vm_compute. reflexivity. Qed.

Example pip_sample :
  (heap (get_from_pip
           (sample_extractor false (Some (answering 0 (Some sample_pip_output) ∅)))
           "rmm" None (sample_world [∅] ∅)).2 !!! 0) !! "rmm"
  = Some (VStr "1.2.3").
Proof. vm_compute. reflexivity. Qed.

Example env_sample :
  (heap (get_from_env
           (sample_extractor false
              (Some (answering 0 (Some ("11.6" +:+ String newline "")) ∅)))
           "CUDA_VERSION" (Some "cuda") (sample_world [∅] ∅)).2 !!! 0) !! "cuda"
  = Some (VStr "11.6").
Proof. vm_compute. reflexivity. Qed.

Example env_unset_sample :
  (heap (get_from_env
           (sample_extractor false
              (Some (answering 0 (Some (String newline "")) ∅)))
           "CUDA_VERSION" (Some "cuda") (sample_world [∅] ∅)).2 !!! 0) !! "cuda"
  = Some (VStr "Not applicable").
Proof. vm_compute. reflexivity. Qed.

Example merge_sample :
  ∃ x1 w1,
    from_json (sample_extractor false None) (sample_world [∅] sample_files)
    = (Ok x1, w1) ∧
    let x2 := from_option (use_container x1) x1
                (Some (answering 0 (Some "11.6") ∅)) in
    let w2 := (apply_mutations x2
                 [Snippet "release" (VStr "22.02");
                  Env "CUDA_VERSION" (Some "cuda")] w1).2 in
    ∃ w3 doc',
      to_json_file x2 w2 = (Ok (), w3) ∧
      body <$> fs w3 !! "data.json" = Some (Json doc') ∧
      entry doc' "merlin-training" "22.01" = Some {[ "cuda" := VStr "11.5" ]} ∧
      entry doc' "merlin-inference" "22.02" = Some {[ "cuda" := VStr "11.6" ]}.
Proof.
  eexists _, _. split; [vm_compute; reflexivity|].
  eexists _, _. split_and!; vm_compute; reflexivity.
Qed.

Lemma contdata_is_stored_record_witness :
  linked (heap (sample_world [∅] ∅)) (sample_extractor false None) ∧
  ∃ w' rec,
    insert_snippet (sample_extractor false None) "release" (VStr "22.02")
      (sample_world [∅] ∅)
    = (Ok (), w') ∧
    let doc := dump (heap w') (data (sample_extractor false None)) in
    entry doc "merlin-training" "22.02" = Some rec ∧
    rec !! "release" = Some (VStr "22.02") ∧
    to_json (sample_extractor false None) w'
    = (if decide (encodable doc) then Ok doc else Raise TypeError, w').
Proof.
  assert (linked (heap (sample_world [∅] ∅)) (sample_extractor false None))
    as Hlink.
  { split; [reflexivity|]. simpl. lia. }
  split; [exact Hlink|].
  exact (proj2 (proj2 (proj2 contdata_is_stored_record))
           (sample_extractor false None) (sample_world [∅] ∅)
           "release" (VStr "22.02") Hlink).
Defined.

Lemma already_present_iff_witness :
  force (sample_extractor true None) = true ∧
  fs (sample_world [∅] sample_files) !! datafile (sample_extractor true None)
  = Some {| body := Json sample_doc; st_mtime := 0 |} ∧
  ∃ x' w',
    from_json (sample_extractor true None) (sample_world [∅] sample_files)
    = (Ok x', w') ∧
    already_present x' w' = (Ok false, w').
Proof.
  split; [reflexivity|]. split; [reflexivity|].
  exact (proj2 already_present_iff (sample_extractor true None)
           (sample_world [∅] sample_files) sample_doc 0%Z eq_refl eq_refl).
Defined.

Lemma pip_version_parsing_witness :
  container (sample_extractor false (Some (answering 0 (Some sample_pip_output) ∅)))
  = Some (answering 0 (Some sample_pip_output) ∅) ∧
  contdata (sample_extractor false (Some (answering 0 (Some sample_pip_output) ∅)))
  < length (heap (sample_world [∅] ∅)) ∧
  ∃ w' v,
    get_from_pip
      (sample_extractor false (Some (answering 0 (Some sample_pip_output) ∅)))
      "rmm" None (sample_world [∅] ∅) = (Ok (), w') ∧
    (heap w' !!! 0) !! "rmm" = Some v ∧
    ∃ t, is_last_token "Version: 1.2.3" t ∧ v = VStr t.
Proof.
  split; [reflexivity|]. split; [simpl; lia|].
  exact (pip_version_parsing
           (sample_extractor false (Some (answering 0 (Some sample_pip_output) ∅)))
           (answering 0 (Some sample_pip_output) ∅) "rmm" None
           sample_pip_output (sample_world [∅] ∅)
           eq_refl (le_n 1) eq_refl).
Defined.

Lemma unchanged_content_opens_no_pull_witness :
  diff_files {[ "data.json" := Json sample_doc ]}
    (<["data.json" := Json sample_doc]> {[ "data.json" := Json sample_doc ]})
  = [] ∧
  ∃ w' r',
    open_pr "NVIDIA-Merlin/Merlin" "data.json" "22.02"
      (publishing_world sample_files) = (Ok (), w') ∧
    hub w' !! "NVIDIA-Merlin/Merlin" = Some r' ∧
    refs r' = refs sample_repository ∧ pulls r' = pulls sample_repository.
Proof.
  split; [vm_compute; reflexivity|].
  refine (proj2 (unchanged_content_opens_no_pull "NVIDIA-Merlin/Merlin"
            "data.json" "22.02" (publishing_world sample_files)
            sample_repository 0 "token"
            {| body := Json sample_doc; st_mtime := 0 |}
            {[ "data.json" := Json sample_doc ]} (Json sample_doc) 0
            eq_refl eq_refl eq_refl eq_refl eq_refl eq_refl _ _ _ _)).
  - intros i Hi. lia.
  - vm_compute. reflexivity.
  - lia.
  - vm_compute. reflexivity.
Defined.

Lemma scratch_branch_counter_witness :
  refs sample_repository !! "refs/heads/docs-smx-2202-1" = None ∧
  ∃ w',
    create_branch 25 "NVIDIA-Merlin/Merlin" "docs-smx-2202" 1
      (publishing_world sample_files)
    = (Ok "refs/heads/docs-smx-2202-1", w') ∧
    hub w' = <["NVIDIA-Merlin/Merlin" :=
                 set_refs (insert "refs/heads/docs-smx-2202-1" 0)
                   sample_repository]>
               (hub (publishing_world sample_files)).
Proof.
  split; [vm_compute; reflexivity|].
  refine (proj1 (proj1 (proj2 (scratch_branch_counter "NVIDIA-Merlin/Merlin"
            "data.json" "22.02" (publishing_world sample_files)
            sample_repository 0 "token"
            {| body := Json sample_doc; st_mtime := 0 |}
            {[ "data.json" := Json sample_doc ]} (Json sample_doc)
            eq_refl eq_refl eq_refl eq_refl eq_refl eq_refl)) 0 _ _ _)).
  - lia.
  - intros i Hi. lia.
  - vm_compute. reflexivity.
Defined.

Lemma status_conventions_witness :
  container (sample_extractor false (Some (answering 2 (Some "1.2.3") ∅)))
  = Some (answering 2 (Some "1.2.3") ∅) ∧
  contdata (sample_extractor false (Some (answering 2 (Some "1.2.3") ∅)))
  < length (heap (sample_world [∅] ∅)) ∧
  (fails_with 0 "triton" "Command 'cat /opt/tritonserver/TRITON_VERSION' failed: 1.2.3"
     (sample_world [∅] ∅)
     (get_from_cmd (sample_extractor false (Some (answering 2 (Some "1.2.3") ∅)))
        "cat /opt/tritonserver/TRITON_VERSION" "triton" (sample_world [∅] ∅)).2
   ↔ 2 = 1)%Z ∧
  (fails_with 0 "rmm" "Failed to get package version from pip: rmm"
     (sample_world [∅] ∅)
     (get_from_pip (sample_extractor false (Some (answering 2 (Some "1.2.3") ∅)))
        "rmm" None (sample_world [∅] ∅)).2
   ↔ 2 ≠ 0)%Z.
Proof.
  split; [reflexivity|]. split; [simpl; lia|].
  pose proof (status_conventions
                (sample_extractor false (Some (answering 2 (Some "1.2.3") ∅)))
                (answering 2 (Some "1.2.3") ∅) (sample_world [∅] ∅)
                eq_refl (le_n 1)) as (_ & _ & Hcmd & Hpip).
  split.
  - exact (Hcmd "cat /opt/tritonserver/TRITON_VERSION" "triton" 2%Z "1.2.3"
             eq_refl).
  - exact (Hpip "rmm" None 2%Z "1.2.3" eq_refl).
Defined.

Lemma size_probe_raises_without_size_witness :
  attrs (answering 0 (Some "") ∅) !! "Size" = None ∧
  (get_from_image (sample_extractor false (Some (answering 0 (Some "") ∅)))
     "Size" (Some "size") (sample_world [∅] ∅)).1
  = Raise (KeyError "Size").
Proof.
  assert (attrs (answering 0 (Some "") ∅) !! "Size" = None) as Hattr
    by reflexivity.
  split; [exact Hattr|].
  rewrite (size_probe_raises_without_size
             (sample_extractor false (Some (answering 0 (Some "") ∅)))
             (answering 0 (Some "") ∅) (Some "size") (sample_world [∅] ∅)
             eq_refl Hattr).
  reflexivity.
Defined.

Lemma empty_output_is_stored_witness :
  (0 ≠ 1)%Z ∧
  ∃ w',
    get_from_env (sample_extractor false (Some (answering 0 (Some "") ∅)))
      "CUDA_VERSION" (Some "cuda") (sample_world [∅] ∅) = (Ok (), w') ∧
    (heap w' !!! 0) !! "cuda" = Some (VStr "") ∧
    log w' = log (sample_world [∅] ∅).
Proof.
  split; [lia|].
  exact (proj2 (empty_output_is_stored
                  (sample_extractor false (Some (answering 0 (Some "") ∅)))
                  (answering 0 (Some "") ∅) 0%Z (sample_world [∅] ∅)
                  eq_refl (le_n 1) ltac:(lia))
           "CUDA_VERSION" (Some "cuda") eq_refl).
Defined.

Lemma main_fails_without_store_file_witness :
  fs (sample_world [] ∅) !! ("/docs" +:+ "/data.json") = None ∧
  main "/docs"
    {| arg_version := Some "22.02"; arg_file := None; arg_snippets := None;
       arg_container := None; arg_force := false |}
    (sample_world [] ∅)
  = (Raise (FileNotFoundError "/docs/data.json"), sample_world [] ∅).
Proof.
  split; [reflexivity|].
  exact (main_fails_without_store_file "/docs" _ (sample_world [] ∅) eq_refl).
Defined.

(** With [--file], [jsonfile] is a [str] when [main] asks for its [stat] at
    the end: the run stops with [AttributeError] after the images have been
    processed, also when every file is there. *)
(** A date among the snippets: the first turn of the loop ends the run, and
    the store file no longer holds the document. *)
Example main_with_dated_snippet :
  let r :=
    main "/docs" sample_args
      (running_world (docs_files (Json sample_doc) dated_snippets)
         (Some sample_container) ∅ (repository_with ∅ false)) in
  r.1 = Raise RuntimeError ∧
  match body <$> fs r.2 !! "/docs/data.json" with
  | Some (Partial doc) => entry doc "merlin-inference" "22.02"
  | _ => None
  end = Some {[ "cuda" := VStr "11.6" ]}.
Proof. vm_compute. split; reflexivity. Qed.

Example main_with_file_option :
  (main "/docs"
     {| arg_version := Some "22.02"; arg_file := Some "/tmp/data.json";
        arg_snippets := None; arg_container := None; arg_force := false |}
     (sample_world []
        {[ "/docs/data.json" := {| body := Json ∅; st_mtime := 0 |};
           "/docs/snippets.yaml" :=
             {| body := Yaml {[ "dgx_system" := VStr "DGX";
                                "nvidia_driver" := VStr "510";
                                "gpu_model" := VStr "A100" ]};
                st_mtime := 0 |} ]})).1
  = Raise (AttributeError "stat").
Proof. vm_compute. reflexivity. Qed.

(** On a first run, with no store file, [from_json] returns normally and
    changes nothing: the store in memory is as [__init__] made it, with no
    field in any record. *)
Lemma first_run_store_has_no_field name rel file frc w :
  fs w !! file = None →
  ∃ x w1,
    __init__ name rel file frc w = (Ok x, w1) ∧
    from_json x w1 = (Ok x, w1) ∧
    ∀ c r rec, entry (dump (heap w1) (data x)) c r = Some rec → rec = ∅.
Proof.
  intros Hfile. eexists _, _. split; [reflexivity|]. split.
  - by apply from_json_absent.
  - intros c r rec. rewrite entry_dump. simpl.
    intros (l & (m & Hc & Hr)%entry_Some & ->)%fmap_Some.
    apply lookup_singleton_Some in Hc as [<- <-].
    apply lookup_singleton_Some in Hr as [<- <-].
    by rewrite list_lookup_total_middle.
Qed.

(** * Further properties *)

(** ** What a computation can touch *)

Global Instance outside_store_tolerant p : Tolerant (outside_store p).
Proof.
  split.
  - by repeat split.
  - intros w1 w2 w3 (H1 & H2 & H3 & H4 & H5) (K1 & K2 & K3 & K4 & K5).
    repeat split; try congruence. intros q Hq. by rewrite K5, H5.
  - by repeat split.
  - by repeat split.
Qed.

Global Instance only_objects_tolerant : Tolerant only_objects.
Proof.
  split.
  - by repeat split.
  - intros w1 w2 w3 (H1 & H2 & H3 & H4 & H5 & H6) (K1 & K2 & K3 & K4 & K5 & K6).
    repeat split; congruence.
  - by repeat split.
  - by repeat split.
Qed.

Global Instance same_files_tolerant : Tolerant same_files.
Proof.
  split.
  - by repeat split.
  - intros w1 w2 w3 (H1 & H2 & H3 & H4) (K1 & K2 & K3 & K4).
    repeat split; congruence.
  - by repeat split.
  - by repeat split.
Qed.

Global Instance same_files_remote : Remote same_files.
Proof. intros f w. by repeat split. Qed.

Lemma only_objects_outside_store p w w' :
  only_objects w w' → outside_store p w w'.
Proof.
  intros (H1 & H2 & H3 & H4 & H5 & H6). repeat split; try done.
  intros q _. by rewrite H1.
Qed.

Lemma only_objects_same_files w w' : only_objects w w' → same_files w w'.
Proof. intros (H1 & H2 & H3 & H4 & H5 & H6). by repeat split. Qed.

Lemma within_mret R `{!Tolerant R} {A} (a : A) : within R (mret a : M A).
Proof. intros w. apply tolerant_refl. Qed.

Lemma within_raise R `{!Tolerant R} {A} e : within R (raise e : M A).
Proof. intros w. apply tolerant_refl. Qed.

Lemma within_from_opt R `{!Tolerant R} {A} e (o : option A) : within R (from_opt e o).
Proof. destruct o; [apply (within_mret R)|apply (within_raise R)]. Qed.

Lemma within_gets R `{!Tolerant R} {A} (f : world → A) : within R (gets f).
Proof. intros w. apply tolerant_refl. Qed.

Lemma within_set_log R `{!Tolerant R} f : within R (modify (set_log f)).
Proof. intros w. apply tolerant_log. Qed.

Lemma within_info R `{!Tolerant R} msg : within R (info msg).
Proof. apply (within_set_log R). Qed.

Lemma within_setitem R `{!Tolerant R} l key v : within R (setitem l key v).
Proof. intros w. apply tolerant_heap. Qed.

Lemma within_getitem R `{!Tolerant R} l key : within R (getitem l key).
Proof. intros w. unfold getitem. apply (within_from_opt R). Qed.

Lemma within_alloc R `{!Tolerant R} r : within R (alloc r).
Proof. intros w. apply tolerant_heap. Qed.

Lemma within_read_file R `{!Tolerant R} q : within R (read_file q).
Proof. intros w. unfold read_file. apply (within_from_opt R). Qed.

Lemma within_stat_mtime R `{!Tolerant R} q : within R (stat_mtime q).
Proof. intros w. unfold stat_mtime. apply (within_from_opt R). Qed.

Lemma within_bind R `{!Tolerant R} {A B} (m : M A) (k : A → M B) :
  within R m → (∀ a, within R (k a)) → within R (m ≫= k).
Proof.
  intros Hm Hk w. rewrite run_bind. specialize (Hm w).
  destruct (m w) as [[a|e] w']; simpl in *; [|done].
  eapply tolerant_trans; [done|]. apply Hk.
Qed.

Lemma within_try_except R `{!Tolerant R} {A} (m : M A) handler :
  within R m → (∀ e h, handler e = Some h → within R h) →
  within R (try_except m handler).
Proof.
  intros Hm Hh w. unfold try_except. specialize (Hm w).
  destruct (m w) as [[a|e] w']; simpl in *; [done|].
  destruct (handler e) as [h|] eqn:He; [|done].
  eapply tolerant_trans; [done|]. by eapply Hh.
Qed.

Lemma within_attempt R `{!Tolerant R} {A} (m : M A) : within R m → within R (attempt m).
Proof.
  intros Hm w. unfold attempt. specialize (Hm w). by destruct (m w).
Qed.

Lemma within_managed_container R `{!Tolerant R} {A} img (body : option container_handle → M A) :
  (∀ c, within R (body c)) → within R (managed_container img body).
Proof.
  intros Hbody w. unfold managed_container.
  destruct (images w img) as [c|]; [|apply Hbody].
  specialize (Hbody (Some c) w).
  destruct (body (Some c) w) as [[a|e] w']; [|done]. by destruct (stops c).
Qed.

Ltac within_step :=
  lazymatch goal with
  | H : within ?R ?m |- within ?R ?m => exact H
  | |- within ?R (mret _) => apply (within_mret R)
  | |- within ?R (raise _) => apply (within_raise R)
  | |- within ?R (from_opt _ _) => apply (within_from_opt R)
  | |- within ?R (gets _) => apply (within_gets R)
  | |- within ?R (info _) => apply (within_info R)
  | |- within ?R (modify (set_log _)) => apply (within_set_log R)
  | |- within ?R (setitem _ _ _) => apply (within_setitem R)
  | |- within ?R (getitem _ _) => apply (within_getitem R)
  | |- within ?R (alloc _) => apply (within_alloc R)
  | |- within ?R (read_file _) => apply (within_read_file R)
  | |- within ?R (stat_mtime _) => apply (within_stat_mtime R)
  | |- within ?R (_ ≫= _) => apply (within_bind R); [|intros ?]
  | |- within ?R (try_except _ _) => apply (within_try_except R); [|intros ? ? ?]
  | |- within ?R (attempt _) => apply (within_attempt R)
  | |- within ?R (managed_container _ _) =>
      apply (within_managed_container R); intros ?
  | |- within ?R (let _ := _ in _) => cbv zeta
  end.

Ltac within_tac := repeat (first [ within_step | case_match; simplify_eq ]).

Lemma within_init R `{!Tolerant R} name rel file frc : within R (__init__ name rel file frc).
Proof. unfold __init__. within_tac. Qed.

Lemma within_apply_mutation R `{!Tolerant R} x m : within R (apply_mutation x m).
Proof.
  destruct m; simpl;
    unfold get_from_envfile, get_from_env, get_from_pip, get_from_image,
      get_from_cmd, insert_snippet, the_container, decode, as_number;
    within_tac.
Qed.

Lemma within_apply_mutations R `{!Tolerant R} x ms : within R (apply_mutations x ms).
Proof.
  induction ms as [|m ms IH]; simpl; [apply (within_mret R)|].
  apply (within_bind R); [apply (within_apply_mutation R)|done].
Qed.

Lemma within_get_from_envfile R `{!Tolerant R} x path lookup key :
  within R (get_from_envfile x path lookup key).
Proof. exact (within_apply_mutation R x (EnvFile path lookup key)). Qed.

Lemma within_get_from_env R `{!Tolerant R} x lookup key : within R (get_from_env x lookup key).
Proof. exact (within_apply_mutation R x (Env lookup key)). Qed.

Lemma within_get_from_pip R `{!Tolerant R} x lookup key : within R (get_from_pip x lookup key).
Proof. exact (within_apply_mutation R x (Pip lookup key)). Qed.

Lemma within_get_from_image R `{!Tolerant R} x lookup key :
  within R (get_from_image x lookup key).
Proof. exact (within_apply_mutation R x (Image lookup key)). Qed.

Lemma within_get_from_cmd R `{!Tolerant R} x cmd key : within R (get_from_cmd x cmd key).
Proof. exact (within_apply_mutation R x (Cmd cmd key)). Qed.

Lemma within_insert_snippet R `{!Tolerant R} x key v : within R (insert_snippet x key v).
Proof. exact (within_apply_mutation R x (Snippet key v)). Qed.

Lemma within_load_releases R `{!Tolerant R} kvs : within R (load_releases kvs).
Proof.
  induction kvs as [|[r rec] kvs IH]; simpl; [apply (within_mret R)|]. within_tac.
Qed.

Lemma within_load_containers R `{!Tolerant R} kvs : within R (load_containers kvs).
Proof.
  induction kvs as [|[c m] kvs IH]; simpl; [apply (within_mret R)|].
  apply (within_bind R); [apply (within_load_releases R)|intros f]. within_tac.
Qed.

Lemma within_from_json R `{!Tolerant R} x : within R (from_json x).
Proof.
  unfold from_json, path_exists, parse_store, json_load.
  apply (within_bind R); [within_tac|intros found].
  destruct (negb found); [within_tac|].
  apply (within_bind R); [within_tac|intros f].
  apply (within_bind R); [within_tac|intros doc].
  apply (within_bind R); [apply (within_load_containers R)|intros d].
  within_tac.
Qed.

Lemma within_already_present R `{!Tolerant R} x : within R (already_present x).
Proof. unfold already_present, path_exists. within_tac. Qed.

Lemma within_snapshot R `{!Tolerant R} x : within R (snapshot x).
Proof. apply (within_gets R). Qed.

Lemma within_to_json R `{!Tolerant R} x : within R (to_json x).
Proof.
  unfold to_json. apply (within_bind R); [apply (within_snapshot R)|intros doc].
  destruct (decide (encodable doc)); [apply (within_mret R)|apply (within_raise R)].
Qed.

Lemma within_insert_snippets R `{!Tolerant R} x sniptext ks :
  within R (insert_snippets x sniptext ks).
Proof.
  induction ks as [|k ks IH]; simpl; [apply (within_mret R)|].
  apply (within_bind R); [apply (within_from_opt R)|intros v].
  apply (within_bind R); [apply (within_insert_snippet R)|intros _].
  exact IH.
Qed.

Lemma within_check_snippets R `{!Tolerant R} sniptext ks : within R (check_snippets sniptext ks).
Proof.
  induction ks as [|k ks IH]; simpl; [apply (within_mret R)|].
  apply (within_bind R); [apply (within_from_opt R)|intros v].
  destruct (truthy v); [exact IH|apply (within_raise R)].
Qed.

Lemma within_load_snippets R `{!Tolerant R} p : within R (load_snippets p).
Proof. unfold load_snippets. within_tac. Qed.

Lemma within_stat R `{!Tolerant R} p : within R (stat p).
Proof. destruct p; simpl; [apply (within_stat_mtime R)|apply (within_raise R)]. Qed.

Lemma within_get_yymm R `{!Tolerant R} : within R get_yymm.
Proof. apply (within_gets R). Qed.

Ltac within_call :=
  lazymatch goal with
  | |- within ?R (get_from_envfile _ _ _ _) => apply (within_get_from_envfile R)
  | |- within ?R (get_from_env _ _ _) => apply (within_get_from_env R)
  | |- within ?R (get_from_pip _ _ _) => apply (within_get_from_pip R)
  | |- within ?R (get_from_image _ _ _) => apply (within_get_from_image R)
  | |- within ?R (get_from_cmd _ _ _) => apply (within_get_from_cmd R)
  | |- within ?R (insert_snippet _ _ _) => apply (within_insert_snippet R)
  | |- within ?R (insert_snippets _ _ _) => apply (within_insert_snippets R)
  | |- within ?R (check_snippets _ _) => apply (within_check_snippets R)
  | |- within ?R (load_snippets _) => apply (within_load_snippets R)
  | |- within ?R (__init__ _ _ _ _) => apply (within_init R)
  | |- within ?R (from_json _) => apply (within_from_json R)
  | |- within ?R (already_present _) => apply (within_already_present R)
  | |- within ?R (to_json _) => apply (within_to_json R)
  | |- within ?R (snapshot _) => apply (within_snapshot R)
  | |- within ?R (stat _) => apply (within_stat R)
  | |- within ?R get_yymm => apply (within_get_yymm R)
  | |- _ => within_step
  end.

Lemma within_run_probes R `{!Tolerant R} x : within R (run_probes x).
Proof. unfold run_probes. repeat within_call. Qed.

Lemma within_base_container_hack R `{!Tolerant R} x cont : within R (base_container_hack x cont).
Proof. unfold base_container_hack. repeat case_decide; repeat within_call. Qed.

Lemma within_write_file p c : within (outside_store p) (write_file p c).
Proof.
  intros w. repeat split. intros q Hq. simpl. by rewrite lookup_insert_ne.
Qed.

Lemma within_open_for_writing R `{!Tolerant R} p : within R (open_for_writing p).
Proof.
  intros w. unfold open_for_writing.
  destruct (can_create w p); apply tolerant_refl.
Qed.

Lemma within_to_json_file x : within (outside_store (datafile x)) (to_json_file x).
Proof.
  unfold to_json_file.
  apply (within_bind _); [apply (within_open_for_writing _)|intros _].
  apply (within_bind _); [apply (within_snapshot _)|intros doc].
  destruct (decide (encodable doc)); [apply within_write_file|].
  apply (within_bind _); [apply within_write_file|intros _].
  apply (within_raise _).
Qed.

Lemma within_bind_with R `{!Tolerant R} {A B} (Q : A → Prop)
    (m : M A) (k : A → M B) :
  within R m → (∀ w a w', m w = (Ok a, w') → Q a) →
  (∀ a, Q a → within R (k a)) → within R (m ≫= k).
Proof.
  intros Hm HQ Hk w. rewrite run_bind. specialize (Hm w).
  destruct (m w) as [[a|e] w'] eqn:Hrun; simpl in *; [|done].
  eapply tolerant_trans; [done|]. eapply Hk, HQ, Hrun.
Qed.

(** To show [P] of a sequence run from [w], a world that [R] relates to
    [w0]: show it of an exception raised in any world that [R] relates to
    [w0], and of what follows the first step in any such world. *)
Lemma bind_from R `{!Tolerant R} {A B} (m : M A) (k : A → M B)
    (P : res B * world → Prop) w0 w :
  R w0 w → R w (m w).2 →
  (∀ e w', R w0 w' → P (Raise e, w')) →
  (∀ a w', m w = (Ok a, w') → R w0 w' → P (k a w')) →
  P ((m ≫= k) w).
Proof.
  intros HR Hm Hraise Hok. rewrite run_bind.
  destruct (m w) as [[a|e] w'] eqn:Hrun; simpl in Hm.
  - apply Hok; [done|]. by eapply tolerant_trans.
  - apply Hraise. by eapply tolerant_trans.
Qed.

Ltac bind_from R HR :=
  lazymatch goal with
  | |- context [(?m ≫= ?k) ?w] =>
      pattern ((m ≫= k) w);
      lazymatch goal with
      | |- ?P _ => refine (bind_from R m k P _ w HR _ _ _); cbv beta
      end
  end.

(** ** One image *)

Lemma run_init name rel file frc w :
  __init__ name rel file frc w
  = (Ok {| container_name := name; release := rel;
           contdata := length (heap w);
           data := {[ name := {[ rel := length (heap w) ]} ]};
           datafile := file; force := frc; container := None |},
     set_heap (λ h, h ++ [∅]) w).
Proof. reflexivity. Qed.

(** [from_json] returns, or the file does not hold a store document; it
    changes neither the names nor the file of the extractor, it only makes
    new objects, and it leaves the working record the stored one. *)
Lemma from_json_outcome x w :
  from_json x w = (Raise JSONDecodeError, w) ∨
  ∃ x' ext,
    from_json x w = (Ok x', set_heap (λ h, h ++ ext) w) ∧
    container_name x' = container_name x ∧ release x' = release x ∧
    datafile x' = datafile x ∧ force x' = force x ∧
    container x' = container x ∧
    (linked (heap w) x → linked (heap w ++ ext) x').
Proof.
  destruct (fs w !! datafile x) as [[b t]|] eqn:Hfile.
  - destruct b as [doc| | |].
    + destruct (from_json_present x w doc t Hfile)
        as (x1 & ext & Hrun & ? & ? & ? & ? & ? & _ & ? & _).
      right. by exists x1, ext.
    + left. by rewrite (from_json_not_json x w _ Hfile).
    + left. by rewrite (from_json_not_json x w _ Hfile).
    + left. by rewrite (from_json_not_json x w _ Hfile).
  - right. exists x, []. rewrite from_json_absent, set_heap_app_nil by done.
    split_and!; try done. by rewrite app_nil_r.
Qed.

Lemma from_json_keeps_datafile x w x' w' :
  from_json x w = (Ok x', w') → datafile x' = datafile x.
Proof.
  intros Hrun. destruct (from_json_outcome x w)
    as [Hraise|(x1 & ext & Hrun' & _ & _ & ? & _)]; [congruence|].
  rewrite Hrun' in Hrun. by simplify_eq.
Qed.

(** [already_present] reads and changes nothing. *)
Lemma run_already_present x w :
  already_present x w
  = (Ok (bool_decide (is_Some (fs w !! datafile x)) &&
         from_option (λ l, negb (size (heap w !!! l) <? 1)) false
           (entry (data x) (container_name x) (release x))), w).
Proof.
  unfold already_present, path_exists, entry. rewrite run_bind. simpl.
  destruct (bool_decide (is_Some (fs w !! datafile x))); simpl; [|done].
  destruct (data x !! container_name x) as [m|] eqn:Hm; simpl; [|done].
  rewrite run_bind. simpl.
  destruct (m !! release x) as [l|] eqn:Hl; simpl; [|done].
  unfold mbind, M_bind, mret, M_ret. simpl. rewrite Hl. simpl.
  by destruct (size (heap w !!! l) <? 1).
Qed.

Lemma within_process a sniptext jsonfile version frc cont :
  within (outside_store (fspath jsonfile))
    (process a sniptext jsonfile version frc cont).
Proof.
  set (R := outside_store (fspath jsonfile)).
  unfold process. apply (within_bind R); [apply (within_info R)|intros _].
  apply (within_bind_with R (λ x, datafile x = fspath jsonfile)).
  { apply (within_init R). }
  { intros w x w' Hrun. rewrite run_init in Hrun. by simplify_eq. }
  intros x0 Hx0.
  apply (within_bind_with R (λ x, datafile x = fspath jsonfile)).
  { apply (within_from_json R). }
  { intros w x w' Hrun. apply from_json_keeps_datafile in Hrun. congruence. }
  intros x Hx.
  apply (within_bind R); [apply (within_already_present R)|intros present].
  destruct (present && negb frc); [within_tac|].
  apply (within_managed_container R). intros [c|]; [|within_tac].
  apply (within_bind R); [apply (within_info R)|intros _].
  apply (within_bind R); [apply (within_insert_snippets R)|intros _].
  apply (within_bind R); [apply (within_insert_snippet R)|intros _].
  apply (within_bind R); [apply (within_run_probes R)|intros _].
  apply (within_bind R); [apply (within_base_container_hack R)|intros _].
  apply (within_bind R).
  { unfold R. rewrite <-Hx. apply (within_to_json_file (use_container x c)). }
  intros _. within_tac.
Qed.

Lemma within_process_all a sniptext jsonfile version frc conts xtr :
  within (outside_store (fspath jsonfile))
    (process_all a sniptext jsonfile version frc conts xtr).
Proof.
  revert xtr. induction conts as [|cont conts IH]; intros xtr; simpl.
  - apply (within_mret _).
  - apply (within_bind _); [apply within_process|intros x]. apply IH.
Qed.

Lemma size_lt_1 (rec : record) : (size rec <? 1) = bool_decide (rec = ∅).
Proof.
  case_bool_decide as Hrec.
  - subst. by rewrite map_size_empty.
  - apply Nat.ltb_ge. destruct (decide (size rec = 0)) as [Hz|]; [|lia].
    by apply map_size_empty_iff in Hz.
Qed.

(** X1.  A container whose release has a record with a field in the store
    file is skipped when [force] is off: [process] returns without looking
    for the image, and changes nothing but objects and the log, where it
    leaves the line that says so. *)
Theorem stored_container_is_skipped a sniptext jsonfile version cont w doc t rec :
  fs w !! fspath jsonfile = Some {| body := Json doc; st_mtime := t |} →
  entry doc (ngc_base +:+ cont) version = Some rec → rec ≠ ∅ →
  ∃ x w',
    process a sniptext jsonfile version false cont w = (Ok x, w') ∧
    only_objects w w' ∧
    log w' = log w ++
      [Info ("Extracting information from: "
             +:+ ngc_base +:+ cont +:+ ":" +:+ version);
       Info "...skipping because container is already in data."].
Proof.
  intros Hfile Hrec Hne. unfold process.
  erewrite run_bind_ok by reflexivity.
  erewrite run_bind_ok by apply run_init.
  match goal with
  | |- context [(from_json ?x ≫= _) ?w] =>
      destruct (from_json_present x w doc t Hfile)
        as (x1 & ext & Hrun & Hc & Hr & Hdf & Hf & _ & _ & [Hlink Hlt] & _ & _ & Hcd)
  end.
  erewrite run_bind_ok by exact Hrun.
  rewrite run_bind, run_already_present. cbv beta iota.
  match goal with
  | |- context [if ?b then _ else _] => assert (b = true) as ->
  end.
  { simpl in Hdf, Hcd, Hlink. rewrite Hdf, Hlink. simpl.
    rewrite Hrec in Hcd. simpl in Hcd.
    rewrite Hcd, size_lt_1, (bool_decide_false (rec = ∅)) by done.
    rewrite bool_decide_true by (rewrite Hfile; eauto). done. }
  eexists _, _. split; [reflexivity|]. split; [by repeat split|].
  simpl. by rewrite <-(assoc_L (++)).
Qed.

(** When the image cannot be started, [process] changes nothing but
    objects and the log: no file is written.  It returns normally, unless
    the store file is there and does not hold a store document. *)
Lemma process_without_image a sniptext jsonfile version frc cont w :
  images w (ngc_base +:+ cont +:+ ":" +:+ version) = None →
  ∃ w',
    only_objects w w' ∧
    (process a sniptext jsonfile version frc cont w
     = (Raise JSONDecodeError, w') ∨
     ∃ x, process a sniptext jsonfile version frc cont w = (Ok x, w')).
Proof.
  intros Himg. unfold process.
  erewrite run_bind_ok by reflexivity.
  erewrite run_bind_ok by apply run_init.
  match goal with
  | |- context [(from_json ?x ≫= _) ?w] =>
      destruct (from_json_outcome x w) as [Hrun|(x1 & ext & Hrun & _)]
  end.
  { eexists. split; [|left; by erewrite run_bind_raise by exact Hrun].
    by repeat split. }
  erewrite run_bind_ok by exact Hrun.
  rewrite run_bind, run_already_present. cbv beta iota.
  match goal with
  | |- context [if ?b then _ else _] => destruct b
  end.
  - eexists. split; [|right; eexists; reflexivity]. by repeat split.
  - unfold managed_container.
    match goal with
    | |- context [images ?w' ?i] => change (images w' i) with (images w i)
    end.
    rewrite Himg.
    eexists. split; [|right; eexists; reflexivity]. by repeat split.
Qed.

Lemma managed_container_world {A} img (body : option container_handle → M A) w :
  (managed_container img body w).2 = (body (images w img) w).2.
Proof.
  unfold managed_container. destruct (images w img) as [c|]; [|done].
  destruct (body (Some c) w) as [[?|?] ?]; [|done]. by destruct (stops c).
Qed.

(** How [managed_container] ends in an exception: the body raised and there
    is a container, the body returned and the container did not stop, or
    there is no container and the body raised this exception. *)
Lemma managed_container_raise {A} img (body : option container_handle → M A)
    w e :
  (managed_container img body w).1 = Raise e →
  match images w img with
  | Some c =>
      (e = RuntimeError ∧ ∃ e', (body (Some c) w).1 = Raise e') ∨
      (e = APIError ∧ stops c = false ∧ ∃ a, (body (Some c) w).1 = Ok a)
  | None => (body None w).1 = Raise e
  end.
Proof.
  unfold managed_container. destruct (images w img) as [c|]; [|done].
  destruct (body (Some c) w) as [[a|e'] ?]; simpl.
  - destruct (stops c) eqn:Hstop; [done|]. intros [= <-]. right. eauto.
  - intros [= <-]. left. eauto.
Qed.

(** X2.  How a turn of the loop that ends in an exception leaves the store
    file.  Either nothing but objects and the log has changed: no file was
    written.  Or the save met a value that it could not encode: the
    [TypeError] left the [with] block as a [RuntimeError], and the store file
    holds the beginning of a JSON text.  Or the save was complete and
    stopping the container raised: the store file holds the whole document.
    No other file has changed in any case. *)
Theorem failed_image_and_the_store a sniptext jsonfile version frc cont w e :
  let p := fspath jsonfile in
  let w' := (process a sniptext jsonfile version frc cont w).2 in
  (process a sniptext jsonfile version frc cont w).1 = Raise e →
  outside_store p w w' ∧
  (only_objects w w' ∨
   (e = RuntimeError ∧
    ∃ doc, body <$> fs w' !! p = Some (Partial doc) ∧ ¬ encodable doc) ∨
   (e = APIError ∧
    ∃ doc, body <$> fs w' !! p = Some (Json doc) ∧ encodable doc)).
Proof.
  intros p w' Hraise. split; [apply within_process|]. subst w'.
  revert Hraise.
  assert (only_objects w w) as HR by apply tolerant_refl.
  unfold process.
  bind_from only_objects HR;
    [apply (within_info _)|by left|clear HR; intros _ w1 _ HR].
  bind_from only_objects HR;
    [apply (within_init _)|by left|clear HR; intros x0 w2 Hinit HR].
  rewrite run_init in Hinit.
  assert (datafile x0 = p) as Hx0 by (by simplify_eq). clear Hinit.
  bind_from only_objects HR;
    [apply (within_from_json _)|by left|clear HR; intros x w3 Hload HR].
  apply from_json_keeps_datafile in Hload. rewrite Hx0 in Hload. clear x0 Hx0.
  bind_from only_objects HR;
    [apply (within_already_present _)|by left|clear HR; intros b w4 _ HR].
  destruct (b && negb frc); [done|].
  rewrite managed_container_world.
  intros Hraise%managed_container_raise. revert Hraise.
  destruct (images w4 _) as [c|]; [|done].
  bind_from only_objects HR;
    [apply (within_info _)|by left|clear HR; intros _ w5 _ HR].
  bind_from only_objects HR;
    [apply (within_insert_snippets _)|by left|clear HR; intros _ w6 _ HR].
  bind_from only_objects HR;
    [apply (within_insert_snippet _)|by left|clear HR; intros _ w7 _ HR].
  bind_from only_objects HR;
    [apply (within_run_probes _)|by left|clear HR; intros _ w8 _ HR].
  bind_from only_objects HR;
    [apply (within_base_container_hack _)|by left|clear HR; intros _ w9 _ HR].
  rewrite run_bind.
  destruct (can_create w9 (datafile (use_container x c))) eqn:Hopen.
  2:{ rewrite run_to_json_file_closed by done. by left. }
  rewrite run_to_json_file by done.
  destruct (decide (encodable (dump (heap w9) (data (use_container x c)))))
    as [Hdoc|Hdoc].
  - intros [(_ & e' & [=])|(-> & _ & _)]. right. right. split; [done|].
    eexists. split; [|exact Hdoc].
    cbn [datafile use_container]. rewrite Hload. simpl.
    by rewrite lookup_insert_eq.
  - intros [(-> & _)|(_ & _ & a' & [=])]. right. left. split; [done|].
    eexists. split; [|exact Hdoc].
    cbn [datafile use_container]. rewrite Hload. simpl.
    by rewrite lookup_insert_eq.
Qed.

(** ** The run *)

Lemma stat_mtime_Ok q w t w' :
  stat_mtime q w = (Ok t, w') → w' = w ∧ st_mtime <$> fs w !! q = Some t.
Proof.
  unfold stat_mtime. destruct (fs w !! q) as [f|]; simpl; [|done].
  by intros [= <- <-].
Qed.

Lemma run_gets {A B} (f : world → A) (k : A → M B) w :
  (gets f ≫= k) w = k (f w) w.
Proof. reflexivity. Qed.

(** A run is a part that stays off the repository and off every file but
    the store, and then, when the store file has a new time stamp and
    [SKIP_PR] is not set, [open_pr]. *)
Lemma main_outcome scriptdir a w :
  let p := store_path scriptdir a in
  outside_store p w (main scriptdir a w).2 ∨
  ∃ w1 version,
    outside_store p w w1 ∧ given (arg_file a) = None ∧
    environ w !! "SKIP_PR" = None ∧
    st_mtime <$> fs w1 !! p ≠ st_mtime <$> fs w !! p ∧
    main scriptdir a w
    = open_pr (default "NVIDIA-Merlin/Merlin" (environ w !! "REPO")) p
        version w1.
Proof.
  intros p. set (R := outside_store p).
  assert (R w w) as HR by apply tolerant_refl.
  unfold main. cbv zeta.
  bind_from R HR; [apply (within_stat R)|by left|clear HR].
  intros t0 w0 [-> Ht0]%stat_mtime_Ok HR.
  bind_from R HR; [|by left|clear HR; intros version w1 _ HR].
  { destruct (given (arg_version a));
      [apply (within_mret R)|apply (within_get_yymm R)]. }
  bind_from R HR;
    [apply (within_load_snippets R)|by left|clear HR; intros sn w2 _ HR].
  bind_from R HR;
    [apply (within_check_snippets R)|by left|clear HR; intros _ w3 _ HR].
  bind_from R HR;
    [apply within_process_all|by left|clear HR; intros xtr w4 _ HR].
  bind_from R HR;
    [apply (within_from_opt R)|by left|clear HR; intros x w5 _ HR].
  bind_from R HR;
    [apply (within_snapshot R)|by left|clear HR; intros doc w6 _ HR].
  bind_from R HR;
    [apply (within_set_log R)|by left|clear HR; intros _ w7 _ HR].
  bind_from R HR; [apply (within_stat R)|by left|clear HR].
  intros t1 w8 Hstat HR.
  rewrite run_gets.
  assert (environ w8 = environ w) as Henv by apply HR. rewrite Henv.
  destruct (negb (t1 =? t0)%Z) eqn:Hmt; [|left; exact HR].
  case_bool_decide as Hskip; [|left; exact HR].
  right. exists w8, version. unfold R, p, store_path in *.
  destruct (given (arg_file a)) as [f|] eqn:Hfile; [discriminate Hstat|].
  apply stat_mtime_Ok in Hstat as [-> Ht1].
  split; [exact HR|]. split; [reflexivity|]. split; [exact Hskip|]. split.
  - cbn [from_option fspath]. rewrite Ht0, Ht1. intros [= ->].
    by rewrite Z.eqb_refl in Hmt.
  - cbn [andb]. by rewrite run_gets, Henv.
Qed.

(** *** What open_pr can touch *)

Lemma within_get_repo R `{!Tolerant R} repo : within R (get_repo repo).
Proof. intros w. unfold get_repo. apply (within_from_opt R). Qed.

Lemma within_put_repo R `{!Remote R} repo r : within R (put_repo repo r).
Proof. intros w. apply remote_hub. Qed.

Ltac within_hub :=
  lazymatch goal with
  | |- within ?R (get_repo _) => apply (within_get_repo R)
  | |- within ?R (put_repo _ _) => apply (within_put_repo R)
  | |- _ => within_step
  end.

Ltac within_hub_tac := repeat (first [ within_hub | case_match; simplify_eq ]).

Lemma within_get_branch_sha R `{!Tolerant R} repo name :
  within R (get_branch_sha repo name).
Proof. unfold get_branch_sha. within_hub_tac. Qed.

Lemma within_create_git_ref R `{!Tolerant R, !Remote R} repo ref sha :
  within R (create_git_ref repo ref sha).
Proof. unfold create_git_ref. within_hub_tac. Qed.

Lemma within_tree_at R `{!Tolerant R} repo ref : within R (tree_at repo ref).
Proof. unfold tree_at. within_hub_tac. Qed.

Lemma within_get_contents R `{!Tolerant R} repo path ref :
  within R (get_contents repo path ref).
Proof.
  unfold get_contents.
  apply (within_bind R); [apply (within_tree_at R)|intros t]. within_hub_tac.
Qed.

Lemma within_update_file R `{!Tolerant R, !Remote R} repo path msg new br sha :
  within R (update_file repo path msg new br sha).
Proof.
  unfold update_file.
  apply (within_bind R); [apply (within_tree_at R)|intros t]. within_hub_tac.
Qed.

Lemma within_compare R `{!Tolerant R} repo base head :
  within R (compare repo base head).
Proof. unfold compare. within_hub_tac. Qed.

Lemma within_delete_ref R `{!Tolerant R, !Remote R} repo ref :
  within R (delete_ref repo ref).
Proof. unfold delete_ref. within_hub_tac. Qed.

Lemma within_create_pull R `{!Tolerant R, !Remote R} repo title body head base :
  within R (create_pull repo title body head base).
Proof. unfold create_pull. within_hub_tac. Qed.

Lemma within_create_branch R `{!Tolerant R, !Remote R} fuel repo pr :
  ∀ counter, within R (create_branch fuel repo pr counter).
Proof.
  induction fuel as [|fuel IH]; intros counter; simpl;
    [apply (within_raise R)|].
  apply (within_bind R).
  { apply (within_attempt R).
    apply (within_bind R); [apply (within_get_branch_sha R)|intros sha].
    apply (within_create_git_ref R). }
  intros [ref|e]; [within_hub_tac|].
  destruct e; try apply (within_raise R).
  apply (within_bind R); [apply (within_info R)|intros _].
  destruct (25 <? S counter); [within_hub_tac|apply IH].
Qed.

Local Opaque create_branch.

Lemma within_open_pr R `{!Tolerant R, !Remote R} repo path release :
  within R (open_pr repo path release).
Proof.
  unfold open_pr. apply (within_bind R); [apply (within_gets R)|intros token].
  destruct token as [token|]; [|apply (within_info R)].
  apply (within_bind R); [apply (within_read_file R)|intros content].
  apply (within_bind R); [apply (within_get_repo R)|intros _].
  apply (within_bind R); [apply (within_create_branch R)|intros ref].
  apply (within_bind R); [apply (within_get_contents R)|intros f].
  apply (within_bind R); [apply (within_update_file R)|intros commit].
  apply (within_bind R); [apply (within_get_branch_sha R)|intros sha].
  apply (within_bind R); [apply (within_compare R)|intros files].
  destruct (length files =? 0).
  - apply (within_bind R); [apply (within_info R)|intros _].
    apply (within_delete_ref R).
  - apply (within_try_except R).
    + apply (within_bind R); [apply (within_create_pull R)|intros url].
      apply (within_info R).
    + intros e h [= <-]. apply (within_info R).
Qed.

Local Transparent create_branch.

(** *** The run and its surroundings *)

(** X3.  Whatever happens in it, a run leaves the environment as it was and
    changes no file but the store file: the snippets file, for one, is only
    read. *)
Theorem main_writes_only_the_store scriptdir a w :
  environ (main scriptdir a w).2 = environ w ∧
  ∀ q, q ≠ store_path scriptdir a →
       fs (main scriptdir a w).2 !! q = fs w !! q.
Proof.
  destruct (main_outcome scriptdir a w)
    as [HR|(w1 & version & HR & _ & _ & _ & ->)].
  - by destruct HR as (_ & ? & _ & _ & ?).
  - destruct HR as (_ & Henv & _ & _ & Hq).
    match goal with
    | |- context [open_pr ?repo ?p ?v w1] =>
        destruct (within_open_pr same_files repo p v w1) as (Hfs & Henv' & _)
    end.
    split; [congruence|]. intros q Hne. rewrite Hfs. by apply Hq.
Qed.

(** X4.  A run leaves the repository alone when [SKIP_PR] is set, whatever
    its value, when there is no [GH_TOKEN], and when the store file is given
    with [--file]. *)
Theorem main_leaves_repository scriptdir a w :
  is_Some (environ w !! "SKIP_PR") ∨ environ w !! "GH_TOKEN" = None
  ∨ is_Some (given (arg_file a)) →
  hub (main scriptdir a w).2 = hub w.
Proof.
  intros Hwhy.
  destruct (main_outcome scriptdir a w)
    as [HR|(w1 & version & HR & Hfile & Hskip & _ & ->)]; [apply HR|].
  destruct HR as (Hhub & Henv & _).
  destruct Hwhy as [[v Hv]|[Htoken|[f Hf]]]; [congruence| |congruence].
  unfold open_pr. rewrite run_gets, Henv, Htoken. exact Hhub.
Qed.

(** X5.  With [--file] a run never returns normally: the store file is then
    a [str], and asking for its time stamp at the end raises, if nothing
    did before. *)
Theorem file_option_ends_in_exception scriptdir a w :
  is_Some (given (arg_file a)) → ∃ e, (main scriptdir a w).1 = Raise e.
Proof.
  intros [f Hfile]. set (R := outside_store f).
  assert (R w w) as HR by apply tolerant_refl.
  unfold main. cbv zeta. rewrite Hfile. cbn [from_option].
  bind_from R HR;
    [apply (within_stat R)|by eauto|clear HR; intros t0 w0 _ HR].
  bind_from R HR; [|by eauto|clear HR; intros version w1 _ HR].
  { destruct (given (arg_version a));
      [apply (within_mret R)|apply (within_get_yymm R)]. }
  bind_from R HR;
    [apply (within_load_snippets R)|by eauto|clear HR; intros sn w2 _ HR].
  bind_from R HR;
    [apply (within_check_snippets R)|by eauto|clear HR; intros _ w3 _ HR].
  bind_from R HR;
    [apply (within_process_all _ _ (PlainStr f))|by eauto
    |clear HR; intros xtr w4 _ HR].
  bind_from R HR;
    [apply (within_from_opt R)|by eauto|clear HR; intros x w5 _ HR].
  bind_from R HR;
    [apply (within_snapshot R)|by eauto|clear HR; intros doc w6 _ HR].
  bind_from R HR;
    [apply (within_set_log R)|by eauto|clear HR; intros _ w7 _ HR].
  by eexists.
Qed.

Lemma process_all_without_images a sniptext jsonfile version frc conts :
  ∀ xtr w,
    (∀ img, images w img = None) →
    only_objects w
      (process_all a sniptext jsonfile version frc conts xtr w).2.
Proof.
  induction conts as [|cont conts IH]; intros xtr w Himg; simpl.
  - apply tolerant_refl.
  - rewrite run_bind.
    destruct (process_without_image a sniptext jsonfile version frc cont w
                (Himg _)) as (w' & HR & [->|[x ->]]); [done|].
    eapply tolerant_trans; [exact HR|]. apply IH. intros img.
    destruct HR as (_ & _ & _ & _ & Hi & _). by rewrite Hi.
Qed.

(** X6.  When none of the images can be started, a run changes nothing but
    objects and the log, whatever else happens: the store file is as it was,
    time stamp and all, and the repository is not touched. *)
Theorem run_without_images_changes_nothing scriptdir a w :
  (∀ img, images w img = None) → only_objects w (main scriptdir a w).2.
Proof.
  intros Himg. set (R := only_objects).
  assert (R w w) as HR by apply tolerant_refl.
  unfold main. cbv zeta.
  bind_from R HR; [apply (within_stat R)|by intros|clear HR].
  intros t0 w0 [-> Ht0]%stat_mtime_Ok HR.
  bind_from R HR; [|by intros|clear HR; intros version w1 _ HR].
  { destruct (given (arg_version a));
      [apply (within_mret R)|apply (within_get_yymm R)]. }
  bind_from R HR;
    [apply (within_load_snippets R)|by intros|clear HR; intros sn w2 _ HR].
  bind_from R HR;
    [apply (within_check_snippets R)|by intros|clear HR; intros _ w3 _ HR].
  bind_from R HR; [|by intros|clear HR; intros xtr w4 _ HR].
  { apply process_all_without_images. intros img.
    destruct HR as (_ & _ & _ & _ & Hi & _). by rewrite Hi. }
  bind_from R HR;
    [apply (within_from_opt R)|by intros|clear HR; intros x w5 _ HR].
  bind_from R HR;
    [apply (within_snapshot R)|by intros|clear HR; intros doc w6 _ HR].
  bind_from R HR;
    [apply (within_set_log R)|by intros|clear HR; intros _ w7 _ HR].
  bind_from R HR; [apply (within_stat R)|by intros|clear HR].
  intros t1 w8 Hstat HR. rewrite run_gets.
  destruct (given (arg_file a)) as [f|]; [discriminate Hstat|].
  apply stat_mtime_Ok in Hstat as [-> Ht1].
  assert (t1 = t0) as ->.
  { destruct HR as (Hfs & _). rewrite Hfs in Ht1. congruence. }
  rewrite Z.eqb_refl. exact HR.
Qed.

Lemma run_stat_mtime q w f :
  fs w !! q = Some f → stat_mtime q w = (Ok (st_mtime f), w).
Proof. intros Hf. unfold stat_mtime. by rewrite Hf. Qed.

Lemma run_load_snippets p w m t :
  fs w !! p = Some {| body := Yaml m; st_mtime := t |} →
  load_snippets p w = (Ok m, w).
Proof.
  intros Hf. unfold load_snippets, read_file. rewrite run_bind. by rewrite Hf.
Qed.

Lemma check_snippets_fails sniptext ks w k :
  k ∈ ks → (∀ v, sniptext !! k = Some v → truthy v = false) →
  ∃ e, check_snippets sniptext ks w = (Raise e, w) ∧
       (e = AssertionError ∨ ∃ k', k' ∈ ks ∧ e = KeyError k').
Proof.
  intros Hk Hbad. induction ks as [|k0 ks IH]; [by apply elem_of_nil in Hk|].
  simpl. rewrite run_bind.
  destruct (sniptext !! k0) as [v|] eqn:Hv; simpl.
  - destruct (truthy v) eqn:Htrue.
    + apply elem_of_cons in Hk as [->|Hk].
      { rewrite (Hbad v Hv) in Htrue. done. }
      destruct (IH Hk) as (e & Hrun & [He|(k' & Hk' & He)]).
      * exists e. split; [done|]. by left.
      * exists e. split; [done|]. right. exists k'. split; [|done].
        by apply elem_of_cons; right.
    + exists AssertionError. split; [done|]. by left.
  - exists (KeyError k0). split; [done|]. right. exists k0.
    split; [|done]. by apply elem_of_cons; left.
Qed.

(** X7.  The snippets are checked before any image is looked at.  When the
    snippets file lacks one of the standard snippets, or has it with a value
    that counts as false, the run ends there, in a [KeyError] for a standard
    snippet or in an [AssertionError], and nothing at all has changed. *)
Theorem main_requires_standard_snippets scriptdir a w f m t k :
  fs w !! (scriptdir +:+ "/data.json") = Some f →
  fs w !! default (scriptdir +:+ "/snippets.yaml") (given (arg_snippets a))
  = Some {| body := Yaml m; st_mtime := t |} →
  k ∈ standard_snippets →
  (∀ v, m !! k = Some v → truthy v = false) →
  ∃ e, main scriptdir a w = (Raise e, w) ∧
       (e = AssertionError ∨ ∃ k', k' ∈ standard_snippets ∧ e = KeyError k').
Proof.
  intros Hdata Hsnip Hk Hbad.
  destruct (check_snippets_fails m standard_snippets w k Hk Hbad)
    as (e & Hrun & He).
  exists e. split; [|done]. unfold main. cbv zeta.
  erewrite run_bind_ok by (apply run_stat_mtime; exact Hdata).
  rewrite run_bind.
  assert (match given (arg_version a) with
          | Some v => mret v
          | None => get_yymm
          end w = (Ok (default (today w) (given (arg_version a))), w)) as ->.
  { by destruct (given (arg_version a)). }
  cbv beta iota.
  erewrite run_bind_ok by (eapply run_load_snippets; exact Hsnip).
  by erewrite run_bind_raise by exact Hrun.
Qed.

(** ** Publishing *)

Local Opaque create_branch.

Lemma run_open_pr_start repo path release w tok f r :
  environ w !! "GH_TOKEN" = Some tok →
  fs w !! path = Some f →
  hub w !! repo = Some r →
  open_pr repo path release w =
  (remote_ref ← create_branch 25 repo (scratch_prefix release) 1;
   f' ← get_contents repo path remote_ref;
   commit ← update_file repo (fst f') "Updates from containers" (body f)
              remote_ref (snd f');
   main_sha ← get_branch_sha repo "main";
   files ← compare repo main_sha commit;
   if (length files =? 0)%nat then
     info "No changes to commit.";;
     delete_ref repo remote_ref
   else
     try_except
       (url ← create_pull repo ("Support matrix updates for " +:+ release)
                "Updates from containers" remote_ref "main";
        info ("Opened PR: '" +:+ url +:+ "'"))
       (λ e, Some (info "Failed to open PR"))) w.
Proof.
  intros Htok Hf Hrepo. unfold open_pr. rewrite run_gets, Htok.
  rewrite run_bind. unfold read_file. rewrite Hf.
  change (from_opt (FileNotFoundError path) (body <$> Some f) w)
    with (Ok (body f), w).
  cbv beta iota. rewrite run_bind. unfold get_repo at 1. rewrite Hrepo.
  reflexivity.
Qed.

Lemma run_get_contents_missing repo path ref w r sha t :
  hub w !! repo = Some r → refs r !! ref = Some sha →
  commits r !! sha = Some t → t !! path = None →
  get_contents repo path ref w = (Raise GithubException, w).
Proof.
  intros Hrepo Hsha Ht Hblob. unfold get_contents, tree_at, get_repo.
  run_monad. rewrite Hrepo. run_monad. rewrite Hsha. run_monad.
  rewrite Ht. run_monad. by rewrite Hblob.
Qed.

(** X8.  When the base branch does not have the store file at the path that
    is to be published, [open_pr] ends in the exception of the host, after
    it has made the scratch branch: the branch stays behind in the
    repository, which is otherwise as it was. *)
Theorem missing_path_leaves_scratch_branch
    repo path release w r sha tok f t N :
  environ w !! "GH_TOKEN" = Some tok →
  fs w !! path = Some f →
  hub w !! repo = Some r →
  refs r !! "refs/heads/main" = Some sha →
  commits r !! sha = Some t →
  t !! path = None →
  (∀ i, 1 ≤ i ≤ N → is_Some (refs r !! branch_ref (scratch_prefix release) i)) →
  refs r !! branch_ref (scratch_prefix release) (S N) = None →
  N < 25 →
  ∃ w',
    open_pr repo path release w = (Raise GithubException, w') ∧
    hub w' = <[repo := set_refs
                         (insert (branch_ref (scratch_prefix release) (S N)) sha)
                         r]> (hub w).
Proof.
  intros Htok Hf Hrepo Hmain Ht Hblob Htaken Hfree HN.
  destruct (create_branch_skips repo (scratch_prefix release) r sha Hmain
              N 1 25 w) as (w1 & Hrun & Hhub1 & _);
    [done|intros i Hi; apply Htaken; lia|done|lia|lia|].
  change (1 + N) with (S N) in Hrun, Hhub1.
  rewrite (run_open_pr_start _ _ _ _ tok f r) by done.
  rewrite run_bind, Hrun. exists w1. split; [|done].
  erewrite run_bind_raise; [done|].
  eapply run_get_contents_missing;
    [rewrite Hhub1; apply lookup_insert_eq
    |simpl; apply lookup_insert_eq|exact Ht|done].
Qed.

(** X9.  When the host refuses the pull request, [open_pr] returns normally
    all the same.  The request is not there, and the scratch branch stays
    behind with the commit that holds the new content. *)
Theorem refused_pull_is_swallowed repo path release w r sha tok f t blob N :
  environ w !! "GH_TOKEN" = Some tok →
  fs w !! path = Some f →
  hub w !! repo = Some r →
  refs r !! "refs/heads/main" = Some sha →
  commits r !! sha = Some t →
  t !! path = Some blob →
  (∀ i, 1 ≤ i ≤ N → is_Some (refs r !! branch_ref (scratch_prefix release) i)) →
  refs r !! branch_ref (scratch_prefix release) (S N) = None →
  N < 25 →
  blob ≠ body f →
  refuses_pulls r = true →
  ∃ w' r',
    open_pr repo path release w = (Ok (), w') ∧
    hub w' !! repo = Some r' ∧
    pulls r' = pulls r ∧
    refs r' !! branch_ref (scratch_prefix release) (S N)
    = Some (length (commits r)) ∧
    commits r' !! length (commits r) = Some (<[path := body f]> t).
Proof.
  intros Htok Hf Hrepo Hmain Ht Hblob Htaken Hfree HN Hnew Hrefuse.
  destruct (run_open_pr repo path release w r sha tok f t blob N)
    as (w' & Hrun & _ & _ & Hhub); try done.
  rewrite decide_False, Hrefuse in Hhub.
  2:{ rewrite diff_files_empty_iff. congruence. }
  eexists w', _. split; [done|]. rewrite Hhub, lookup_insert_eq.
  split; [done|]. simpl. split; [done|]. split.
  - apply lookup_insert_eq.
  - apply app_length_lookup.
Qed.

Local Transparent create_branch.

Lemma run_attempt_no_base repo ref r w :
  hub w !! repo = Some r → refs r !! "refs/heads/main" = None →
  attempt (sha ← get_branch_sha repo "main"; create_git_ref repo ref sha) w
  = (Ok (Raise GithubException), w).
Proof.
  intros Hrepo Hmain. unfold attempt, get_branch_sha, get_repo.
  rewrite !run_bind, Hrepo. simpl.
  change ("refs/heads/" +:+ "main") with "refs/heads/main".
  by rewrite Hmain.
Qed.

Lemma create_branch_no_base repo pr r n : ∀ counter fuel w,
  hub w !! repo = Some r → refs r !! "refs/heads/main" = None →
  counter + n = 25 → n < fuel →
  ∃ w',
    create_branch fuel repo pr counter w = (Raise GithubException, w') ∧
    hub w' = hub w ∧
    log w' = log w ++
      ((λ i, Info ("PR branch '" +:+ branch_ref pr i
                   +:+ "' already exists. Incrementing the counter."))
         <$> seq counter (S n)) ++
      [Info "Failed to create a unique branch name. Giving up."].
Proof.
  induction n as [|n IH]; intros counter fuel w Hrepo Hmain Hle Hfuel.
  - destruct fuel as [|fuel]; [lia|]. rewrite Nat.add_0_r in Hle. subst.
    simpl. fold (branch_ref pr 25).
    rewrite run_bind, (run_attempt_no_base _ _ r) by done. simpl.
    rewrite run_bind. simpl. eexists. split; [reflexivity|]. simpl.
    split; [done|]. by rewrite <-(assoc_L (++)).
  - destruct fuel as [|fuel]; [lia|].
    simpl. fold (branch_ref pr counter).
    rewrite run_bind, (run_attempt_no_base _ _ r) by done. simpl.
    rewrite run_bind. simpl.
    destruct (Nat.ltb_spec 25 (S counter)) as [?|_]; [lia|].
    destruct (IH (S counter) fuel
                (set_log (λ l, l ++ [Info ("PR branch '" +:+ branch_ref pr counter
                   +:+ "' already exists. Incrementing the counter.")]) w))
      as (w' & Hrun & Hhub & Hlog); try done; try lia.
    exists w'. split; [done|]. split; [done|].
    rewrite Hlog. simpl. by rewrite <-(assoc_L (++)).
Qed.

Local Opaque create_branch.

(** X10.  [open_pr] takes every refusal to make the scratch branch for a name
    that is taken.  When the repository has no branch [main], it tries the
    25 names one after the other, says of each that it already exists, and
    gives up with the exception of the host; the repository is as it
    was. *)
Theorem missing_base_branch_is_misreported repo path release w r tok f :
  environ w !! "GH_TOKEN" = Some tok →
  fs w !! path = Some f →
  hub w !! repo = Some r →
  refs r !! "refs/heads/main" = None →
  ∃ w',
    open_pr repo path release w = (Raise GithubException, w') ∧
    hub w' = hub w ∧
    log w' = log w ++
      ((λ i, Info ("PR branch '" +:+ branch_ref (scratch_prefix release) i
                   +:+ "' already exists. Incrementing the counter."))
         <$> seq 1 25) ++
      [Info "Failed to create a unique branch name. Giving up."].
Proof.
  intros Htok Hf Hrepo Hmain.
  destruct (create_branch_no_base repo (scratch_prefix release) r 24 1 25 w)
    as (w' & Hrun & Hhub & Hlog); [done|done|lia|lia|].
  exists w'. split; [|done].
  rewrite (run_open_pr_start _ _ _ _ tok f r) by done.
  by rewrite run_bind, Hrun.
Qed.

Local Transparent create_branch.

(** ** The store file *)

(** X11.  What [to_json_file] writes, a new extractor reads back.  When the
    file can be opened for writing and every value of the store can be
    encoded, [to_json_file], then [__init__] for any container and release
    followed by [from_json], returns normally; the store it holds has every
    record of another container or release as the store that was written had
    it, and its working record is the record written for its own container
    and release, or an empty one when there was none or [force] is set. *)
Theorem store_round_trip x w name rel frc :
  can_create w (datafile x) = true →
  encodable (dump (heap w) (data x)) →
  ∃ x' w2,
    (to_json_file x;; x0 ← __init__ name rel (datafile x) frc; from_json x0) w
    = (Ok x', w2) ∧
    (∀ c r, (c, r) ≠ (name, rel) →
       entry (dump (heap w2) (data x')) c r
       = entry (dump (heap w) (data x)) c r) ∧
    entry (dump (heap w2) (data x')) name rel
    = Some (if frc then ∅
            else default ∅ (entry (dump (heap w) (data x)) name rel)).
Proof.
  intros Hopen Hdoc. rewrite run_bind, run_to_json_file by done.
  destruct (decide (encodable (dump (heap w) (data x)))) as [_|?]; [|done].
  cbv beta iota.
  erewrite run_bind_ok by apply run_init.
  match goal with
  | |- context [from_json ?x0 ?w1] =>
      destruct (from_json_present x0 w1 (dump (heap w) (data x)) (clock w))
        as (x' & ext & Hrun & Hc & Hr & _ & _ & _ & _ & Hlink & _ & Hother & Hcd);
        [apply lookup_insert_eq|]
  end.
  eexists _, _. split; [exact Hrun|]. split; [exact Hother|].
  destruct Hlink as [Hl _]. simpl in Hc, Hr, Hcd. rewrite Hc, Hr in Hl.
  simpl. rewrite entry_dump, Hl. simpl. by rewrite Hcd.
Qed.

(** ** More on the probes *)

Lemma round_half_even_nearest a b :
  (0 ≤ a)%Z → (0 < b)%Z →
  (2 * Z.abs (a - round_half_even a b * b) ≤ b)%Z.
Proof.
  intros Ha Hb. unfold round_half_even.
  pose proof (Z.div_mod a b ltac:(lia)) as Hdiv.
  pose proof (Z.mod_pos_bound a b Hb) as Hmod.
  destruct (Z.ltb_spec (2 * (a mod b)) b); [nia|].
  destruct (Z.ltb_spec b (2 * (a mod b))); [nia|].
  destruct (Z.even (a / b)); nia.
Qed.

Lemma format_gb_whole k : (0 ≤ k)%Z → format_gb (k * 2 ^ 30) = pretty k +:+ ".0".
Proof.
  intros Hk. unfold format_gb, round_half_even.
  rewrite Z.abs_eq by lia.
  destruct (Z.ltb_spec (k * 2 ^ 30) 0) as [?|_]; [lia|].
  replace (100 * (k * 2 ^ 30))%Z with ((100 * k) * 2 ^ 30)%Z by lia.
  rewrite Z.div_mul, Z.mod_mul by lia.
  change (2 * 0 <? 2 ^ 30)%Z with true. cbv iota.
  unfold two_decimals. replace (100 * k)%Z with (k * 100)%Z by lia.
  rewrite Z.mod_mul, Z.div_mul by lia. reflexivity.
Qed.

(** X12.  The size of an image that has the attribute as a byte count [n]
    (below [2 ^ 53], where the division in floating point is exact): the
    probe returns normally and logs nothing, and the field holds, followed
    by [" GB"], a number of hundredths that is as near to [n / 1024 ** 3] as
    a number of hundredths can be.  For a whole number [k] of GiB that is
    [k] with one [0] after the point. *)
Theorem size_is_rounded_gigabytes x c key n w :
  container x = Some c → contdata x < length (heap w) →
  (0 ≤ n < 2 ^ 53)%Z →
  attrs c !! "Size" = Some (VInt n) →
  ∃ w' q,
    get_from_image x "Size" key w = (Ok (), w') ∧ log w' = log w ∧
    (heap w' !!! contdata x) !! default "Size" key
    = Some (VStr (two_decimals q +:+ " GB")) ∧
    (2 * Z.abs (100 * n - q * 2 ^ 30) ≤ 2 ^ 30)%Z ∧
    ∀ k, n = (k * 2 ^ 30)%Z → two_decimals q = pretty k +:+ ".0".
Proof.
  intros Hc Hlt Hn Hattr. unfold get_from_image.
  rewrite run_bind, run_setitem. rewrite run_bind. unfold the_container.
  rewrite Hc. simpl. rewrite Hattr. rewrite run_bind. unfold try_except. simpl.
  eexists _, (round_half_even (100 * n) (2 ^ 30)). split; [reflexivity|].
  simpl. split; [done|]. split; [|split].
  - rewrite !list_lookup_total_alter_eq by (by rewrite ?length_alter).
    rewrite lookup_insert_eq. unfold format_gb.
    destruct (Z.ltb_spec n 0) as [?|_]; [lia|]. by rewrite Z.abs_eq by lia.
  - apply round_half_even_nearest; lia.
  - intros k ->. rewrite <-format_gb_whole by lia. unfold format_gb.
    destruct (Z.ltb_spec (k * 2 ^ 30) 0) as [?|_]; [lia|].
    by rewrite Z.abs_eq by lia.
Qed.

(** X13.  Output that is not valid UTF-8.  The two environment probes and the
    command probe decode the output whatever the status, so they end in
    [UnicodeDecodeError]; the pip probe decodes it only when the status is
    0, and otherwise returns normally. *)
Theorem undecodable_output x c w :
  container x = Some c →
  (∀ path lookup key,
     output (exec_run c (envfile_cmd path lookup)) = None →
     (get_from_envfile x path lookup key w).1 = Raise UnicodeDecodeError) ∧
  (∀ lookup key,
     output (exec_run c (env_cmd lookup)) = None →
     (get_from_env x lookup key w).1 = Raise UnicodeDecodeError) ∧
  (∀ cmd key,
     output (exec_run c (shell_cmd cmd)) = None →
     (get_from_cmd x cmd key w).1 = Raise UnicodeDecodeError) ∧
  (∀ lookup key,
     output (exec_run c (pip_cmd lookup)) = None →
     (get_from_pip x lookup key w).1
     = if (exit_code (exec_run c (pip_cmd lookup)) =? 0)%Z
       then Raise UnicodeDecodeError else Ok ()).
Proof.
  intros Hc. split_and!.
  - intros path lookup key Hout. unfold get_from_envfile, envfile_cmd in *.
    rewrite run_bind, run_setitem. rewrite run_bind. unfold the_container.
    rewrite Hc. simpl. rewrite run_bind. unfold decode. by rewrite Hout.
  - intros lookup key Hout. unfold get_from_env, env_cmd in *.
    rewrite run_bind, run_setitem. rewrite run_bind. unfold the_container.
    rewrite Hc. simpl. rewrite run_bind. unfold decode. by rewrite Hout.
  - intros cmd key Hout. unfold get_from_cmd, shell_cmd in *.
    rewrite run_bind, run_setitem. rewrite run_bind. unfold the_container.
    rewrite Hc. simpl.
    destruct (negb _); rewrite run_bind; unfold decode; by rewrite Hout.
  - intros lookup key Hout. unfold get_from_pip, pip_cmd in *.
    rewrite run_bind, run_setitem. rewrite run_bind. unfold the_container.
    rewrite Hc. simpl.
    destruct (exit_code _ =? 0)%Z; simpl; [|done].
    rewrite run_bind. unfold decode. by rewrite Hout.
Qed.

(** X14.  A probe that is called before [use_container] writes the sentinel
    to its field and ends in [AttributeError]: the extractor has no
    [container]. *)
Theorem probe_without_container x m w :
  container x = None → (∀ key v, m ≠ Snippet key v) →
  apply_mutation x m w
  = (Raise (AttributeError "container"),
     set_heap (alter (insert (mutation_key m) ERROR) (contdata x)) w).
Proof.
  intros Hc Hm.
  destruct m; simpl;
    unfold get_from_envfile, get_from_env, get_from_pip, get_from_image,
      get_from_cmd;
    try (by destruct (Hm key snip));
    rewrite run_bind, run_setitem; rewrite run_bind; unfold the_container;
    by rewrite Hc.
Qed.

(** *** The fields the probes leave *)

Lemma bind_ext {A B} (m : M A) (k k' : A → M B) w :
  (∀ a w', k a w' = k' a w') → (m ≫= k) w = (m ≫= k') w.
Proof. intros Hk. rewrite !run_bind. by destruct (m w) as [[a|e] w']. Qed.

Lemma bind_mret_unit (m : M unit) w : (m ≫= λ _, mret ()) w = m w.
Proof. rewrite run_bind. by destruct (m w) as [[[]|e] w']. Qed.

Lemma run_probes_eq x w : run_probes x w = apply_mutations x probes w.
Proof.
  unfold run_probes, probes. cbn [apply_mutations apply_mutation].
  repeat (apply bind_ext; intros [] ?).
  symmetry. apply bind_mret_unit.
Qed.

Lemma keeps_fields_mret {A} l (a : A) : keeps_fields l (mret a : M A).
Proof. by intros w k. Qed.

Lemma keeps_fields_raise {A} l e : keeps_fields l (raise e : M A).
Proof. by intros w k. Qed.

Lemma keeps_fields_from_opt {A} l e (o : option A) : keeps_fields l (from_opt e o).
Proof. destruct o; [apply keeps_fields_mret|apply keeps_fields_raise]. Qed.

Lemma keeps_fields_info l msg : keeps_fields l (info msg).
Proof. by intros w k. Qed.

Lemma keeps_fields_setitem l l' key v : keeps_fields l (setitem l' key v).
Proof.
  intros w k. simpl. rewrite !list_lookup_total_alt.
  destruct (decide (l' = l)) as [->|Hne].
  - rewrite list_lookup_alter_eq. destruct (heap w !! l) as [rec|]; simpl; [|done].
    intros Hk. destruct (decide (k = key)) as [->|].
    + rewrite lookup_insert_eq. eauto.
    + by rewrite lookup_insert_ne.
  - by rewrite list_lookup_alter_ne.
Qed.

Lemma keeps_fields_bind {A B} l (m : M A) (k : A → M B) :
  keeps_fields l m → (∀ a, keeps_fields l (k a)) → keeps_fields l (m ≫= k).
Proof.
  intros Hm Hk w key Hkey. rewrite run_bind. specialize (Hm w key Hkey).
  destruct (m w) as [[a|e] w']; simpl in *; [|done]. by apply Hk.
Qed.

Lemma keeps_fields_try_except {A} l (m : M A) handler :
  keeps_fields l m → (∀ e h, handler e = Some h → keeps_fields l h) →
  keeps_fields l (try_except m handler).
Proof.
  intros Hm Hh w key Hkey. unfold try_except. specialize (Hm w key Hkey).
  destruct (m w) as [[a|e] w']; simpl in *; [done|].
  destruct (handler e) as [h|] eqn:He; [|done]. by eapply Hh.
Qed.

Ltac keeps_fields_step :=
  lazymatch goal with
  | |- keeps_fields _ (mret _) => apply keeps_fields_mret
  | |- keeps_fields _ (raise _) => apply keeps_fields_raise
  | |- keeps_fields _ (from_opt _ _) => apply keeps_fields_from_opt
  | |- keeps_fields _ (info _) => apply keeps_fields_info
  | |- keeps_fields _ (setitem _ _ _) => apply keeps_fields_setitem
  | |- keeps_fields _ (_ ≫= _) => apply keeps_fields_bind; [|intros ?]
  | |- keeps_fields _ (try_except _ _) =>
      apply keeps_fields_try_except; [|intros ? ? ?]
  | |- keeps_fields _ (let _ := _ in _) => cbv zeta
  end.

Lemma keeps_fields_apply_mutation l x m : keeps_fields l (apply_mutation x m).
Proof.
  destruct m; simpl;
    unfold get_from_envfile, get_from_env, get_from_pip, get_from_image,
      get_from_cmd, insert_snippet, the_container, decode, as_number;
    repeat (first [ keeps_fields_step | case_match; simplify_eq ]).
Qed.

Lemma keeps_fields_apply_mutations l x ms : keeps_fields l (apply_mutations x ms).
Proof.
  induction ms as [|m ms IH]; simpl; [apply keeps_fields_mret|].
  apply keeps_fields_bind; [apply keeps_fields_apply_mutation|done].
Qed.

Lemma sets_key_bind l key v (k : unit → M unit) w :
  l < length (heap w) → keeps_fields l (k ()) →
  is_Some ((heap ((setitem l key v ≫= k) w).2 !!! l) !! key).
Proof.
  intros Hlt Hk. rewrite run_bind, run_setitem. apply Hk. simpl.
  rewrite list_lookup_total_alter_eq by done. rewrite lookup_insert_eq. eauto.
Qed.

(** Every call writes to its field first, so the field is there afterwards,
    whatever the outcome. *)
Lemma apply_mutation_sets_key x m w :
  contdata x < length (heap w) →
  is_Some ((heap (apply_mutation x m w).2 !!! contdata x) !! mutation_key m).
Proof.
  intros Hlt. destruct m; simpl;
    unfold get_from_envfile, get_from_env, get_from_pip, get_from_image,
      get_from_cmd, insert_snippet.
  6:{ rewrite list_lookup_total_alter_eq by done. rewrite lookup_insert_eq.
      eauto. }
  all: apply sets_key_bind; [done|].
  all: unfold the_container, decode, as_number.
  all: repeat (first [ keeps_fields_step | case_match; simplify_eq ]).
Qed.

Lemma apply_mutations_fields x ms : ∀ w w',
  contdata x < length (heap w) →
  apply_mutations x ms w = (Ok (), w') →
  ∀ m, m ∈ ms →
       is_Some ((heap w' !!! contdata x) !! mutation_key m).
Proof.
  induction ms as [|m0 ms IH]; intros w w' Hlt Hrun m Hm;
    [by apply elem_of_nil in Hm|].
  simpl in Hrun. rewrite run_bind in Hrun.
  pose proof (apply_mutation_sets_key x m0 w Hlt) as Hkey.
  pose proof (frames_apply_mutation x m0 w) as (Hlen & _).
  destruct (apply_mutation x m0 w) as [[[]|e] w1]; [|done].
  simpl in Hkey, Hlen. apply elem_of_cons in Hm as [->|Hm].
  - pose proof (keeps_fields_apply_mutations (contdata x) x ms w1 _ Hkey) as H.
    by rewrite Hrun in H.
  - eapply IH; [|done..]. by rewrite Hlen.
Qed.

Ltac in_probes :=
  unfold probes;
  repeat (first [ apply list_elem_of_here | apply list_elem_of_further ]).

Lemma base_container_hack_returns x cont w w1 :
  contdata x < length (heap w) →
  run_probes x w = (Ok (), w1) →
  ∃ v, base_container_hack x cont w1
       = (Ok (), set_heap (alter (insert "base_container" (VStr v))
                                 (contdata x)) w1).
Proof.
  intros Hlt Hrun. rewrite run_probes_eq in Hrun.
  pose proof (apply_mutations_fields x probes w w1 Hlt Hrun) as Hfields.
  assert (∀ m, m ∈ probes → ∃ v, getitem (contdata x) (mutation_key m) w1
                                 = (Ok v, w1)) as Hget.
  { intros m [v Hv]%Hfields. exists v. unfold getitem. by rewrite Hv. }
  destruct (Hget (Env "NVIDIA_TENSORFLOW_VERSION" (Some "nvidia_tensorflow")))
    as [tf Htf]; [in_probes|].
  destruct (Hget (Env "NVIDIA_PYTORCH_VERSION" (Some "nvidia_pytorch")))
    as [pt Hpt]; [in_probes|].
  destruct (Hget (Env "TRTOSS_VERSION" (Some "base_container")))
    as [tr Htr]; [in_probes|].
  assert (∃ py, getitem (contdata x) "python_major" w1 = (Ok py, w1))
    as [py Hpy].
  { destruct (Hget (Cmd ("python -c " +:+ String dquote
                           "import sys;print(sys.version_info[0]);"
                         +:+ String dquote "") "python_major"))
      as [py Hpy]; [in_probes|]. by exists py. }
  simpl in Htf, Hpt, Htr.
  unfold base_container_hack. repeat case_decide.
  - eexists. reflexivity.
  - eexists. erewrite run_bind_ok by exact Htf.
    erewrite run_bind_ok by exact Hpy. reflexivity.
  - eexists. erewrite run_bind_ok by exact Hpt.
    erewrite run_bind_ok by exact Hpy. reflexivity.
  - eexists. erewrite run_bind_ok by exact Htr. reflexivity.
Qed.

(** X15.  The step that derives [base_container] reads fields of the working
    record.  When the probes have returned normally, each of these fields is
    there, with what its probe found or with the sentinel, so the step
    cannot end in a [KeyError]: it returns normally, for every container,
    and writes a string to [base_container]. *)
Theorem base_container_step_cannot_fail x cont w w1 :
  contdata x < length (heap w) →
  run_probes x w = (Ok (), w1) →
  ∃ v, base_container_hack x cont w1
       = (Ok (), set_heap (alter (insert "base_container" (VStr v))
                                 (contdata x)) w1).
Proof. apply base_container_hack_returns. Qed.

(** *** The value of an environment variable *)

Lemma lstrip_head s :
  Str.lstrip s = "" ∨ ∃ c t, Str.lstrip s = String c t ∧ Str.is_space c = false.
Proof.
  induction s as [|c s IH]; simpl; [by left|].
  destruct (Str.is_space c) eqn:Hc; [done|]. right. by exists c, s.
Qed.

Lemma rstrip_cons c s :
  Str.is_space c = false → Str.rstrip (String c s) = String c (Str.rstrip s).
Proof. intros Hc. simpl. rewrite Hc. by destruct (Str.rstrip s). Qed.

Lemma rstrip_idem s : Str.rstrip (Str.rstrip s) = Str.rstrip s.
Proof.
  induction s as [|c s IH]; [done|]. simpl.
  destruct (Str.rstrip s) as [|d t] eqn:Ht.
  - destruct (Str.is_space c) eqn:Hc; [done|]. simpl. by rewrite Hc.
  - change (Str.rstrip (String c (String d t)))
      with (match Str.rstrip (String d t) with
            | "" => if Str.is_space c then "" else String c ""
            | String a u => String c (String a u)
            end).
    by rewrite IH.
Qed.

(** [strip] of what [strip] gave changes nothing. *)
Lemma strip_idem s : Str.strip (Str.strip s) = Str.strip s.
Proof.
  unfold Str.strip. destruct (lstrip_head s) as [->|(c & t & -> & Hc)]; [done|].
  rewrite (rstrip_cons c t Hc). simpl Str.lstrip. rewrite Hc.
  rewrite (rstrip_cons c _ Hc). by rewrite rstrip_idem.
Qed.

Lemma contains_remove c s : contains c (Str.remove c s) = false.
Proof.
  induction s as [|a s IH]; [done|]. simpl.
  destruct (decide (a = c)); [done|]. simpl.
  by rewrite bool_decide_false, IH.
Qed.

Lemma contains_lstrip c s : contains c s = false → contains c (Str.lstrip s) = false.
Proof.
  induction s as [|a s IH]; [done|]. simpl.
  intros [Ha Hs]%orb_false_iff. destruct (Str.is_space a); [by apply IH|].
  simpl. by rewrite Ha, Hs.
Qed.

Lemma contains_rstrip c s : contains c s = false → contains c (Str.rstrip s) = false.
Proof.
  induction s as [|a s IH]; [done|]. simpl.
  intros [Ha Hs]%orb_false_iff. specialize (IH Hs).
  destruct (Str.rstrip s) as [|d t].
  - destruct (Str.is_space a); [done|]. simpl. by rewrite Ha.
  - simpl in *. by rewrite Ha, IH.
Qed.

Lemma contains_strip_remove c s : contains c (Str.strip (Str.remove c s)) = false.
Proof. apply contains_rstrip, contains_lstrip, contains_remove. Qed.

(** X16.  What the two environment probes store when they take the output:
    for a status other than 1 and an output that is not only white space,
    the field holds a string without any double quote that [strip] leaves as
    it is, so with no white space at either end, and nothing is logged. *)
Theorem env_value_is_clean x c st text w :
  container x = Some c → contdata x < length (heap w) →
  st ≠ 1%Z → Str.isspace text = false →
  (∀ path lookup key,
     exec_run c (envfile_cmd path lookup)
       = {| exit_code := st; output := Some text |} →
     ∃ w' s,
       get_from_envfile x path lookup key w = (Ok (), w') ∧
       (heap w' !!! contdata x) !! default lookup key = Some (VStr s) ∧
       contains dquote s = false ∧ Str.strip s = s ∧ log w' = log w) ∧
  (∀ lookup key,
     exec_run c (env_cmd lookup) = {| exit_code := st; output := Some text |} →
     ∃ w' s,
       get_from_env x lookup key w = (Ok (), w') ∧
       (heap w' !!! contdata x) !! default lookup key = Some (VStr s) ∧
       contains dquote s = false ∧ Str.strip s = s ∧ log w' = log w).
Proof.
  intros Hc Hlt Hst Hsp. apply Z.eqb_neq in Hst. split.
  - intros path lookup key Hexec. eexists _, _.
    split; [by apply (run_get_from_envfile x c)|]. simpl.
    rewrite Hst, Hsp. simpl. split; [by apply twice_written|].
    split; [apply contains_strip_remove|]. split; [apply strip_idem|done].
  - intros lookup key Hexec. eexists _, _.
    split; [by apply (run_get_from_env x c)|]. simpl.
    rewrite Hst, Hsp. simpl. split; [by apply twice_written|].
    split; [apply contains_strip_remove|]. split; [apply strip_idem|done].
Qed.

(** ** An image without a size *)

Lemma check_snippets_Ok sniptext ks w :
  (∀ k, k ∈ ks → ∃ v, sniptext !! k = Some v ∧ truthy v = true) →
  check_snippets sniptext ks w = (Ok (), w).
Proof.
  induction ks as [|k ks IH]; intros Hks; [done|]. simpl.
  destruct (Hks k) as (v & Hv & Htrue); [apply list_elem_of_here|].
  rewrite run_bind, Hv. simpl. rewrite Htrue. apply IH.
  intros k' Hk'. apply Hks. by apply list_elem_of_further.
Qed.

Lemma bind_raises {A B} (m : M A) (k : A → M B) w :
  (∀ a w', m w = (Ok a, w') → ∃ e, (k a w').1 = Raise e) →
  ∃ e, ((m ≫= k) w).1 = Raise e.
Proof.
  intros Hk. rewrite run_bind. destruct (m w) as [[a|e] w'] eqn:Hm.
  - by apply Hk.
  - by exists e.
Qed.

Lemma size_probe_fails x c key w :
  container x = Some c → attrs c !! "Size" = None →
  (get_from_image x "Size" key w).1 = Raise (KeyError "Size").
Proof.
  intros Hc Hattr. unfold get_from_image.
  rewrite run_bind, run_setitem. rewrite run_bind. unfold the_container.
  rewrite Hc. simpl. rewrite Hattr. rewrite run_bind. unfold try_except. simpl.
  reflexivity.
Qed.

(** The record that [from_json] makes the working record is empty when
    [force] is set or the store has none for the container and release, and
    then [already_present] is false. *)
Lemma process_starts jsonfile version frc cont w doc t :
  fs w !! fspath jsonfile = Some {| body := Json doc; st_mtime := t |} →
  frc = true ∨ default ∅ (entry doc (ngc_base +:+ cont) version) = ∅ →
  ∃ x ext,
    let w1 := set_log (λ l, l ++ [Info ("Extracting information from: "
                +:+ ngc_base +:+ cont +:+ ":" +:+ version)]) w in
    let w3 := set_heap (λ h, h ++ ext) (set_heap (λ h, h ++ [∅]) w1) in
    container_name x = ngc_base +:+ cont ∧ release x = version ∧
    datafile x = fspath jsonfile ∧
    tree_shaped (heap w3) (data x) ∧ linked (heap w3) x ∧
    heap w3 !!! contdata x = ∅ ∧
    (∀ c r, (c, r) ≠ (ngc_base +:+ cont, version) →
       entry (dump (heap w3) (data x)) c r = entry doc c r) ∧
    ∀ k : SupportMatrixExtractor → M SupportMatrixExtractor,
      (xtr ← __init__ (ngc_base +:+ cont) version (fspath jsonfile) frc;
       xtr ← from_json xtr;
       present ← already_present xtr;
       if present && negb frc then
         info "...skipping because container is already in data.";;
         mret xtr
       else k xtr) w1
      = k x w3.
Proof.
  intros Hfile Hnew. cbv zeta.
  pose proof (run_init (ngc_base +:+ cont) version (fspath jsonfile) frc
                (set_log (λ l, l ++ [Info ("Extracting information from: "
                   +:+ ngc_base +:+ cont +:+ ":" +:+ version)]) w)) as Hinit.
  match type of Hinit with
  | _ = (Ok ?x, ?w) =>
      destruct (from_json_present x w doc t Hfile)
        as (x1 & ext & Hrun & Hc & Hr & Hdf & _ & _ & Hts & Hlink & _ & Hother & Hcd)
  end.
  simpl in Hc, Hr, Hdf, Hts, Hlink, Hother, Hcd.
  assert (((heap w ++ [∅]) ++ ext) !!! contdata x1 = ∅) as Hrec.
  { rewrite Hcd. destruct Hnew as [->|Hnone]; [done|]. by destruct frc. }
  exists x1, ext. simpl. split_and!; try done. intros k.
  erewrite run_bind_ok by exact Hinit.
  erewrite run_bind_ok by exact Hrun.
  rewrite run_bind, run_already_present. cbv beta iota.
  match goal with
  | |- context [if ?b then _ else _] => assert (b = false) as ->
  end.
  { destruct Hlink as [-> _]. simpl. rewrite Hrec, size_lt_1.
    rewrite (bool_decide_true (_ = _)) by done. simpl.
    by rewrite andb_false_r. }
  done.
Qed.

Lemma process_without_size a sniptext jsonfile version frc cont w doc t c :
  fs w !! fspath jsonfile = Some {| body := Json doc; st_mtime := t |} →
  frc = true ∨ default ∅ (entry doc (ngc_base +:+ cont) version) = ∅ →
  images w (ngc_base +:+ cont +:+ ":" +:+ version) = Some c →
  attrs c !! "Size" = None →
  ∃ w',
    process a sniptext jsonfile version frc cont w = (Raise RuntimeError, w') ∧
    only_objects w w'.
Proof.
  intros Hfile Hnew Himg Hattr. unfold process.
  erewrite run_bind_ok by reflexivity.
  destruct (process_starts jsonfile version frc cont w doc t Hfile Hnew)
    as (x & ext & _ & _ & _ & _ & _ & _ & _ & Hstart).
  rewrite Hstart. clear Hstart.
  unfold managed_container.
  match goal with
  | |- context [images ?w' ?i] =>
      change (images w' i) with (images w i);
      assert (only_objects w w') as HR by (by repeat split)
  end.
  rewrite Himg.
  match goal with
  | |- ∃ w', match ?body with _ => _ end = _ ∧ _ =>
      assert (∃ e, body.1 = Raise e ∧ only_objects w body.2) as (e & He & HR');
      [|destruct body as [[?|?] ?]; simpl in *; [done|by eexists]]
  end.
  bind_from only_objects HR;
    [apply (within_info _)|by eauto|clear HR; intros _ w4 _ HR].
  bind_from only_objects HR;
    [apply (within_insert_snippets _)|by eauto|clear HR; intros _ w5 _ HR].
  bind_from only_objects HR;
    [apply (within_insert_snippet _)|by eauto|clear HR; intros _ w6 _ HR].
  bind_from only_objects HR;
    [apply (within_run_probes _)|by eauto|clear HR; intros [] w7 Hrun HR].
  exfalso.
  unfold run_probes in Hrun. rewrite run_bind in Hrun.
  pose proof (size_probe_fails (use_container x c) c (Some "size") w6
                eq_refl Hattr) as Hsize.
  by rewrite (surjective_pairing (get_from_image _ _ _ w6)), Hsize in Hrun.
Qed.

(** X17.  An image that is looked at and has no [Size] attribute ends the
    whole run.  With the store and the snippets in place, when the first
    container of the run is not skipped and its image has no [Size], the
    [KeyError] of the size probe leaves the [with] block as a
    [RuntimeError], which ends [main]: no other image is looked at, and
    nothing but objects and the log has changed, so the store file is as it
    was and nothing is published. *)
Theorem image_without_size_ends_run scriptdir a w f0 doc t sniptext ts c :
  let cont := default "merlin-training" (given (arg_container a)) in
  let version := default (today w) (given (arg_version a)) in
  fs w !! (scriptdir +:+ "/data.json") = Some f0 →
  fs w !! store_path scriptdir a
  = Some {| body := Json doc; st_mtime := t |} →
  fs w !! default (scriptdir +:+ "/snippets.yaml") (given (arg_snippets a))
  = Some {| body := Yaml sniptext; st_mtime := ts |} →
  (∀ k, k ∈ standard_snippets →
        ∃ v, sniptext !! k = Some v ∧ truthy v = true) →
  arg_force a = true ∨ default ∅ (entry doc (ngc_base +:+ cont) version) = ∅ →
  images w (ngc_base +:+ cont +:+ ":" +:+ version) = Some c →
  attrs c !! "Size" = None →
  ∃ w', main scriptdir a w = (Raise RuntimeError, w') ∧ only_objects w w'.
Proof.
  intros cont version Hdata Hstore Hsnip Hks Hnew Himg Hattr.
  unfold main. cbv zeta.
  erewrite run_bind_ok by (apply run_stat_mtime; exact Hdata).
  rewrite run_bind.
  assert (match given (arg_version a) with
          | Some v => mret v
          | None => get_yymm
          end w = (Ok version, w)) as ->.
  { unfold version. by destruct (given (arg_version a)). }
  cbv beta iota.
  erewrite run_bind_ok by (eapply run_load_snippets; exact Hsnip).
  erewrite run_bind_ok by (by apply check_snippets_Ok).
  assert (∃ rest, from_option (λ c, [c]) all_containers (given (arg_container a))
                  = cont :: rest) as [rest ->].
  { unfold cont. destruct (given (arg_container a)); by eexists. }
  cbn [process_all]. rewrite !run_bind.
  assert ((if arg_force a then true else false) = arg_force a) as ->
    by (by destruct (arg_force a)).
  match goal with
  | |- context [process ?a ?sn ?jf ?v ?frc ?cn w] =>
      destruct (process_without_size a sn jf v frc cn w doc t c
                  Hstore Hnew Himg Hattr) as (w' & Hraise & Hkeep)
  end.
  rewrite Hraise. by exists w'.
Qed.

(** ** An image that is looked at *)

Lemma apply_mutation_returns x c m w :
  container x = Some c →
  (∀ cmd, is_Some (output (exec_run c cmd))) →
  (∃ n, attrs c !! "Size" = Some (VInt n)) →
  ∃ w', apply_mutation x m w = (Ok (), w').
Proof.
  intros Hc Hdec [n Hsize]. destruct m; simpl.
  - destruct (exec_run c (envfile_cmd path lookup)) as [st [text|]] eqn:He.
    + eexists. by apply (run_get_from_envfile x c _ _ _ st text).
    + destruct (Hdec (envfile_cmd path lookup)) as [? Hout].
      by rewrite He in Hout.
  - destruct (exec_run c (env_cmd lookup)) as [st [text|]] eqn:He.
    + eexists. by apply (run_get_from_env x c _ _ st text).
    + destruct (Hdec (env_cmd lookup)) as [? Hout]. by rewrite He in Hout.
  - destruct (exec_run c (pip_cmd lookup)) as [st [text|]] eqn:He.
    + destruct (decide (st = 0%Z)) as [->|Hst].
      * destruct (run_get_from_pip_ok x c lookup key text w Hc He)
          as (vs & _ & ->). by eexists.
      * eexists. by apply (run_get_from_pip_failed x c _ _ _ _ Hc He).
    + destruct (Hdec (pip_cmd lookup)) as [? Hout]. by rewrite He in Hout.
  - unfold get_from_image. rewrite run_bind, run_setitem. rewrite run_bind.
    unfold the_container. rewrite Hc. simpl.
    destruct (decide (lookup = "Size")) as [->|Hne].
    + rewrite Hsize. by eexists.
    + rewrite run_bind. unfold try_except.
      destruct (attrs c !! lookup); by eexists.
  - destruct (exec_run c (shell_cmd cmd)) as [st [text|]] eqn:He.
    + eexists. by apply (run_get_from_cmd x c _ _ st text).
    + destruct (Hdec (shell_cmd cmd)) as [? Hout]. by rewrite He in Hout.
  - by eexists.
Qed.

Lemma apply_mutations_returns x c ms : ∀ w,
  container x = Some c →
  (∀ cmd, is_Some (output (exec_run c cmd))) →
  (∃ n, attrs c !! "Size" = Some (VInt n)) →
  ∃ w', apply_mutations x ms w = (Ok (), w').
Proof.
  induction ms as [|m ms IH]; intros w Hc Hdec Hsize; simpl; [by eexists|].
  destruct (apply_mutation_returns x c m w Hc Hdec Hsize) as [w1 Hrun].
  rewrite run_bind, Hrun. by apply IH.
Qed.

Lemma apply_mutations_keeps_key x ms k : ∀ w,
  (∀ m, m ∈ ms → mutation_key m ≠ k) →
  (heap (apply_mutations x ms w).2 !!! contdata x) !! k
  = (heap w !!! contdata x) !! k.
Proof.
  induction ms as [|m ms IH]; intros w Hk; simpl; [done|].
  rewrite run_bind.
  pose proof (writes_only_apply_mutation x m w k) as Hm.
  destruct (apply_mutation x m w) as [[[]|e] w1]; simpl in *.
  - rewrite IH by (intros m' Hm'; by apply Hk, list_elem_of_further).
    apply Hm. intros ->. by eapply Hk; [apply list_elem_of_here|].
  - apply Hm. intros ->. by eapply Hk; [apply list_elem_of_here|].
Qed.

Lemma run_insert_snippets x sniptext ks : ∀ w,
  contdata x < length (heap w) →
  (∀ k, k ∈ ks → is_Some (sniptext !! k)) →
  ∃ w',
    insert_snippets x sniptext ks w = (Ok (), w') ∧
    touches_only (contdata x) w w' ∧
    (∀ k, k ∈ ks → (heap w' !!! contdata x) !! k = sniptext !! k) ∧
    (∀ k, k ∉ ks →
          (heap w' !!! contdata x) !! k = (heap w !!! contdata x) !! k).
Proof.
  induction ks as [|k0 ks IH]; intros w Hlt Hks; simpl.
  { eexists. split; [done|]. split; [apply touches_only_refl|].
    split; [|done]. intros k Hk. by apply elem_of_nil in Hk. }
  destruct (Hks k0) as [v Hv]; [apply list_elem_of_here|].
  rewrite run_bind, Hv. simpl. unfold insert_snippet at 1.
  rewrite run_bind, run_setitem.
  set (w1 := set_heap (alter (insert k0 v) (contdata x)) w).
  assert (touches_only (contdata x) w w1) as Ht1 by apply frames_setitem.
  destruct (IH w1) as (w' & Hrun & Ht & Hin & Hout).
  { simpl. by rewrite length_alter. }
  { intros k Hk. by apply Hks, list_elem_of_further. }
  exists w'. split; [done|]. split; [by eapply touches_only_trans|].
  assert ((heap w1 !!! contdata x) !! k0 = Some v) as Hk0.
  { simpl. rewrite list_lookup_total_alter_eq by done. apply lookup_insert_eq. }
  split.
  - intros k [->|Hk]%elem_of_cons.
    + destruct (decide (k0 ∈ ks)) as [Hin0|Hnin]; [by apply Hin|].
      by rewrite Hout, Hk0.
    + by apply Hin.
  - intros k [Hne Hnin]%not_elem_of_cons. rewrite Hout by done.
    simpl. rewrite list_lookup_total_alter_eq by done.
    by rewrite lookup_insert_ne.
Qed.

Lemma probe_keys_fresh k :
  k ∈ "release" :: standard_snippets →
  ∀ m, m ∈ probes → mutation_key m ≠ k.
Proof.
  assert (Forall (λ k, Forall (λ m, mutation_key m ≠ k) probes)
            ("release" :: standard_snippets)) as Hall.
  { repeat (apply Forall_cons; split); try apply Forall_nil; done. }
  intros Hk m Hm. rewrite Forall_forall in Hall.
  specialize (Hall k Hk). rewrite Forall_forall in Hall. by apply Hall.
Qed.

(** *** The values the probes leave *)

Lemma keeps_encodable_mret {A} l (a : A) : keeps_encodable l (mret a : M A).
Proof. by intros w. Qed.

Lemma keeps_encodable_raise {A} l e : keeps_encodable l (raise e : M A).
Proof. by intros w. Qed.

Lemma keeps_encodable_from_opt {A} l e (o : option A) :
  keeps_encodable l (from_opt e o).
Proof. destruct o; [apply keeps_encodable_mret|apply keeps_encodable_raise]. Qed.

Lemma keeps_encodable_info l msg : keeps_encodable l (info msg).
Proof. by intros w. Qed.

Lemma keeps_encodable_setitem l l' key v :
  serialisable v = true → keeps_encodable l (setitem l' key v).
Proof.
  intros Hv w. simpl. rewrite !list_lookup_total_alt.
  destruct (decide (l' = l)) as [->|Hne].
  - rewrite list_lookup_alter_eq. destruct (heap w !! l) as [rec|]; simpl; [|done].
    intros Hrec. by apply map_Forall_insert_2.
  - by rewrite list_lookup_alter_ne.
Qed.

Lemma keeps_encodable_bind {A B} l (m : M A) (k : A → M B) :
  keeps_encodable l m → (∀ a, keeps_encodable l (k a)) →
  keeps_encodable l (m ≫= k).
Proof.
  intros Hm Hk w Hrec. rewrite run_bind. specialize (Hm w Hrec).
  destruct (m w) as [[a|e] w']; simpl in *; [|done]. by apply Hk.
Qed.

Ltac keeps_encodable_step :=
  lazymatch goal with
  | |- keeps_encodable _ (mret _) => apply keeps_encodable_mret
  | |- keeps_encodable _ (raise _) => apply keeps_encodable_raise
  | |- keeps_encodable _ (from_opt _ _) => apply keeps_encodable_from_opt
  | |- keeps_encodable _ (info _) => apply keeps_encodable_info
  | |- keeps_encodable _ (setitem _ _ _) =>
      apply keeps_encodable_setitem; reflexivity
  | |- keeps_encodable _ (_ ≫= _) => apply keeps_encodable_bind; [|intros ?]
  | |- keeps_encodable _ (let _ := _ in _) => cbv zeta
  end.

(** The size probe on an image whose [Size] is the number [n]. *)
Lemma run_get_from_image_size x c key n w :
  container x = Some c → attrs c !! "Size" = Some (VInt n) →
  get_from_image x "Size" key w =
  (setitem (contdata x) (default "Size" key) ERROR;;
   setitem (contdata x) (default "Size" key) (VInt n);;
   setitem (contdata x) (default "Size" key) (VStr (format_gb n +:+ " GB"))) w.
Proof.
  intros Hc Hsize. unfold get_from_image. rewrite !run_bind, !run_setitem.
  rewrite run_bind. unfold the_container. rewrite Hc. simpl.
  by rewrite Hsize.
Qed.

Lemma keeps_encodable_apply_mutation l x c n m :
  container x = Some c → attrs c !! "Size" = Some (VInt n) → encodes m →
  keeps_encodable l (apply_mutation x m).
Proof.
  intros Hc Hsize Hm. destruct m; simpl in *.
  4:{ subst lookup.
      assert (keeps_encodable l
                (setitem (contdata x) (default "Size" key) ERROR;;
                 setitem (contdata x) (default "Size" key) (VInt n);;
                 setitem (contdata x) (default "Size" key)
                   (VStr (format_gb n +:+ " GB")))) as Hsets
        by repeat keeps_encodable_step.
      intros w Hrec. rewrite (run_get_from_image_size x c key n) by done.
      by apply Hsets. }
  5:{ by apply keeps_encodable_setitem. }
  all: unfold get_from_envfile, get_from_env, get_from_pip, get_from_cmd,
         the_container, decode;
       repeat (first [ keeps_encodable_step | case_match; simplify_eq ]).
Qed.

Lemma keeps_encodable_apply_mutations l x c n ms :
  container x = Some c → attrs c !! "Size" = Some (VInt n) →
  Forall encodes ms → keeps_encodable l (apply_mutations x ms).
Proof.
  intros Hc Hsize. induction ms as [|m ms IH]; intros Hms; simpl;
    [apply keeps_encodable_mret|].
  apply Forall_cons in Hms as [Hm Hms].
  apply keeps_encodable_bind; [by eapply keeps_encodable_apply_mutation|].
  intros _. by apply IH.
Qed.

Lemma probes_encode : Forall encodes probes.
Proof. unfold probes. repeat (apply Forall_cons_2; [by simpl|]). apply Forall_nil_2. Qed.

(** A turn of the loop for an image that starts and answers, up to the
    save: what [process] comes to is the save and the line in the log, run
    in a world [w8] that has the files and the time of [w]; there the store
    in memory has every other record as [doc] had it, and the working record
    has the snippets, the release and a field for every probe. *)
Lemma process_reaches_save
    a sniptext jsonfile version frc cont w doc t c n :
  fs w !! fspath jsonfile = Some {| body := Json doc; st_mtime := t |} →
  frc = true ∨ default ∅ (entry doc (ngc_base +:+ cont) version) = ∅ →
  images w (ngc_base +:+ cont +:+ ":" +:+ version) = Some c →
  (∀ cmd, is_Some (output (exec_run c cmd))) →
  attrs c !! "Size" = Some (VInt n) →
  (∀ k, k ∈ standard_snippets → is_Some (sniptext !! k)) →
  ∃ x w8,
    process a sniptext jsonfile version frc cont w
    = match (to_json_file (use_container x c);;
             r ← gets (λ w, heap w !!! contdata (use_container x c));
             modify (set_log (λ l, l ++ [InfoRecord r]));;
             mret (use_container x c)) w8 with
      | (Ok a, w') => if stops c then (Ok a, w') else (Raise APIError, w')
      | (Raise e, w') => (Raise RuntimeError, w')
      end ∧
    datafile x = fspath jsonfile ∧ fs w8 = fs w ∧ clock w8 = clock w ∧
    (∀ c0 r0, (c0, r0) ≠ (ngc_base +:+ cont, version) →
              entry (dump (heap w8) (data x)) c0 r0 = entry doc c0 r0) ∧
    entry (dump (heap w8) (data x)) (ngc_base +:+ cont) version
    = Some (heap w8 !!! contdata x) ∧
    (heap w8 !!! contdata x) !! "release"
    = Some (from_option VStr VNone (arg_version a)) ∧
    (∀ k, k ∈ standard_snippets →
          (heap w8 !!! contdata x) !! k = sniptext !! k) ∧
    (∀ m, m ∈ probes → is_Some ((heap w8 !!! contdata x) !! mutation_key m)) ∧
    ((∀ k, k ∈ standard_snippets →
           ∃ v, sniptext !! k = Some v ∧ serialisable v = true) →
     encodable_record (heap w8 !!! contdata x)).
Proof.
  intros Hfile Hnew Himg Hdec Hsize Hsn.
  unfold process.
  erewrite run_bind_ok by reflexivity.
  destruct (process_starts jsonfile version frc cont w doc t Hfile Hnew)
    as (x & ext & Hc & Hr & Hdf & Hts & Hlink & Hempty & Hother & Hstart).
  rewrite Hstart. clear Hstart. cbv zeta in Hts, Hlink, Hother, Hempty.
  match type of Hlink with
  | linked (heap ?w0) _ => set (w3 := w0) in *
  end.
  unfold managed_container.
  change (images w3 (ngc_base +:+ cont +:+ ":" +:+ version))
    with (images w (ngc_base +:+ cont +:+ ":" +:+ version)).
  rewrite Himg.
  set (xc := use_container x c). set (l := contdata x).
  assert (l < length (heap w3)) as Hlt by apply Hlink.
  set (w4 := set_log (λ l, l ++ [Info "...container is running."]) w3).
  destruct (run_insert_snippets xc sniptext standard_snippets w4 Hlt Hsn)
    as (w5 & Hrun5 & Ht5 & Hin5 & Hout5).
  set (w6 := set_heap (alter (insert "release"
                                (from_option VStr VNone (arg_version a))) l) w5).
  assert (l < length (heap w6)) as Hlt6.
  { simpl. rewrite length_alter. destruct Ht5 as [-> _]. done. }
  destruct (apply_mutations_returns xc c probes w6 eq_refl Hdec
              (ex_intro _ n Hsize)) as (w7 & Hrun7).
  assert (run_probes xc w6 = (Ok (), w7)) as Hprobes
    by (by rewrite run_probes_eq).
  destruct (base_container_hack_returns xc cont w6 w7 Hlt6 Hprobes)
    as (v & Hrun8).
  set (w8 := set_heap (alter (insert "base_container" (VStr v)) l) w7) in *.
  assert (touches_only l w3 w8) as Ht.
  { eapply touches_only_trans;
      [apply (frames_info l "...container is running." w3)|].
    eapply touches_only_trans; [exact Ht5|].
    eapply touches_only_trans;
      [apply (frames_setitem l "release"
                (from_option VStr VNone (arg_version a)) w5)|].
    eapply touches_only_trans;
      [|apply (frames_setitem l "base_container" (VStr v) w7)].
    pose proof (frames_apply_mutations xc probes w6) as H67.
    by rewrite Hrun7 in H67. }
  destruct Ht as (Hlen & Hsame & Hfs & Hclock & _).
  assert (∀ k, (∀ m, m ∈ probes → mutation_key m ≠ k) → k ≠ "base_container" →
               (heap w8 !!! l) !! k = (heap w6 !!! l) !! k) as Hkeep.
  { intros k Hk Hne.
    pose proof (apply_mutations_keeps_key xc probes k w6 Hk) as H67.
    rewrite Hrun7 in H67. transitivity ((heap w7 !!! l) !! k); [|exact H67].
    by apply (writes_only_setitem l "base_container" (VStr v) w7). }
  exists x, w8. split_and!.
  - erewrite run_bind_ok by reflexivity. fold w4.
    erewrite run_bind_ok by exact Hrun5.
    erewrite run_bind_ok by reflexivity. fold w6.
    erewrite run_bind_ok by exact Hprobes.
    erewrite run_bind_ok by exact Hrun8.
    reflexivity.
  - exact Hdf.
  - exact Hfs.
  - exact Hclock.
  - intros c0 r0 Hne. rewrite <-Hother by done.
    destruct Hlink as [Hl _].
    eapply (dump_untouched (heap w3) (heap w8) (data x) l); [done..| |].
    + rewrite Hc, Hr in Hl. exact Hl.
    + done.
  - destruct Hlink as [Hl _]. rewrite Hc, Hr in Hl.
    by rewrite entry_dump, Hl.
  - fold l. rewrite Hkeep.
    + simpl. rewrite list_lookup_total_alter_eq.
      * apply lookup_insert_eq.
      * destruct Ht5 as [-> _]. done.
    + apply probe_keys_fresh, list_elem_of_here.
    + done.
  - intros k Hk. fold l. rewrite Hkeep.
    + simpl. rewrite list_lookup_total_alter_eq.
      * rewrite lookup_insert_ne; [by apply Hin5|].
        intros <-. revert Hk. unfold standard_snippets.
        rewrite !elem_of_cons, elem_of_nil. by intros [?|[?|[?|?]]].
      * destruct Ht5 as [-> _]. done.
    + by apply probe_keys_fresh, list_elem_of_further.
    + intros ->. revert Hk. unfold standard_snippets.
      rewrite !elem_of_cons, elem_of_nil. by intros [?|[?|[?|?]]].
  - intros m Hm. fold l.
    pose proof (apply_mutations_fields xc probes w6 w7 Hlt6 Hrun7 m Hm) as Hf.
    by apply (keeps_fields_setitem l l "base_container" (VStr v) w7).
  - intros Hsnv. fold l.
    apply (keeps_encodable_setitem l l "base_container" (VStr v) eq_refl w7).
    pose proof (keeps_encodable_apply_mutations l xc c n probes eq_refl Hsize
                  probes_encode w6) as H67.
    rewrite Hrun7 in H67. apply H67.
    apply (keeps_encodable_setitem l l "release"
             (from_option VStr VNone (arg_version a))).
    { by destruct (arg_version a). }
    intros k v0 Hkv. destruct (decide (k ∈ standard_snippets)) as [Hk|Hk].
    + rewrite Hin5 in Hkv by done. destruct (Hsnv k Hk) as (v1 & Hv1 & Hs).
      congruence.
    + rewrite Hout5 in Hkv by done.
      assert (heap w4 !!! contdata xc = ∅) as Hrec4 by exact Hempty.
      by rewrite Hrec4 in Hkv.
Qed.

Lemma process_completes
    a sniptext jsonfile version frc cont w doc t c n :
  fs w !! fspath jsonfile = Some {| body := Json doc; st_mtime := t |} →
  encodable doc →
  frc = true ∨ default ∅ (entry doc (ngc_base +:+ cont) version) = ∅ →
  images w (ngc_base +:+ cont +:+ ":" +:+ version) = Some c →
  stops c = true →
  (∀ cmd, is_Some (output (exec_run c cmd))) →
  attrs c !! "Size" = Some (VInt n) →
  (∀ k, k ∈ standard_snippets →
        ∃ v, sniptext !! k = Some v ∧ serialisable v = true) →
  ∃ x w' doc' rec,
    process a sniptext jsonfile version frc cont w = (Ok x, w') ∧
    fs w' = <[fspath jsonfile := {| body := Json doc'; st_mtime := clock w |}]>
              (fs w) ∧
    (∀ c r, (c, r) ≠ (ngc_base +:+ cont, version) →
            entry doc' c r = entry doc c r) ∧
    entry doc' (ngc_base +:+ cont) version = Some rec ∧
    rec !! "release" = Some (from_option VStr VNone (arg_version a)) ∧
    (∀ k, k ∈ standard_snippets → rec !! k = sniptext !! k) ∧
    (∀ m, m ∈ probes → is_Some (rec !! mutation_key m)).
Proof.
  intros Hfile Hdoc Hnew Himg Hstop Hdec Hsize Hsnv.
  assert (∀ k, k ∈ standard_snippets → is_Some (sniptext !! k)) as Hsn.
  { intros k Hk. destruct (Hsnv k Hk) as (v & -> & _). eauto. }
  destruct (process_reaches_save a sniptext jsonfile version frc cont w doc t
              c n Hfile Hnew Himg Hdec Hsize Hsn)
    as (x & w8 & Hrun & Hdf & Hfs & Hclock & Hrest & Hown & Hrel & Hsnip
        & Hfields & Henc8).
  specialize (Henc8 Hsnv).
  set (xc := use_container x c) in *.
  assert (encodable (dump (heap w8) (data xc))) as Henc.
  { apply encodable_intro. intros c0 r0 rec0 k0 v0 He Hk.
    change (data xc) with (data x) in He.
    destruct (decide ((c0, r0) = (ngc_base +:+ cont, version))) as [[= -> ->]|Hne].
    - rewrite Hown in He. simplify_eq. by apply (Henc8 k0).
    - rewrite Hrest in He by done. by eapply encodable_entry. }
  assert (can_create w8 (datafile xc) = true) as Hopen.
  { apply (can_create_present _ _ {| body := Json doc; st_mtime := t |}).
    change (datafile xc) with (datafile x). by rewrite Hdf, Hfs. }
  assert (to_json_file xc w8
          = (Ok (), set_clock (λ t0, (t0 + 1)%Z)
                      (set_fs (insert (datafile xc)
                                 {| body := Json (dump (heap w8) (data xc));
                                    st_mtime := clock w8 |}) w8))) as Hsave.
  { rewrite run_to_json_file by exact Hopen.
    by rewrite !decide_True by exact Henc. }
  rewrite Hrun. erewrite run_bind_ok by exact Hsave. rewrite Hstop.
  eexists xc, _, (dump (heap w8) (data x)), (heap w8 !!! contdata x).
  split; [reflexivity|]. split_and!; try done.
  unfold xc. cbn [fs set_log set_clock set_fs datafile use_container].
  by rewrite Hdf, Hfs, Hclock.
Qed.

(** ** A save that fails *)

(** A turn of the loop in which a standard snippet is a date: the image
    starts and answers, the probes run, and the save raises [TypeError]
    after it has emptied the store file.  The turn ends in [RuntimeError]
    and the file holds the beginning of a JSON text. *)
Lemma process_with_dated_snippet
    a sniptext jsonfile version frc cont w doc t c n k d :
  fs w !! fspath jsonfile = Some {| body := Json doc; st_mtime := t |} →
  frc = true ∨ default ∅ (entry doc (ngc_base +:+ cont) version) = ∅ →
  images w (ngc_base +:+ cont +:+ ":" +:+ version) = Some c →
  (∀ cmd, is_Some (output (exec_run c cmd))) →
  attrs c !! "Size" = Some (VInt n) →
  (∀ k, k ∈ standard_snippets → is_Some (sniptext !! k)) →
  k ∈ standard_snippets → sniptext !! k = Some (VDate d) →
  ∃ w' doc',
    process a sniptext jsonfile version frc cont w = (Raise RuntimeError, w') ∧
    fs w' = <[fspath jsonfile :=
                {| body := Partial doc'; st_mtime := clock w |}]> (fs w).
Proof.
  intros Hfile Hnew Himg Hdec Hsize Hsn Hk Hdate.
  destruct (process_reaches_save a sniptext jsonfile version frc cont w doc t
              c n Hfile Hnew Himg Hdec Hsize Hsn)
    as (x & w8 & Hrun & Hdf & Hfs & Hclock & _ & Hown & _ & Hsnip & _).
  set (xc := use_container x c) in *.
  assert (¬ encodable (dump (heap w8) (data xc))) as Hno.
  { intros Henc.
    assert (serialisable (VDate d) = true) as Hd; [|done].
    apply (encodable_entry _ _ _ _ k _ Henc Hown).
    by rewrite Hsnip. }
  assert (can_create w8 (datafile xc) = true) as Hopen.
  { apply (can_create_present _ _ {| body := Json doc; st_mtime := t |}).
    change (datafile xc) with (datafile x). by rewrite Hdf, Hfs. }
  assert (to_json_file xc w8
          = (Raise TypeError,
             set_clock (λ t0, (t0 + 1)%Z)
               (set_fs (insert (datafile xc)
                          {| body := Partial (dump (heap w8) (data xc));
                             st_mtime := clock w8 |}) w8))) as Hsave.
  { rewrite run_to_json_file by exact Hopen.
    by rewrite !decide_False by exact Hno. }
  rewrite Hrun. erewrite run_bind_raise by exact Hsave.
  eexists _, _. split; [reflexivity|].
  unfold xc. cbn [fs set_log set_clock set_fs datafile use_container].
  by rewrite Hdf, Hfs, Hclock.
Qed.

(** C1.  A save that fails loses the store.
    - Load the store from a file that holds the document [doc] and write a
      date to the working record with [insert_snippet]: the save raises
      [TypeError] after it has emptied the file, which is left with the
      beginning of a JSON text.  The file then holds no document, so no
      entry of [doc] is present in it, and the next load raises.
    - So does a turn of the loop of [main] when one of the standard snippets
      is a date, as [yaml.safe_load] makes of [2022-02-01]: the image starts
      and answers, the probes run, the save fails in the same way, and the
      turn ends in [RuntimeError] with no document in the store file. *)
Theorem failed_save_loses_every_entry :
  (∀ x w doc t key d,
     fs w !! datafile x = Some {| body := Json doc; st_mtime := t |} →
     ∃ x1 w1 w2 f,
       from_json x w = (Ok x1, w1) ∧
       (insert_snippet x1 key (VDate d);; to_json_file x1) w1
         = (Raise TypeError, w2) ∧
       fs w2 !! datafile x = Some f ∧
       (∀ doc', body f ≠ Json doc') ∧
       from_json x w2 = (Raise JSONDecodeError, w2)) ∧
  (∀ a sniptext jsonfile version frc cont w doc t c n k d,
     fs w !! fspath jsonfile = Some {| body := Json doc; st_mtime := t |} →
     frc = true ∨ default ∅ (entry doc (ngc_base +:+ cont) version) = ∅ →
     images w (ngc_base +:+ cont +:+ ":" +:+ version) = Some c →
     (∀ cmd, is_Some (output (exec_run c cmd))) →
     attrs c !! "Size" = Some (VInt n) →
     (∀ k, k ∈ standard_snippets → is_Some (sniptext !! k)) →
     k ∈ standard_snippets → sniptext !! k = Some (VDate d) →
     ∃ w' f,
       process a sniptext jsonfile version frc cont w
         = (Raise RuntimeError, w') ∧
       fs w' !! fspath jsonfile = Some f ∧
       (∀ doc', body f ≠ Json doc') ∧
       ∀ x, datafile x = fspath jsonfile →
            from_json x w' = (Raise JSONDecodeError, w')).
Proof.
  split; [exact save_with_date_fails|].
  intros a sniptext jsonfile version frc cont w doc t c n k d
    Hfile Hnew Himg Hdec Hsize Hsn Hk Hdate.
  destruct (process_with_dated_snippet a sniptext jsonfile version frc cont w
              doc t c n k d Hfile Hnew Himg Hdec Hsize Hsn Hk Hdate)
    as (w' & doc' & Hrun & Hfs).
  assert (fs w' !! fspath jsonfile
          = Some {| body := Partial doc'; st_mtime := clock w |}) as Hf.
  { rewrite Hfs. apply lookup_insert_eq. }
  eexists w', _. split; [exact Hrun|]. split; [exact Hf|].
  split; [done|]. intros x Hx.
  apply (from_json_not_json x w'
           {| body := Partial doc'; st_mtime := clock w |}); [|done].
  by rewrite Hx.
Qed.

(** X18.  An image that is looked at and answers.  The store file holds
    [doc], whose values can all be encoded; the container is not skipped;
    the image starts, its [Size] is a number, the output of every command
    decodes and the container stops when it is asked to; the standard
    snippets are values that can be encoded.  Then [process] returns
    normally and has written the store file, stamped with the time of the
    write.  The document in it has every record of another container or
    release as [doc] had it, and for this container and release a record
    with the standard snippets as the snippets file gives them, a field for
    every probe, and under [release] the version as given on the command
    line, which is [None] when the version was left to the date. *)
Theorem completed_image_is_stored
    a sniptext jsonfile version frc cont w doc t c n :
  fs w !! fspath jsonfile = Some {| body := Json doc; st_mtime := t |} →
  encodable doc →
  frc = true ∨ default ∅ (entry doc (ngc_base +:+ cont) version) = ∅ →
  images w (ngc_base +:+ cont +:+ ":" +:+ version) = Some c →
  stops c = true →
  (∀ cmd, is_Some (output (exec_run c cmd))) →
  attrs c !! "Size" = Some (VInt n) →
  (∀ k, k ∈ standard_snippets →
        ∃ v, sniptext !! k = Some v ∧ serialisable v = true) →
  ∃ x w' doc' rec,
    process a sniptext jsonfile version frc cont w = (Ok x, w') ∧
    fs w' = <[fspath jsonfile := {| body := Json doc'; st_mtime := clock w |}]>
              (fs w) ∧
    (∀ c r, (c, r) ≠ (ngc_base +:+ cont, version) →
            entry doc' c r = entry doc c r) ∧
    entry doc' (ngc_base +:+ cont) version = Some rec ∧
    rec !! "release" = Some (from_option VStr VNone (arg_version a)) ∧
    (∀ k, k ∈ standard_snippets → rec !! k = sniptext !! k) ∧
    (∀ m, m ∈ probes → is_Some (rec !! mutation_key m)).
Proof. apply process_completes. Qed.

(** ** A run from end to end *)

Local Opaque create_branch.

(** X19.  A run for one container, from the command line to the pull
    request.  The store file beside the script holds [doc], whose values can
    all be encoded, which has no field for the container and version and is
    what the base branch of the repository has at the same path; the file
    was last written before the run; the snippets are in place and can be
    encoded; the image starts, has a number as its [Size], answers every
    command with output that decodes and stops when it is asked to; there is
    a [GH_TOKEN] and no [SKIP_PR]; the first scratch branch name is free and
    the host accepts pull requests.  Then [main] returns normally.  The
    store file holds a document [doc'] with a record for the container and
    version that has the [release] field; the repository has one more pull
    request, from the scratch branch numbered 1 to [main], and that branch
    is at a commit in which the path of the store file holds [doc']. *)
Theorem run_publishes_new_record
    scriptdir a w cont doc t sniptext ts c n tok r sha tree :
  let version := default (today w) (given (arg_version a)) in
  let p := scriptdir +:+ "/data.json" in
  let repo := default "NVIDIA-Merlin/Merlin" (environ w !! "REPO") in
  let ref := branch_ref (scratch_prefix version) 1 in
  given (arg_container a) = Some cont →
  given (arg_file a) = None →
  fs w !! p = Some {| body := Json doc; st_mtime := t |} →
  encodable doc →
  t ≠ clock w →
  fs w !! default (scriptdir +:+ "/snippets.yaml") (given (arg_snippets a))
  = Some {| body := Yaml sniptext; st_mtime := ts |} →
  (∀ k, k ∈ standard_snippets →
        ∃ v, sniptext !! k = Some v ∧ truthy v = true ∧
             serialisable v = true) →
  default ∅ (entry doc (ngc_base +:+ cont) version) = ∅ →
  images w (ngc_base +:+ cont +:+ ":" +:+ version) = Some c →
  stops c = true →
  (∀ cmd, is_Some (output (exec_run c cmd))) →
  attrs c !! "Size" = Some (VInt n) →
  environ w !! "SKIP_PR" = None →
  environ w !! "GH_TOKEN" = Some tok →
  hub w !! repo = Some r →
  refs r !! "refs/heads/main" = Some sha →
  commits r !! sha = Some tree →
  tree !! p = Some (Json doc) →
  refs r !! ref = None →
  refuses_pulls r = false →
  ∃ w' r' doc' rec,
    main scriptdir a w = (Ok (), w') ∧
    body <$> fs w' !! p = Some (Json doc') ∧
    entry doc' (ngc_base +:+ cont) version = Some rec ∧
    rec !! "release" = Some (from_option VStr VNone (arg_version a)) ∧
    hub w' !! repo = Some r' ∧
    pulls r' = pulls r ++
      [{| title := "Support matrix updates for " +:+ version;
          pr_body := "Updates from containers";
          head := ref; base := "main" |}] ∧
    ∃ commit tree',
      refs r' !! ref = Some commit ∧ commits r' !! commit = Some tree' ∧
      tree' !! p = Some (Json doc').
Proof.
  intros version p repo ref Hcont Hfile Hdata Hdoc Htime Hsnip Hks Hnew Himg
    Hstop Hdec Hsize Hskip Htok Hrepo Hmain Htree Hblob Hfree Hrefuse.
  destruct (process_completes a sniptext (PosixPath p) version
              (if arg_force a then true else false) cont w doc t c n)
    as (x & w1 & doc' & rec & Hproc & Hfs1 & _ & Hrec & Hrel & _);
    [done|done|by right|done|done|done|done| |].
  { intros k Hk. destruct (Hks k Hk) as (v & -> & _ & Hv). eauto. }
  pose proof (within_process a sniptext (PosixPath p) version
                (if arg_force a then true else false) cont w)
    as (Hhub1 & Henv1 & _).
  rewrite Hproc in Hhub1, Henv1. simpl in Hhub1, Henv1.
  set (w2 := set_log (λ l, l ++ [InfoStore (dump (heap w1) (data x))]) w1).
  assert (fs w2 !! p = Some {| body := Json doc'; st_mtime := clock w |})
    as Hfile2.
  { change (fs w2) with (fs w1). rewrite Hfs1. apply lookup_insert_eq. }
  assert (environ w2 !! "GH_TOKEN" = Some tok) as Htok2.
  { change (environ w2) with (environ w1). by rewrite Henv1. }
  assert (hub w2 !! repo = Some r) as Hrepo2.
  { change (hub w2) with (hub w1). by rewrite Hhub1. }
  destruct (run_open_pr repo p version w2 r sha tok
              {| body := Json doc'; st_mtime := clock w |} tree (Json doc) 0
              Htok2 Hfile2 Hrepo2 Hmain Htree Hblob)
    as (w' & Hpr & Hfs' & _ & Hhub'); [intros i Hi; lia|exact Hfree|lia|].
  rewrite decide_False, Hrefuse in Hhub'.
  2:{ rewrite diff_files_empty_iff, Hblob. intros [= ->].
      rewrite Hrec in Hnew. simpl in Hnew. subst rec.
      by rewrite lookup_empty in Hrel. }
  eexists w', _, doc', rec. split_and!.
  - unfold main. cbv zeta.
    erewrite run_bind_ok by (apply run_stat_mtime; exact Hdata).
    rewrite run_bind.
    assert (match given (arg_version a) with
            | Some v => mret v
            | None => get_yymm
            end w = (Ok version, w)) as ->.
    { unfold version. by destruct (given (arg_version a)). }
    cbv beta iota.
    erewrite run_bind_ok by (eapply run_load_snippets; exact Hsnip).
    erewrite run_bind_ok.
    2:{ apply check_snippets_Ok. intros k Hk.
        destruct (Hks k Hk) as (v & Hv & Htrue & _). eauto. }
    rewrite Hcont, Hfile. cbn [from_option process_all].
    erewrite run_bind_ok by (erewrite run_bind_ok by exact Hproc; reflexivity).
    erewrite run_bind_ok by reflexivity.
    erewrite run_bind_ok by reflexivity.
    erewrite run_bind_ok by reflexivity. fold w2.
    erewrite run_bind_ok by (apply run_stat_mtime; exact Hfile2).
    rewrite run_gets. change (environ w2) with (environ w1).
    rewrite Henv1, Hskip. cbn [st_mtime].
    assert ((clock w =? t)%Z = false) as -> by (apply Z.eqb_neq; congruence).
    rewrite bool_decide_true by done. cbn [negb andb].
    rewrite run_gets. change (environ w2) with (environ w1). rewrite Henv1.
    exact Hpr.
  - by rewrite Hfs', Hfile2.
  - done.
  - done.
  - rewrite Hhub'. apply lookup_insert_eq.
  - done.
  - eexists _, _. simpl. split_and!.
    + apply lookup_insert_eq.
    + apply app_length_lookup.
    + apply lookup_insert_eq.
Qed.

Local Transparent create_branch.

(** * The further properties at sample inputs *)

Lemma failed_save_loses_every_entry_witness :
  fs (sample_world [∅] sample_files) !! datafile (sample_extractor false None)
  = Some {| body := Json sample_doc; st_mtime := 0 |} ∧
  dated_snippets !! "dgx_system" = Some (VDate "2022-02-01") ∧
  (∃ x1 w1 w2 f,
     from_json (sample_extractor false None) (sample_world [∅] sample_files)
     = (Ok x1, w1) ∧
     (insert_snippet x1 "dgx_system" (VDate "2022-02-01");; to_json_file x1) w1
     = (Raise TypeError, w2) ∧
     fs w2 !! datafile (sample_extractor false None) = Some f ∧
     (∀ doc', body f ≠ Json doc') ∧
     from_json (sample_extractor false None) w2
     = (Raise JSONDecodeError, w2)) ∧
  ∃ w' f,
    process sample_args dated_snippets (PosixPath "/docs/data.json") "22.02"
      false "merlin-training"
      (running_world (docs_files (Json sample_doc) dated_snippets)
         (Some sample_container) ∅ (repository_with ∅ false))
    = (Raise RuntimeError, w') ∧
    fs w' !! "/docs/data.json" = Some f ∧
    (∀ doc', body f ≠ Json doc').
Proof.
  split; [reflexivity|]. split; [reflexivity|]. split.
  - apply (proj1 failed_save_loses_every_entry (sample_extractor false None)
             (sample_world [∅] sample_files) sample_doc 0%Z
             "dgx_system" "2022-02-01").
    reflexivity.
  - destruct (proj2 failed_save_loses_every_entry sample_args dated_snippets
                (PosixPath "/docs/data.json") "22.02" false "merlin-training"
                (running_world (docs_files (Json sample_doc) dated_snippets)
                   (Some sample_container) ∅ (repository_with ∅ false))
                sample_doc 0%Z sample_container 3221225472%Z
                "dgx_system" "2022-02-01")
      as (w' & f & Hrun & Hf & Hbody & _).
    + reflexivity.
    + right. reflexivity.
    + reflexivity.
    + intros cmd. by eexists.
    + reflexivity.
    + intros k. unfold standard_snippets.
      rewrite !elem_of_cons, elem_of_nil.
      intros [->|[->|[->|[]]]]; by eexists.
    + apply list_elem_of_here.
    + reflexivity.
    + exists w', f. split; [exact Hrun|]. split; [exact Hf|exact Hbody].
Defined.

Lemma stored_container_is_skipped_witness :
  fs (running_world (docs_files (Json stored_doc) sample_snippets) None ∅
        (repository_with ∅ false)) !! fspath (PosixPath "/docs/data.json")
  = Some {| body := Json stored_doc; st_mtime := 0 |} ∧
  entry stored_doc (ngc_base +:+ "merlin-training") "22.02"
  = Some {[ "cuda" := VStr "11.6" ]} ∧
  ∃ x w',
    process sample_args sample_snippets (PosixPath "/docs/data.json") "22.02"
      false "merlin-training"
      (running_world (docs_files (Json stored_doc) sample_snippets) None ∅
         (repository_with ∅ false))
    = (Ok x, w') ∧
    fs w' = docs_files (Json stored_doc) sample_snippets.
Proof.
  split; [reflexivity|]. split; [reflexivity|].
  destruct (stored_container_is_skipped sample_args sample_snippets
              (PosixPath "/docs/data.json") "22.02" "merlin-training"
              (running_world (docs_files (Json stored_doc) sample_snippets)
                 None ∅ (repository_with ∅ false))
              stored_doc 0%Z {[ "cuda" := VStr "11.6" ]} eq_refl eq_refl)
    as (x & w' & Hrun & (Hfs & _) & _).
  - apply insert_non_empty.
  - exists x, w'. split; [exact Hrun|exact Hfs].
Defined.

Lemma failed_image_and_the_store_witness :
  (process sample_args dated_snippets (PosixPath "/docs/data.json") "22.02"
     false "merlin-training"
     (running_world (docs_files (Json sample_doc) dated_snippets)
        (Some sample_container) ∅ (repository_with ∅ false))).1
  = Raise RuntimeError ∧
  outside_store "/docs/data.json"
    (running_world (docs_files (Json sample_doc) dated_snippets)
       (Some sample_container) ∅ (repository_with ∅ false))
    (process sample_args dated_snippets (PosixPath "/docs/data.json") "22.02"
       false "merlin-training"
       (running_world (docs_files (Json sample_doc) dated_snippets)
          (Some sample_container) ∅ (repository_with ∅ false))).2 ∧
  (only_objects
     (running_world (docs_files (Json sample_doc) dated_snippets)
        (Some sample_container) ∅ (repository_with ∅ false))
     (process sample_args dated_snippets (PosixPath "/docs/data.json") "22.02"
        false "merlin-training"
        (running_world (docs_files (Json sample_doc) dated_snippets)
           (Some sample_container) ∅ (repository_with ∅ false))).2 ∨
   (RuntimeError = RuntimeError ∧
    ∃ doc,
      body <$>
        fs (process sample_args dated_snippets (PosixPath "/docs/data.json")
              "22.02" false "merlin-training"
              (running_world (docs_files (Json sample_doc) dated_snippets)
                 (Some sample_container) ∅ (repository_with ∅ false))).2
          !! "/docs/data.json"
      = Some (Partial doc) ∧ ¬ encodable doc) ∨
   (RuntimeError = APIError ∧
    ∃ doc,
      body <$>
        fs (process sample_args dated_snippets (PosixPath "/docs/data.json")
              "22.02" false "merlin-training"
              (running_world (docs_files (Json sample_doc) dated_snippets)
                 (Some sample_container) ∅ (repository_with ∅ false))).2
          !! "/docs/data.json"
      = Some (Json doc) ∧ encodable doc)).
Proof.
  assert ((process sample_args dated_snippets (PosixPath "/docs/data.json")
             "22.02" false "merlin-training"
             (running_world (docs_files (Json sample_doc) dated_snippets)
                (Some sample_container) ∅ (repository_with ∅ false))).1
          = Raise RuntimeError) as Hraise by (vm_compute; reflexivity).
  split; [exact Hraise|].
  exact (failed_image_and_the_store _ _ _ _ _ _ _ _ Hraise).
Defined.

Lemma main_writes_only_the_store_witness :
  "/docs/snippets.yaml" ≠ store_path "/docs" sample_args ∧
  fs (main "/docs" sample_args
        (running_world (docs_files (Json stored_doc) sample_snippets)
           (Some sample_container) ∅ (repository_with ∅ false))).2
    !! "/docs/snippets.yaml"
  = fs (running_world (docs_files (Json stored_doc) sample_snippets)
          (Some sample_container) ∅ (repository_with ∅ false))
      !! "/docs/snippets.yaml".
Proof.
  assert ("/docs/snippets.yaml" ≠ store_path "/docs" sample_args) as Hne
    by (vm_compute; discriminate).
  split; [exact Hne|].
  exact (proj2 (main_writes_only_the_store "/docs" sample_args
                  (running_world (docs_files (Json stored_doc) sample_snippets)
                     (Some sample_container) ∅ (repository_with ∅ false)))
           "/docs/snippets.yaml" Hne).
Defined.

Lemma main_leaves_repository_witness :
  environ (running_world (docs_files (Json ∅) sample_snippets)
             (Some sample_container) ∅ (repository_with ∅ false))
    !! "GH_TOKEN" = None ∧
  hub (main "/docs" sample_args
         (running_world (docs_files (Json ∅) sample_snippets)
            (Some sample_container) ∅ (repository_with ∅ false))).2
  = hub (running_world (docs_files (Json ∅) sample_snippets)
           (Some sample_container) ∅ (repository_with ∅ false)).
Proof.
  split; [reflexivity|].
  apply main_leaves_repository. right. left. reflexivity.
Defined.

Lemma file_option_ends_in_exception_witness :
  given (arg_file {| arg_version := Some "22.02";
                     arg_file := Some "/tmp/data.json";
                     arg_snippets := None; arg_container := None;
                     arg_force := false |}) = Some "/tmp/data.json" ∧
  ∃ e,
    (main "/docs"
       {| arg_version := Some "22.02"; arg_file := Some "/tmp/data.json";
          arg_snippets := None; arg_container := None; arg_force := false |}
       (running_world (docs_files (Json ∅) sample_snippets) None ∅
          (repository_with ∅ false))).1
    = Raise e.
Proof.
  split; [reflexivity|].
  apply file_option_ends_in_exception. exists "/tmp/data.json". reflexivity.
Defined.

Lemma run_without_images_changes_nothing_witness :
  (∀ img,
     images (running_world (docs_files (Json stored_doc) sample_snippets)
               None {[ "GH_TOKEN" := "token" ]} (repository_with ∅ false)) img
     = None) ∧
  only_objects
    (running_world (docs_files (Json stored_doc) sample_snippets) None
       {[ "GH_TOKEN" := "token" ]} (repository_with ∅ false))
    (main "/docs" sample_args
       (running_world (docs_files (Json stored_doc) sample_snippets) None
          {[ "GH_TOKEN" := "token" ]} (repository_with ∅ false))).2.
Proof.
  assert (∀ img,
     images (running_world (docs_files (Json stored_doc) sample_snippets)
               None {[ "GH_TOKEN" := "token" ]} (repository_with ∅ false)) img
     = None) as Himg.
  { intros img. simpl. by destruct (decide _). }
  split; [exact Himg|].
  exact (run_without_images_changes_nothing "/docs" sample_args _ Himg).
Defined.

Lemma main_requires_standard_snippets_witness :
  ({[ "dgx_system" := VStr "DGX" ]} : gmap string value) !! "nvidia_driver"
  = None ∧
  ∃ e,
    main "/docs" sample_args
      (running_world
         (docs_files (Json stored_doc) {[ "dgx_system" := VStr "DGX" ]})
         (Some sample_container) ∅ (repository_with ∅ false))
    = (Raise e,
       running_world
         (docs_files (Json stored_doc) {[ "dgx_system" := VStr "DGX" ]})
         (Some sample_container) ∅ (repository_with ∅ false)) ∧
    (e = AssertionError ∨
     ∃ k', k' ∈ standard_snippets ∧ e = KeyError k').
Proof.
  assert (({[ "dgx_system" := VStr "DGX" ]} : gmap string value)
            !! "nvidia_driver" = None) as Hnone by reflexivity.
  split; [exact Hnone|].
  apply (main_requires_standard_snippets "/docs" sample_args _
           {| body := Json stored_doc; st_mtime := 0 |}
           {[ "dgx_system" := VStr "DGX" ]} 0%Z "nvidia_driver").
  - reflexivity.
  - reflexivity.
  - apply list_elem_of_further, list_elem_of_here.
  - intros v Hv. rewrite Hnone in Hv. discriminate Hv.
Defined.

Lemma missing_path_leaves_scratch_branch_witness :
  (∅ : gmap string content) !! "/docs/data.json" = None ∧
  ∃ w',
    open_pr "NVIDIA-Merlin/Merlin" "/docs/data.json" "22.02"
      (publishing_docs (repository_with ∅ false))
    = (Raise GithubException, w') ∧
    hub w' = <["NVIDIA-Merlin/Merlin" :=
                 set_refs (insert (branch_ref (scratch_prefix "22.02") 1) 0)
                   (repository_with ∅ false)]>
               (hub (publishing_docs (repository_with ∅ false))).
Proof.
  split; [reflexivity|].
  refine (missing_path_leaves_scratch_branch "NVIDIA-Merlin/Merlin"
            "/docs/data.json" "22.02"
            (publishing_docs (repository_with ∅ false))
            (repository_with ∅ false) 0 "token"
            {| body := Json stored_doc; st_mtime := 0 |} ∅ 0
            eq_refl eq_refl eq_refl eq_refl eq_refl eq_refl _ _ _).
  - intros i Hi. lia.
  - vm_compute. reflexivity.
  - lia.
Defined.

Lemma refused_pull_is_swallowed_witness :
  Json ∅ ≠ body {| body := Json stored_doc; st_mtime := 0 |} ∧
  refuses_pulls (repository_with {[ "/docs/data.json" := Json ∅ ]} true)
  = true ∧
  ∃ w' r',
    open_pr "NVIDIA-Merlin/Merlin" "/docs/data.json" "22.02"
      (publishing_docs (repository_with {[ "/docs/data.json" := Json ∅ ]} true))
    = (Ok (), w') ∧
    hub w' !! "NVIDIA-Merlin/Merlin" = Some r' ∧
    pulls r' = [] ∧
    refs r' !! branch_ref (scratch_prefix "22.02") 1 = Some 1 ∧
    commits r' !! 1
    = Some (<["/docs/data.json" := Json stored_doc]>
              {[ "/docs/data.json" := Json ∅ ]}).
Proof.
  assert (Json ∅ ≠ body {| body := Json stored_doc; st_mtime := 0 |}) as Hne.
  { apply (bool_decide_eq_false_1 (Json ∅ = Json stored_doc)).
    vm_compute. reflexivity. }
  split; [exact Hne|]. split; [reflexivity|].
  refine (refused_pull_is_swallowed "NVIDIA-Merlin/Merlin"
            "/docs/data.json" "22.02"
            (publishing_docs
               (repository_with {[ "/docs/data.json" := Json ∅ ]} true))
            (repository_with {[ "/docs/data.json" := Json ∅ ]} true) 0 "token"
            {| body := Json stored_doc; st_mtime := 0 |}
            {[ "/docs/data.json" := Json ∅ ]} (Json ∅) 0
            eq_refl eq_refl eq_refl eq_refl eq_refl eq_refl _ _ _ Hne eq_refl).
  - intros i Hi. lia.
  - vm_compute. reflexivity.
  - lia.
Defined.

Lemma missing_base_branch_is_misreported_witness :
  refs {| refs := ∅; commits := []; pulls := []; refuses_pulls := false |}
    !! "refs/heads/main" = None ∧
  ∃ w',
    open_pr "NVIDIA-Merlin/Merlin" "/docs/data.json" "22.02"
      (publishing_docs {| refs := ∅; commits := []; pulls := []; refuses_pulls := false |})
    = (Raise GithubException, w') ∧
    hub w'
    = hub (publishing_docs {| refs := ∅; commits := []; pulls := [];
                refuses_pulls := false |}) ∧
    length (log w') = 26.
Proof.
  assert (refs {| refs := ∅; commits := []; pulls := [];
                  refuses_pulls := false |} !! "refs/heads/main" = None)
    as Hnone by reflexivity.
  split; [exact Hnone|].
  destruct (missing_base_branch_is_misreported "NVIDIA-Merlin/Merlin"
              "/docs/data.json" "22.02"
              (publishing_docs {| refs := ∅; commits := []; pulls := [];
                    refuses_pulls := false |})
              {| refs := ∅; commits := []; pulls := []; refuses_pulls := false |}
              "token" {| body := Json stored_doc; st_mtime := 0 |}
              eq_refl eq_refl eq_refl Hnone)
    as (w' & Hrun & Hhub & Hlog).
  exists w'. split; [exact Hrun|]. split; [exact Hhub|].
  rewrite Hlog. reflexivity.
Defined.

Lemma store_round_trip_witness :
  can_create (sample_world [{[ "cuda" := VStr "11.6" ]}] ∅)
    (datafile (sample_extractor false None)) = true ∧
  encodable (dump (heap (sample_world [{[ "cuda" := VStr "11.6" ]}] ∅))
               (data (sample_extractor false None))) ∧
  ∃ x' w2,
    (to_json_file (sample_extractor false None);;
     x0 ← __init__ "merlin-inference" "22.02"
            (datafile (sample_extractor false None)) false;
     from_json x0)
      (sample_world [{[ "cuda" := VStr "11.6" ]}] ∅)
    = (Ok x', w2) ∧
    entry (dump (heap w2) (data x')) "merlin-training" "22.02"
    = Some {[ "cuda" := VStr "11.6" ]}.
Proof.
  assert (encodable
            (dump (heap (sample_world [{[ "cuda" := VStr "11.6" ]}] ∅))
               (data (sample_extractor false None)))) as Hdoc.
  { apply (bool_decide_eq_true_1 (encodable _)). vm_compute. reflexivity. }
  assert (can_create (sample_world [{[ "cuda" := VStr "11.6" ]}] ∅)
            (datafile (sample_extractor false None)) = true) as Hopen
    by reflexivity.
  split; [exact Hopen|]. split; [exact Hdoc|].
  destruct (store_round_trip (sample_extractor false None)
              (sample_world [{[ "cuda" := VStr "11.6" ]}] ∅)
              "merlin-inference" "22.02" false Hopen Hdoc)
    as (x' & w2 & Hrun & Hother & _).
  exists x', w2. split; [exact Hrun|].
  rewrite Hother by discriminate. reflexivity.
Defined.

Lemma size_is_rounded_gigabytes_witness :
  container (sample_extractor false (Some sample_container))
  = Some sample_container ∧
  contdata (sample_extractor false (Some sample_container))
  < length (heap (sample_world [∅] ∅)) ∧
  (0 ≤ 3221225472 < 2 ^ 53)%Z ∧
  attrs sample_container !! "Size" = Some (VInt 3221225472) ∧
  ∃ w' q,
    get_from_image (sample_extractor false (Some sample_container))
      "Size" (Some "size") (sample_world [∅] ∅) = (Ok (), w') ∧
    (heap w' !!! 0) !! "size" = Some (VStr (two_decimals q +:+ " GB")) ∧
    two_decimals q = "3.0".
Proof.
  split; [reflexivity|]. split; [simpl; lia|]. split; [lia|].
  split; [reflexivity|].
  destruct (size_is_rounded_gigabytes
              (sample_extractor false (Some sample_container))
              sample_container (Some "size") 3221225472
              (sample_world [∅] ∅) eq_refl (le_n 1) ltac:(lia) eq_refl)
    as (w' & q & Hrun & _ & Hfield & _ & Hwhole).
  exists w', q. split; [exact Hrun|]. split; [exact Hfield|].
  exact (Hwhole 3%Z eq_refl).
Defined.

Lemma undecodable_output_witness :
  container (sample_extractor false (Some (answering 2 None ∅)))
  = Some (answering 2 None ∅) ∧
  output (exec_run (answering 2 None ∅) (env_cmd "CUDA_VERSION")) = None ∧
  (get_from_env (sample_extractor false (Some (answering 2 None ∅)))
     "CUDA_VERSION" (Some "cuda") (sample_world [∅] ∅)).1
  = Raise UnicodeDecodeError ∧
  (get_from_pip (sample_extractor false (Some (answering 2 None ∅)))
     "rmm" None (sample_world [∅] ∅)).1
  = Ok ().
Proof.
  split; [reflexivity|]. split; [reflexivity|].
  pose proof (undecodable_output
                (sample_extractor false (Some (answering 2 None ∅)))
                (answering 2 None ∅) (sample_world [∅] ∅) eq_refl)
    as (_ & Henv & _ & Hpip).
  split.
  - exact (Henv "CUDA_VERSION" (Some "cuda") eq_refl).
  - exact (Hpip "rmm" None eq_refl).
Defined.

Lemma probe_without_container_witness :
  container (sample_extractor false None) = None ∧
  apply_mutation (sample_extractor false None)
    (Env "CUDA_VERSION" (Some "cuda")) (sample_world [∅] ∅)
  = (Raise (AttributeError "container"),
     set_heap (alter (insert "cuda" ERROR) 0) (sample_world [∅] ∅)).
Proof.
  split; [reflexivity|].
  apply (probe_without_container (sample_extractor false None)
           (Env "CUDA_VERSION" (Some "cuda")) (sample_world [∅] ∅) eq_refl).
  intros key v H. discriminate H.
Defined.

Lemma env_value_is_clean_witness :
  (0 ≠ 1)%Z ∧
  Str.isspace (String dquote ("11.6" +:+ String dquote (String newline "")))
  = false ∧
  ∃ w' s,
    get_from_env
      (sample_extractor false
         (Some (answering 0
                  (Some (String dquote
                           ("11.6" +:+ String dquote (String newline ""))))
                  ∅)))
      "CUDA_VERSION" (Some "cuda") (sample_world [∅] ∅) = (Ok (), w') ∧
    (heap w' !!! 0) !! "cuda" = Some (VStr s) ∧
    contains dquote s = false ∧ Str.strip s = s.
Proof.
  split; [lia|]. split; [reflexivity|].
  destruct (proj2 (env_value_is_clean
                     (sample_extractor false
                        (Some (answering 0
                                 (Some (String dquote
                                    ("11.6" +:+ String dquote
                                       (String newline ""))))
                                 ∅)))
                     (answering 0
                        (Some (String dquote
                           ("11.6" +:+ String dquote (String newline ""))))
                        ∅)
                     0%Z
                     (String dquote
                        ("11.6" +:+ String dquote (String newline "")))
                     (sample_world [∅] ∅) eq_refl (le_n 1) ltac:(lia) eq_refl)
              "CUDA_VERSION" (Some "cuda") eq_refl)
    as (w' & s & Hrun & Hfield & Hq & Hs & _).
  by exists w', s.
Defined.

Lemma base_container_step_cannot_fail_witness :
  contdata (sample_extractor false (Some sample_container))
  < length (heap (sample_world [∅] ∅)) ∧
  (run_probes (sample_extractor false (Some sample_container))
     (sample_world [∅] ∅)).1 = Ok () ∧
  ∃ v,
    (base_container_hack (sample_extractor false (Some sample_container))
       "merlin-tensorflow-training"
       (run_probes (sample_extractor false (Some sample_container))
          (sample_world [∅] ∅)).2).1 = Ok () ∧
    (heap (base_container_hack (sample_extractor false (Some sample_container))
             "merlin-tensorflow-training"
             (run_probes (sample_extractor false (Some sample_container))
                (sample_world [∅] ∅)).2).2 !!! 0) !! "base_container"
    = Some (VStr v).
Proof.
  split; [simpl; lia|].
  assert ((run_probes (sample_extractor false (Some sample_container))
             (sample_world [∅] ∅)).1 = Ok ()) as Hok
    by (vm_compute; reflexivity).
  split; [exact Hok|].
  destruct (base_container_step_cannot_fail
              (sample_extractor false (Some sample_container))
              "merlin-tensorflow-training" (sample_world [∅] ∅)
              (run_probes (sample_extractor false (Some sample_container))
                 (sample_world [∅] ∅)).2 (le_n 1))
    as [v Hrun].
  { rewrite <-Hok. apply surjective_pairing. }
  exists v. rewrite Hrun. split; [reflexivity|]. simpl.
  rewrite list_lookup_total_alter_eq.
  - apply lookup_insert_eq.
  - pose proof (frames_apply_mutations
                  (sample_extractor false (Some sample_container)) probes
                  (sample_world [∅] ∅)) as (Hlen & _).
    rewrite <-run_probes_eq in Hlen. rewrite Hlen. simpl. lia.
Defined.

Lemma sample_snippets_are_set k :
  k ∈ standard_snippets →
  ∃ v, sample_snippets !! k = Some v ∧ truthy v = true.
Proof.
  unfold standard_snippets. rewrite !elem_of_cons, elem_of_nil.
  intros [->|[->|[->|[]]]]; eexists; split; reflexivity.
Qed.

Lemma sample_snippets_encode k :
  k ∈ standard_snippets →
  ∃ v, sample_snippets !! k = Some v ∧ truthy v = true ∧
       serialisable v = true.
Proof.
  unfold standard_snippets. rewrite !elem_of_cons, elem_of_nil.
  intros [->|[->|[->|[]]]]; eexists; split_and!; reflexivity.
Qed.

Lemma image_without_size_ends_run_witness :
  images (running_world (docs_files (Json ∅) sample_snippets)
            (Some (answering 0 (Some "11.6") ∅)) ∅ (repository_with ∅ false))
    (ngc_base +:+ "merlin-training" +:+ ":" +:+ "22.02")
  = Some (answering 0 (Some "11.6") ∅) ∧
  attrs (answering 0 (Some "11.6") ∅) !! "Size" = None ∧
  ∃ w',
    main "/docs" sample_args
      (running_world (docs_files (Json ∅) sample_snippets)
         (Some (answering 0 (Some "11.6") ∅)) ∅ (repository_with ∅ false))
    = (Raise RuntimeError, w') ∧
    only_objects
      (running_world (docs_files (Json ∅) sample_snippets)
         (Some (answering 0 (Some "11.6") ∅)) ∅ (repository_with ∅ false))
      w'.
Proof.
  assert (attrs (answering 0 (Some "11.6") ∅) !! "Size" = None) as Hattr
    by reflexivity.
  split; [reflexivity|]. split; [exact Hattr|].
  apply (image_without_size_ends_run "/docs" sample_args
           (running_world (docs_files (Json ∅) sample_snippets)
              (Some (answering 0 (Some "11.6") ∅)) ∅ (repository_with ∅ false))
           {| body := Json ∅; st_mtime := 0 |} ∅ 0%Z sample_snippets 0%Z
           (answering 0 (Some "11.6") ∅)).
  - reflexivity.
  - reflexivity.
  - reflexivity.
  - apply sample_snippets_are_set.
  - right. reflexivity.
  - reflexivity.
  - exact Hattr.
Defined.

Lemma completed_image_is_stored_witness :
  images (running_world (docs_files (Json ∅) sample_snippets)
            (Some sample_container) ∅ (repository_with ∅ false))
    (ngc_base +:+ "merlin-training" +:+ ":" +:+ "22.02")
  = Some sample_container ∧
  stops sample_container = true ∧
  attrs sample_container !! "Size" = Some (VInt 3221225472) ∧
  ∃ x w' doc' rec,
    process sample_args sample_snippets (PosixPath "/docs/data.json") "22.02"
      false "merlin-training"
      (running_world (docs_files (Json ∅) sample_snippets)
         (Some sample_container) ∅ (repository_with ∅ false))
    = (Ok x, w') ∧
    body <$> fs w' !! "/docs/data.json" = Some (Json doc') ∧
    entry doc' (ngc_base +:+ "merlin-training") "22.02" = Some rec ∧
    rec !! "release" = Some (VStr "22.02") ∧
    rec !! "gpu_model" = Some (VStr "A100") ∧
    is_Some (rec !! "cuda").
Proof.
  split; [reflexivity|]. split; [reflexivity|]. split; [reflexivity|].
  destruct (completed_image_is_stored sample_args sample_snippets
              (PosixPath "/docs/data.json") "22.02" false "merlin-training"
              (running_world (docs_files (Json ∅) sample_snippets)
                 (Some sample_container) ∅ (repository_with ∅ false))
              ∅ 0%Z sample_container 3221225472)
    as (x & w' & doc' & rec & Hrun & Hfs & _ & Hrec & Hrel & Hsn & Hprobes).
  - reflexivity.
  - apply map_Forall_empty.
  - right. reflexivity.
  - reflexivity.
  - reflexivity.
  - intros cmd. by eexists.
  - reflexivity.
  - intros k Hk. destruct (sample_snippets_encode k Hk) as (v & -> & _ & Hv).
    by eexists.
  - exists x, w', doc', rec. split; [exact Hrun|]. split.
    { rewrite Hfs. simpl. by rewrite lookup_insert_eq. }
    split; [exact Hrec|]. split; [exact Hrel|]. split.
    + rewrite Hsn; [reflexivity|].
      apply list_elem_of_further, list_elem_of_further, list_elem_of_here.
    + apply (Hprobes (Env "CUDA_VERSION" (Some "cuda"))). in_probes.
Defined.

Lemma run_publishes_new_record_witness :
  (0 ≠ clock (running_world (docs_files (Json ∅) sample_snippets)
                (Some sample_container) {[ "GH_TOKEN" := "token" ]}
                (repository_with {[ "/docs/data.json" := Json ∅ ]} false)))%Z ∧
  refuses_pulls (repository_with {[ "/docs/data.json" := Json ∅ ]} false)
  = false ∧
  stops sample_container = true ∧
  ∃ w' r' doc' rec,
    main "/docs" training_args
      (running_world (docs_files (Json ∅) sample_snippets)
         (Some sample_container) {[ "GH_TOKEN" := "token" ]}
         (repository_with {[ "/docs/data.json" := Json ∅ ]} false))
    = (Ok (), w') ∧
    body <$> fs w' !! "/docs/data.json" = Some (Json doc') ∧
    entry doc' (ngc_base +:+ "merlin-training") "22.02" = Some rec ∧
    rec !! "release" = Some (VStr "22.02") ∧
    hub w' !! "NVIDIA-Merlin/Merlin" = Some r' ∧
    pulls r' =
      [{| title := "Support matrix updates for 22.02";
          pr_body := "Updates from containers";
          head := "refs/heads/docs-smx-2202-1"; base := "main" |}].
Proof.
  split; [simpl; lia|]. split; [reflexivity|]. split; [reflexivity|].
  destruct (run_publishes_new_record "/docs" training_args
              (running_world (docs_files (Json ∅) sample_snippets)
                 (Some sample_container) {[ "GH_TOKEN" := "token" ]}
                 (repository_with {[ "/docs/data.json" := Json ∅ ]} false))
              "merlin-training" ∅ 0%Z sample_snippets 0%Z sample_container
              3221225472 "token"
              (repository_with {[ "/docs/data.json" := Json ∅ ]} false) 0
              {[ "/docs/data.json" := Json ∅ ]})
    as (w' & r' & doc' & rec & Hrun & Hfile & Hrec & Hrel & Hhub & Hpulls & _).
  - reflexivity.
  - reflexivity.
  - reflexivity.
  - apply map_Forall_empty.
  - simpl. lia.
  - reflexivity.
  - apply sample_snippets_encode.
  - reflexivity.
  - reflexivity.
  - reflexivity.
  - intros cmd. by eexists.
  - reflexivity.
  - reflexivity.
  - reflexivity.
  - reflexivity.
  - reflexivity.
  - reflexivity.
  - reflexivity.
  - vm_compute. reflexivity.
  - reflexivity.
  - exists w', r', doc', rec.
    split; [exact Hrun|]. split; [exact Hfile|]. split; [exact Hrec|].
    split; [exact Hrel|]. split; [exact Hhub|]. exact Hpulls.
Defined.
